(** * Tactical War Room: the interaction engine of [src/App.tsx]

    A shallow embedding of the arrow-geometry generator, the wheel zoom,
    the snapshot history and the pointer/keyboard handlers, with the
    properties the specification states about them.

    Numbers.  A JavaScript [number] is idealised as a real number: the
    geometric statements are statements of Euclidean geometry, and the
    rounding of IEEE doubles is outside this development.

    Strings.  A history entry is the text [JSON.stringify(canvas.toJSON())].
    It is represented by the data that text encodes (type [Snapshot]); the
    comparison [===] of two such texts is equality of that data. *)

From Stdlib Require Import Reals Lra Lia List String Ascii Bool Arith PeanoNat.
Import ListNotations.

Local Open Scope R_scope.

(** ** Geometry module: [generateArrowPath] (lines 22-77) *)

Definition Point : Type := (R * R)%type.

(** The commands of the SVG path built by the template literal of line 76. *)
Inductive PathCmd : Type :=
| MoveTo (p : Point)      (* M x y *)
| LineTo (p : Point)      (* L x y *)
| ClosePath.              (* Z *)

(** A path string; the empty string is the empty list of commands. *)
Definition PathString : Type := list PathCmd.

Definition generateArrowPath (x1 y1 x2 y2 thickness : R) : PathString :=
  let headLength := thickness * 3.5 in
  let headWidth := thickness * 3 in
  let shaftWidth := thickness in
  let dx := x2 - x1 in
  let dy := y2 - y1 in
  let length := sqrt (dx * dx + dy * dy) in
  if Rlt_dec length headLength then []
  else
    let ux := dx / length in
    let uy := dy / length in
    let nx := - uy in
    let ny := ux in
    let shaftLength := length - headLength in
    let p1x := x1 + nx * (shaftWidth / 2) in
    let p1y := y1 + ny * (shaftWidth / 2) in
    let p2x := x1 + ux * shaftLength + nx * (shaftWidth / 2) in
    let p2y := y1 + uy * shaftLength + ny * (shaftWidth / 2) in
    let p3x := x1 + ux * shaftLength + nx * (headWidth / 2) in
    let p3y := y1 + uy * shaftLength + ny * (headWidth / 2) in
    let p4x := x2 in
    let p4y := y2 in
    let p5x := x1 + ux * shaftLength - nx * (headWidth / 2) in
    let p5y := y1 + uy * shaftLength - ny * (headWidth / 2) in
    let p6x := x1 + ux * shaftLength - nx * (shaftWidth / 2) in
    let p6y := y1 + uy * shaftLength - ny * (shaftWidth / 2) in
    let p7x := x1 - nx * (shaftWidth / 2) in
    let p7y := y1 - ny * (shaftWidth / 2) in
    [ MoveTo (p1x, p1y); LineTo (p2x, p2y); LineTo (p3x, p3y);
      LineTo (p4x, p4y); LineTo (p5x, p5y); LineTo (p6x, p6y);
      LineTo (p7x, p7y); ClosePath ].

(** JavaScript truthiness of a string: [if (pathString)]. *)
Definition truthy (p : PathString) : bool :=
  match p with [] => false | _ :: _ => true end.

(** The vertices a path visits, in order, and whether it is closed by [Z]. *)
Fixpoint vertices (p : PathString) : list Point :=
  match p with
  | [] => []
  | MoveTo v :: q => v :: vertices q
  | LineTo v :: q => v :: vertices q
  | ClosePath :: q => vertices q
  end.


(** *** Vocabulary of the statement about the outline *)

Definition distance (p q : Point) : R :=
  sqrt ((fst q - fst p) * (fst q - fst p) + (snd q - snd p) * (snd q - snd p)).

(** The point reached from [o] by going [a] along the unit direction [u]
    and [b] to its left, the left normal of [(ux, uy)] being [(-uy, ux)]. *)
Definition in_frame (o u : Point) (a b : R) : Point :=
  (fst o + a * fst u - b * snd u, snd o + a * snd u + b * fst u).

Definition direction (p q : Point) : Point :=
  ((fst q - fst p) / distance p q, (snd q - snd p) / distance p q).

(** The seven vertices as the specification names them, for an arrow from
    [p] to [q] of thickness [t]: shaft of width [t] from the tail to the
    shoulders, head of width [3t] and length [3.5t] ending at the tip. *)
Definition tail_left (p q : Point) (t : R) : Point :=
  in_frame p (direction p q) 0 (t / 2).
Definition shoulder_inner_left (p q : Point) (t : R) : Point :=
  in_frame p (direction p q) (distance p q - 3.5 * t) (t / 2).
Definition shoulder_outer_left (p q : Point) (t : R) : Point :=
  in_frame p (direction p q) (distance p q - 3.5 * t) (3 * t / 2).
Definition shoulder_outer_right (p q : Point) (t : R) : Point :=
  in_frame p (direction p q) (distance p q - 3.5 * t) (- (3 * t / 2)).
Definition shoulder_inner_right (p q : Point) (t : R) : Point :=
  in_frame p (direction p q) (distance p q - 3.5 * t) (- (t / 2)).
Definition tail_right (p q : Point) (t : R) : Point :=
  in_frame p (direction p q) 0 (- (t / 2)).


(** Edge [i] of the closed polygon [vs] runs from vertex [i] to the next
    vertex, the last one back to the first. *)
Definition vertex (vs : list Point) (i : nat) : Point := nth i vs (0, 0).


(** ** Viewport: the zoom of the [mouse:wheel] handler (lines 290-299) *)

(** [0.999 ** delta] is the real power [Rpower]. *)
Definition wheel_zoom (zoom0 delta : R) : R :=
  let zoom := zoom0 * Rpower 0.999 delta in
  let zoom := if Rgt_dec zoom 20 then 20 else zoom in
  let zoom := if Rlt_dec zoom 0.1 then 0.1 else zoom in
  zoom.

(** The same value in the words of the specification. *)
Definition clamp (lo hi x : R) : R := Rmax lo (Rmin hi x).

(** ** Scene adapter: the part of the fabric canvas the engine relies on

    The canvas library is an external collaborator.  What follows records
    the behaviour of the calls [App.tsx] makes: the object list, the
    active selection, the events [object:added] and [object:removed] fired
    by [add] and [remove], and the whole-scene serialisation. *)

Inductive ObjType : Type := image | path | group | i_text.

(** A live object.  [oid] stands for the identity of the JavaScript object:
    references ([tempArrowRef], the active selection) are object ids, and a
    property written through a reference is seen through the canvas. *)
Record FabricObject : Type := mkObject {
  oid : nat;
  otype : ObjType;
  pathData : PathString;   (* path of a fabric.Path, empty otherwise *)
  text : string;           (* label of a marker, text of a note, image data *)
  fill : string;
  opacity : R;
  oleft : R;
  otop : R;
  oscale : R;
  selectable : bool;
  evented : bool;
  isEditing : bool
}.

(** What [toObject] keeps of an object: the interaction flags
    [selectable], [evented] and the editing state are not serialised. *)
Record ObjJSON : Type := mkJSON {
  j_type : ObjType;
  j_path : PathString;
  j_text : string;
  j_fill : string;
  j_opacity : R;
  j_left : R;
  j_top : R;
  j_scale : R
}.

Definition toObject (o : FabricObject) : ObjJSON :=
  mkJSON (otype o) (pathData o) (text o) (fill o) (opacity o)
         (oleft o) (otop o) (oscale o).

(** A revived object is a new JavaScript object with default flags. *)
Definition fromObject (id : nat) (j : ObjJSON) : FabricObject :=
  mkObject id (j_type j) (j_path j) (j_text j) (j_fill j) (j_opacity j)
           (j_left j) (j_top j) (j_scale j) true true false.

(** [JSON.stringify(canvas.toJSON())]: background colour and objects,
    back to front. *)
Definition Snapshot : Type := (string * list ObjJSON)%type.

Definition Point_eq_dec (p q : Point) : {p = q} + {p <> q}.
Proof. decide equality; apply Req_dec_T. Defined.

Definition PathCmd_eq_dec (a b : PathCmd) : {a = b} + {a <> b}.
Proof. decide equality; apply Point_eq_dec. Defined.

Definition ObjType_eq_dec (a b : ObjType) : {a = b} + {a <> b}.
Proof. decide equality. Defined.

Definition ObjJSON_eq_dec (a b : ObjJSON) : {a = b} + {a <> b}.
Proof.
  decide equality; try apply Req_dec_T; try apply string_dec.
  - apply (list_eq_dec PathCmd_eq_dec).
  - apply ObjType_eq_dec.
Defined.

Definition Snapshot_eq_dec (a b : Snapshot) : {a = b} + {a <> b}.
Proof.
  decide equality.
  - apply (list_eq_dec ObjJSON_eq_dec).
  - apply string_dec.
Defined.

(** [a === b] on two serialised scenes. *)
Definition snapshot_eqb (a b : Snapshot) : bool :=
  if Snapshot_eq_dec a b then true else false.

Record Canvas : Type := mkCanvas {
  objects : list FabricObject;   (* _objects, back to front *)
  backgroundColor : string;
  activeObjects : list nat;      (* references held by the active selection *)
  selection : bool;
  defaultCursor : string;
  hoverCursor : string;
  zoom : R;                      (* viewportTransform[0] = [3] *)
  vpt4 : R;                      (* viewportTransform[4] *)
  vpt5 : R;                      (* viewportTransform[5] *)
  width : R;
  height : R
}.

Definition set_objects (l : list FabricObject) (c : Canvas) : Canvas :=
  mkCanvas l (backgroundColor c) (activeObjects c) (selection c)
           (defaultCursor c) (hoverCursor c) (zoom c) (vpt4 c) (vpt5 c)
           (width c) (height c).
Definition set_backgroundColor (b : string) (c : Canvas) : Canvas :=
  mkCanvas (objects c) b (activeObjects c) (selection c)
           (defaultCursor c) (hoverCursor c) (zoom c) (vpt4 c) (vpt5 c)
           (width c) (height c).
Definition set_activeObjects (a : list nat) (c : Canvas) : Canvas :=
  mkCanvas (objects c) (backgroundColor c) a (selection c)
           (defaultCursor c) (hoverCursor c) (zoom c) (vpt4 c) (vpt5 c)
           (width c) (height c).
Definition set_selection (b : bool) (c : Canvas) : Canvas :=
  mkCanvas (objects c) (backgroundColor c) (activeObjects c) b
           (defaultCursor c) (hoverCursor c) (zoom c) (vpt4 c) (vpt5 c)
           (width c) (height c).
Definition set_cursors (d h : string) (c : Canvas) : Canvas :=
  mkCanvas (objects c) (backgroundColor c) (activeObjects c) (selection c)
           d h (zoom c) (vpt4 c) (vpt5 c) (width c) (height c).
Definition setViewportTransform (z t4 t5 : R) (c : Canvas) : Canvas :=
  mkCanvas (objects c) (backgroundColor c) (activeObjects c) (selection c)
           (defaultCursor c) (hoverCursor c) z t4 t5 (width c) (height c).
Definition setDimensions (w h : R) (c : Canvas) : Canvas :=
  mkCanvas (objects c) (backgroundColor c) (activeObjects c) (selection c)
           (defaultCursor c) (hoverCursor c) (zoom c) (vpt4 c) (vpt5 c) w h.

Definition toJSON (c : Canvas) : Snapshot :=
  (backgroundColor c, map toObject (objects c)).

Definition has_oid (id : nat) (l : list FabricObject) : bool :=
  existsb (fun o => oid o =? id)%nat l.

(** [objects.splice(objects.indexOf(obj), 1)]. *)
Fixpoint remove_oid (id : nat) (l : list FabricObject) : list FabricObject :=
  match l with
  | [] => []
  | o :: r => if (oid o =? id)%nat then r else o :: remove_oid id r
  end.

Definition find_oid (id : nat) (l : list FabricObject) : option FabricObject :=
  find (fun o => oid o =? id)%nat l.

(** [obj.set(...)] through a reference: the object is updated where it
    lives; a reference to an object that is no longer on the canvas
    changes nothing the canvas shows. *)
Definition object_set (id : nat) (f : FabricObject -> FabricObject)
    (c : Canvas) : Canvas :=
  set_objects (map (fun o => if (oid o =? id)%nat then f o else o) (objects c)) c.

Definition forEachObject (f : FabricObject -> FabricObject) (c : Canvas) : Canvas :=
  set_objects (map f (objects c)) c.

Definition set_selectable (b : bool) (o : FabricObject) : FabricObject :=
  mkObject (oid o) (otype o) (pathData o) (text o) (fill o) (opacity o)
           (oleft o) (otop o) (oscale o) b (evented o) (isEditing o).

Definition set_position (l t : R) (o : FabricObject) : FabricObject :=
  mkObject (oid o) (otype o) (pathData o) (text o) (fill o) (opacity o)
           l t (oscale o) (selectable o) (evented o) (isEditing o).

Definition set_editing (b : bool) (o : FabricObject) : FabricObject :=
  mkObject (oid o) (otype o) (pathData o) (text o) (fill o) (opacity o)
           (oleft o) (otop o) (oscale o) (selectable o) (evented o) b.

Definition set_text (t : string) (o : FabricObject) : FabricObject :=
  mkObject (oid o) (otype o) (pathData o) t (fill o) (opacity o)
           (oleft o) (otop o) (oscale o) (selectable o) (evented o) (isEditing o).

(** The property bag of lines 269-279; the corner and border styles are
    not part of the model. *)
Definition finalize_arrow (o : FabricObject) : FabricObject :=
  mkObject (oid o) (otype o) (pathData o) (text o) (fill o) 1
           (oleft o) (otop o) (oscale o) true true (isEditing o).

(** [canvas.sendToBack(obj)]. *)
Definition sendToBack (id : nat) (c : Canvas) : Canvas :=
  match find_oid id (objects c) with
  | Some o => set_objects (o :: remove_oid id (objects c)) c
  | None => c
  end.

(** [canvas.zoomToPoint(point, value)]: the scene point under [point]
    stays under it. *)
Definition zoomToPoint (point : Point) (value : R) (c : Canvas) : Canvas :=
  let sx := (fst point - vpt4 c) / zoom c in
  let sy := (snd point - vpt5 c) / zoom c in
  let ax := sx * value + vpt4 c in
  let ay := sy * value + vpt5 c in
  setViewportTransform value (vpt4 c + (fst point - ax))
                       (vpt5 c + (snd point - ay)) c.

(** The object the delete shortcut asks about: a single active object, or
    the selection group, which is never in text-editing state. *)
Definition activeObject_isEditing (c : Canvas) : bool :=
  match activeObjects c with
  | [id] => match find_oid id (objects c) with
            | Some o => isEditing o
            | None => false
            end
  | _ => false
  end.

(** ** The component [App]: refs, React state and callbacks

    The component is described after its mount effect has run, so
    [fabricCanvasRef.current] is set (line 165) and the guards
    [!fabricCanvasRef.current] of the callbacks are passed.

    A React state and the ref that mirrors it through a sync effect
    ([tool]/[toolRef], [pieceColor]/[colorRef],
    [arrowThickness]/[thicknessRef]) are one field: the effect runs
    before the next event is handled. *)

Inductive Tool : Type := select | arrow.

Definition is_arrow (t : Tool) : bool :=
  match t with arrow => true | select => false end.

Record App : Type := mkApp {
  canvas : Canvas;                  (* fabricCanvasRef.current *)
  historyRef : list Snapshot;       (* historyRef.current, oldest first *)
  history : list Snapshot;          (* React state shown by the Undo button *)
  isProcessing : bool;              (* React state *)
  tool : Tool;
  pieceName : string;
  colorRef : string;
  thicknessRef : R;
  isDrawingRef : bool;
  arrowStartRef : option Point;
  tempArrowRef : option nat;        (* reference to the preview object *)
  isPanning : bool;
  lastPosX : R;
  lastPosY : R;
  pendingLoads : list Snapshot;     (* loadFromJSON calls not yet completed *)
  nextOid : nat                     (* identity of the next object created *)
}.

Definition set_canvas (c : Canvas) (s : App) : App :=
  mkApp c (historyRef s) (history s) (isProcessing s) (tool s) (pieceName s)
        (colorRef s) (thicknessRef s) (isDrawingRef s) (arrowStartRef s)
        (tempArrowRef s) (isPanning s) (lastPosX s) (lastPosY s)
        (pendingLoads s) (nextOid s).
Definition set_historyRef (h : list Snapshot) (s : App) : App :=
  mkApp (canvas s) h (history s) (isProcessing s) (tool s) (pieceName s)
        (colorRef s) (thicknessRef s) (isDrawingRef s) (arrowStartRef s)
        (tempArrowRef s) (isPanning s) (lastPosX s) (lastPosY s)
        (pendingLoads s) (nextOid s).
Definition setHistory (h : list Snapshot) (s : App) : App :=
  mkApp (canvas s) (historyRef s) h (isProcessing s) (tool s) (pieceName s)
        (colorRef s) (thicknessRef s) (isDrawingRef s) (arrowStartRef s)
        (tempArrowRef s) (isPanning s) (lastPosX s) (lastPosY s)
        (pendingLoads s) (nextOid s).
Definition setIsProcessing (b : bool) (s : App) : App :=
  mkApp (canvas s) (historyRef s) (history s) b (tool s) (pieceName s)
        (colorRef s) (thicknessRef s) (isDrawingRef s) (arrowStartRef s)
        (tempArrowRef s) (isPanning s) (lastPosX s) (lastPosY s)
        (pendingLoads s) (nextOid s).
Definition set_tool (t : Tool) (s : App) : App :=
  mkApp (canvas s) (historyRef s) (history s) (isProcessing s) t (pieceName s)
        (colorRef s) (thicknessRef s) (isDrawingRef s) (arrowStartRef s)
        (tempArrowRef s) (isPanning s) (lastPosX s) (lastPosY s)
        (pendingLoads s) (nextOid s).
Definition setPieceName (n : string) (s : App) : App :=
  mkApp (canvas s) (historyRef s) (history s) (isProcessing s) (tool s) n
        (colorRef s) (thicknessRef s) (isDrawingRef s) (arrowStartRef s)
        (tempArrowRef s) (isPanning s) (lastPosX s) (lastPosY s)
        (pendingLoads s) (nextOid s).
Definition setPieceColor (c : string) (s : App) : App :=
  mkApp (canvas s) (historyRef s) (history s) (isProcessing s) (tool s)
        (pieceName s) c (thicknessRef s) (isDrawingRef s) (arrowStartRef s)
        (tempArrowRef s) (isPanning s) (lastPosX s) (lastPosY s)
        (pendingLoads s) (nextOid s).
Definition setArrowThickness (t : R) (s : App) : App :=
  mkApp (canvas s) (historyRef s) (history s) (isProcessing s) (tool s)
        (pieceName s) (colorRef s) t (isDrawingRef s) (arrowStartRef s)
        (tempArrowRef s) (isPanning s) (lastPosX s) (lastPosY s)
        (pendingLoads s) (nextOid s).
Definition set_isDrawingRef (b : bool) (s : App) : App :=
  mkApp (canvas s) (historyRef s) (history s) (isProcessing s) (tool s)
        (pieceName s) (colorRef s) (thicknessRef s) b (arrowStartRef s)
        (tempArrowRef s) (isPanning s) (lastPosX s) (lastPosY s)
        (pendingLoads s) (nextOid s).
Definition set_arrowStartRef (p : option Point) (s : App) : App :=
  mkApp (canvas s) (historyRef s) (history s) (isProcessing s) (tool s)
        (pieceName s) (colorRef s) (thicknessRef s) (isDrawingRef s) p
        (tempArrowRef s) (isPanning s) (lastPosX s) (lastPosY s)
        (pendingLoads s) (nextOid s).
Definition set_tempArrowRef (r : option nat) (s : App) : App :=
  mkApp (canvas s) (historyRef s) (history s) (isProcessing s) (tool s)
        (pieceName s) (colorRef s) (thicknessRef s) (isDrawingRef s)
        (arrowStartRef s) r (isPanning s) (lastPosX s) (lastPosY s)
        (pendingLoads s) (nextOid s).
Definition set_panning (b : bool) (x y : R) (s : App) : App :=
  mkApp (canvas s) (historyRef s) (history s) (isProcessing s) (tool s)
        (pieceName s) (colorRef s) (thicknessRef s) (isDrawingRef s)
        (arrowStartRef s) (tempArrowRef s) b x y
        (pendingLoads s) (nextOid s).
Definition set_pendingLoads (l : list Snapshot) (s : App) : App :=
  mkApp (canvas s) (historyRef s) (history s) (isProcessing s) (tool s)
        (pieceName s) (colorRef s) (thicknessRef s) (isDrawingRef s)
        (arrowStartRef s) (tempArrowRef s) (isPanning s) (lastPosX s)
        (lastPosY s) l (nextOid s).
Definition set_nextOid (n : nat) (s : App) : App :=
  mkApp (canvas s) (historyRef s) (history s) (isProcessing s) (tool s)
        (pieceName s) (colorRef s) (thicknessRef s) (isDrawingRef s)
        (arrowStartRef s) (tempArrowRef s) (isPanning s) (lastPosX s)
        (lastPosY s) (pendingLoads s) n.

(** Apply a canvas method that fires no subscribed event. *)
Definition on_canvas (f : Canvas -> Canvas) (s : App) : App :=
  set_canvas (f (canvas s)) s.

(** *** History (lines 110-132) *)

Definition empty_snapshot : Snapshot := (EmptyString, []).

(** [saveHistory] is memoised on [isProcessing]: a call sees the value of
    that state in the render that created the callback, which is the
    first argument here. *)
Definition saveHistory (isProcessing0 : bool) (s : App) : App :=
  if isProcessing0 then s
  else
    let json := toJSON (canvas s) in
    if (0 <? List.length (historyRef s))%nat
       && snapshot_eqb (last (historyRef s) empty_snapshot) json
    then s
    else
      let h := historyRef s ++ [json] in                          (* push *)
      let h := if (50 <? List.length h)%nat then tl h else h in   (* shift *)
      setHistory h (set_historyRef h s).

(** The handlers of the mount effect (lines 155-333) are created once: the
    effect depends on [handleUndo] only, which is memoised on nothing.
    They call the [saveHistory] of the first render, in which
    [isProcessing] is its initial value [false]. *)
Definition saveHistory_mount (s : App) : App := saveHistory false s.

(** Callbacks created at every render ([addPiece], [addText],
    [handleClearBoard]) call the [saveHistory] of the current render. *)
Definition saveHistory_render (s : App) : App := saveHistory (isProcessing s) s.

(** The three subscriptions of lines 178-180. *)
Definition on_object_added (s : App) : App :=
  if negb (isDrawingRef s) then saveHistory_mount s else s.
Definition on_object_modified (s : App) : App := saveHistory_mount s.
Definition on_object_removed (s : App) : App := saveHistory_mount s.

(** [canvas.add(obj)] and [canvas.remove(obj)] with the events they fire.
    [remove] does nothing, and fires nothing, for an object that is not on
    the canvas; removing the single active object discards the selection. *)
Definition canvas_add (o : FabricObject) (s : App) : App :=
  on_object_added (on_canvas (fun c => set_objects (objects c ++ [o]) c) s).

Definition canvas_remove (id : nat) (s : App) : App :=
  if has_oid id (objects (canvas s)) then
    on_object_removed
      (on_canvas (fun c =>
         set_activeObjects
           (match activeObjects c with
            | [a] => if (a =? id)%nat then [] else [a]
            | l => l
            end)
           (set_objects (remove_oid id (objects c)) c)) s)
  else s.

Definition canvas_remove_all (ids : list nat) (s : App) : App :=
  fold_left (fun s id => canvas_remove id s) ids s.

(** [canvas.clear()]: the active selection is discarded, every object is
    removed through [remove], then the background is reset. *)
Definition canvas_clear (s : App) : App :=
  on_canvas (set_backgroundColor EmptyString)
    (canvas_remove_all (map oid (objects (canvas s)))
       (on_canvas (set_activeObjects []) s)).

(** Completion of [canvas.loadFromJSON(snapshot, callback)]: the canvas
    is cleared, the background restored and the revived objects inserted
    one by one through the canvas, each firing [object:added]. *)
Fixpoint insert_revived (js : list ObjJSON) (s : App) : App :=
  match js with
  | [] => s
  | j :: r =>
      insert_revived r
        (canvas_add (fromObject (nextOid s) j) (set_nextOid (S (nextOid s)) s))
  end.

Definition materialize (snap : Snapshot) (s : App) : App :=
  insert_revived (snd snap)
    (on_canvas (set_backgroundColor (fst snap)) (canvas_clear s)).

(** The callback given to [loadFromJSON] at lines 127-131. *)
Definition undo_callback (s : App) : App :=
  setIsProcessing false (setHistory (historyRef s) s).

(** [handleUndo] up to and including the call of [loadFromJSON], which
    registers the snapshot to materialise. *)
Definition handleUndo (s : App) : App :=
  if (List.length (historyRef s) <=? 1)%nat then s
  else
    let s := setIsProcessing true s in
    let s := set_historyRef (removelast (historyRef s)) s in       (* pop *)
    let prevState := last (historyRef s) empty_snapshot in
    set_pendingLoads (pendingLoads s ++ [prevState]) s.

(** The oldest pending load completes and its callback runs. *)
Definition load_complete (s : App) : App :=
  match pendingLoads s with
  | [] => s
  | snap :: rest => undo_callback (materialize snap (set_pendingLoads rest s))
  end.

(** An undo whose load completes at once. *)
Definition undo (s : App) : App := load_complete (handleUndo s).

(** *** Tool switching (lines 135-151) *)

(** The effect of [useEffect(..., [tool])]. *)
Definition tool_effect (s : App) : App :=
  if is_arrow (tool s) then
    on_canvas (fun c =>
      forEachObject (set_selectable false)
        (set_selection false (set_cursors "crosshair" "crosshair" c))) s
  else
    on_canvas (fun c =>
      forEachObject (set_selectable true)
        (set_selection true (set_cursors "default" "move" c))) s.

(** [setTool(t)]: the effect runs when the value changes. *)
Definition setTool (t : Tool) (s : App) : App :=
  if Bool.eqb (is_arrow (tool s)) (is_arrow t) then s
  else tool_effect (set_tool t s).

(** *** Pointer handlers (lines 187-299)

    An event carries the fields the handlers read; [pointer] is the
    scene-space position [canvas.getPointer(evt)] returns. *)

Definition mouse_down (altKey : bool) (button : nat) (clientX clientY : R)
    (pointer : Point) (s : App) : App :=
  if altKey || (button =? 1)%nat then
    on_canvas (fun c => set_cursors "grab" (hoverCursor c) (set_selection false c))
      (set_panning true clientX clientY s)
  else if is_arrow (tool s) then
    on_canvas (set_selection false)
      (set_arrowStartRef (Some pointer) (set_isDrawingRef true s))
  else s.

(** [new fabric.Path(pathString, {...})] of lines 239-248. *)
Definition new_preview (id : nat) (pathString : PathString) (color : string)
    : FabricObject :=
  mkObject id path pathString EmptyString color 0.8 0 0 1 false false false.

Definition mouse_move (clientX clientY : R) (pointer : Point) (s : App) : App :=
  if isPanning s then
    set_panning true clientX clientY
      (on_canvas (fun c =>
         setViewportTransform (zoom c) (vpt4 c + (clientX - lastPosX s))
                              (vpt5 c + (clientY - lastPosY s)) c) s)
  else
    match arrowStartRef s with
    | Some start =>
        if is_arrow (tool s) && isDrawingRef s then
          let pathString :=
            generateArrowPath (fst start) (snd start) (fst pointer) (snd pointer)
                              (thicknessRef s) in
          let s := match tempArrowRef s with
                   | Some old => canvas_remove old s
                   | None => s
                   end in
          if truthy pathString then
            let id := nextOid s in
            let s := set_tempArrowRef (Some id) (set_nextOid (S id) s) in
            canvas_add (new_preview id pathString (colorRef s)) s
          else s
        else s
    | None => s
    end.

Definition mouse_up (s : App) : App :=
  if isPanning s then
    on_canvas (fun c =>
      set_cursors (if is_arrow (tool s) then "crosshair" else "default")
                  (hoverCursor c) c)
      (set_panning false (lastPosX s) (lastPosY s) s)
  else if is_arrow (tool s) && isDrawingRef s then
    let s := set_isDrawingRef false s in
    match tempArrowRef s with
    | Some id =>
        let s := on_canvas (object_set id finalize_arrow) s in
        let s := saveHistory_mount s in
        set_arrowStartRef None (set_tempArrowRef None s)
    | None => s
    end
  else s.

Definition mouse_wheel (deltaY offsetX offsetY : R) (s : App) : App :=
  on_canvas (fun c =>
    zoomToPoint (offsetX, offsetY) (wheel_zoom (zoom c) deltaY) c) s.

(** *** Helpers (lines 337-478) *)

(** [handleDeleteSelected]. *)
Definition handleDeleteSelected (s : App) : App :=
  let active := activeObjects (canvas s) in
  match active with
  | [] => s
  | _ :: _ =>
      canvas_remove_all active (on_canvas (set_activeObjects []) s)
  end.

Inductive Key : Type := Delete | Backspace | KeyZ | Escape | OtherKey.

Definition is_delete (k : Key) : bool :=
  match k with Delete | Backspace => true | _ => false end.
Definition is_z (k : Key) : bool :=
  match k with KeyZ => true | _ => false end.
Definition is_escape (k : Key) : bool :=
  match k with Escape => true | _ => false end.

(** [handleKeyDown] (lines 302-324): three tests in sequence. *)
Definition handleKeyDown (key : Key) (ctrlKey metaKey : bool) (s : App) : App :=
  let s :=
    if is_delete key then
      match activeObjects (canvas s) with
      | [] => s
      | _ :: _ =>
          if negb (activeObject_isEditing (canvas s))
          then handleDeleteSelected s else s
      end
    else s in
  let s := if (ctrlKey || metaKey) && is_z key then handleUndo s else s in
  if is_escape key then
    if isDrawingRef s then
      let s := match tempArrowRef s with
               | Some id => canvas_remove id s
               | None => s
               end in
      set_tempArrowRef None (set_isDrawingRef false s)
    else setTool select s
  else s.

Definition upper (c : ascii) : ascii :=
  let n := nat_of_ascii c in
  if ((97 <=? n) && (n <=? 122))%nat then ascii_of_nat (n - 32) else c.

Fixpoint toUpperCase (t : string) : string :=
  match t with
  | EmptyString => EmptyString
  | String c r => String (upper c) (toUpperCase r)
  end.

Definition viewport_center (c : Canvas) : Point :=
  ((- vpt4 c + width c / 2) / zoom c, (- vpt5 c + height c / 2) / zoom c).

(** [addPiece]: the marker is a group of a disc and a two-letter label. *)
Definition addPiece (s : App) : App :=
  let was_arrow := is_arrow (tool s) in
  let render_isProcessing := isProcessing s in
  let center := viewport_center (canvas s) in
  let id := nextOid s in
  let g := mkObject id group [] (toUpperCase (substring 0 2 (pieceName s)))
                    (colorRef s) 1 (fst center) (snd center) 1
                    true true false in
  let s := canvas_add g (set_nextOid (S id) s) in
  let s := on_canvas (set_activeObjects [id]) s in
  let s := saveHistory render_isProcessing s in
  if was_arrow then setTool select s else s.

Definition addText (s : App) : App :=
  let was_arrow := is_arrow (tool s) in
  let render_isProcessing := isProcessing s in
  let center := viewport_center (canvas s) in
  let id := nextOid s in
  let t := mkObject id i_text [] "NOTES" "#1f2937" 1
                    (fst center) (snd center) 1 true true false in
  let s := canvas_add t (set_nextOid (S id) s) in
  let s := on_canvas (set_activeObjects [id]) s in
  let s := saveHistory render_isProcessing s in
  if was_arrow then setTool select s else s.

Definition handleClearBoard (confirmed : bool) (s : App) : App :=
  if confirmed then
    let render_isProcessing := isProcessing s in
    let s := canvas_clear s in
    let s := on_canvas (set_backgroundColor "#e5e7eb") s in
    saveHistory render_isProcessing s
  else s.

Definition is_image (o : FabricObject) : bool :=
  match otype o with image => true | _ => false end.

(** The callback of [fabric.Image.fromURL] in [handleImageUpload]
    (lines 343-363), for a decoded image of the given size.
    [render_isProcessing] is the value seen by the [saveHistory] of the
    render in which the file was chosen. *)
Definition image_loaded (render_isProcessing : bool) (data : string)
    (imgWidth imgHeight : R) (s : App) : App :=
  let s := on_canvas (setViewportTransform 1 0 0) s in
  let c := canvas s in
  let scale := Rmin (width c / imgWidth) (height c / imgHeight) in
  let id := nextOid s in
  let img := mkObject id image [] data EmptyString 0.9
                      (width c / 2) (height c / 2) (Rmin scale 1)
                      false false false in
  let s := set_nextOid (S id) s in
  let s := canvas_remove_all
             (map oid (filter is_image (objects (canvas s)))) s in
  let s := canvas_add img s in
  let s := on_canvas (sendToBack id) s in
  saveHistory render_isProcessing s.

Definition handleExport (s : App) : App :=
  on_canvas (set_activeObjects []) s.

(** *** Direct manipulation, performed by the canvas library itself

    Selecting, dragging and text editing are done by fabric; the engine
    sees them through the active selection and [object:modified]. *)

Definition user_select (ids : list nat) (s : App) : App :=
  on_canvas (fun c =>
    set_activeObjects
      (filter (fun id => match find_oid id (objects c) with
                         | Some o => selectable o
                         | None => false
                         end) ids) c) s.

Definition user_transform (id : nat) (l t : R) (s : App) : App :=
  if has_oid id (objects (canvas s)) then
    on_object_modified (on_canvas (object_set id (set_position l t)) s)
  else s.

Definition user_enter_editing (id : nat) (s : App) : App :=
  on_canvas (fun c =>
    set_activeObjects [id]
      (object_set id (fun o => match otype o with
                               | i_text => set_editing true o
                               | _ => o
                               end) c)) s.

Definition user_exit_editing (id : nat) (t : string) (s : App) : App :=
  if has_oid id (objects (canvas s)) then
    on_object_modified
      (on_canvas (object_set id (fun o => set_editing false (set_text t o))) s)
  else s.

(** ** The engine as a transition system *)

Inductive Event : Type :=
| MouseDown (altKey : bool) (button : nat) (clientX clientY : R) (pointer : Point)
| MouseMove (clientX clientY : R) (pointer : Point)
| MouseUp
| MouseWheel (deltaY offsetX offsetY : R)
| KeyDown (key : Key) (ctrlKey metaKey : bool)
| Resize (clientWidth clientHeight : R)
| ClickTool (t : Tool)
| ChangeThickness (t : R)
| ChangeColor (c : string)
| ChangeName (n : string)
| ClickAddPiece
| ClickAddText
| ClickClear (confirmed : bool)
| ClickUndo
| ClickDelete
| ClickExport
| ImageLoaded (render_isProcessing : bool) (data : string) (imgWidth imgHeight : R)
| LoadComplete
| UserSelect (ids : list nat)
| UserTransform (id : nat) (l t : R)
| UserEnterEditing (id : nat)
| UserExitEditing (id : nat) (t : string).

Definition step (e : Event) (s : App) : App :=
  match e with
  | MouseDown a b x y p => mouse_down a b x y p s
  | MouseMove x y p => mouse_move x y p s
  | MouseUp => mouse_up s
  | MouseWheel d x y => mouse_wheel d x y s
  | KeyDown k c m => handleKeyDown k c m s
  | Resize w h => on_canvas (setDimensions w h) s
  | ClickTool t => setTool t s
  | ChangeThickness t => setArrowThickness t s
  | ChangeColor c => setPieceColor c s
  | ChangeName n => setPieceName n s
  | ClickAddPiece => addPiece s
  | ClickAddText => addText s
  | ClickClear b => handleClearBoard b s
  | ClickUndo => handleUndo s
  | ClickDelete => handleDeleteSelected s
  | ClickExport => handleExport s
  | ImageLoaded b d w h => image_loaded b d w h s
  | LoadComplete => load_complete s
  | UserSelect ids => user_select ids s
  | UserTransform id l t => user_transform id l t s
  | UserEnterEditing id => user_enter_editing id s
  | UserExitEditing id t => user_exit_editing id t s
  end.

Definition run (es : list Event) (s : App) : App :=
  fold_left (fun s e => step e s) es s.

(** The state after the mount effect: a canvas of the container's size
    with the base background, and the first [saveHistory()] of line 176. *)
Definition new_canvas (clientWidth clientHeight : R) : Canvas :=
  mkCanvas [] "#e5e7eb" [] true "default" "move" 1 0 0 clientWidth clientHeight.

Definition mount (clientWidth clientHeight : R) : App :=
  saveHistory_mount
    (mkApp (new_canvas clientWidth clientHeight) [] [] false select
           "Infantry" "#ef4444" 6 false None None false 0 0 [] 0).

Inductive reachable : App -> Prop :=
| reachable_mount : forall w h, reachable (mount w h)
| reachable_step : forall s e, reachable s -> reachable (step e s).

(** ** Vocabulary of the statements *)

(** *** History *)

(** What a call of [saveHistory] that is not suppressed does to the stack. *)
Definition commit (h : list Snapshot) (json : Snapshot) : list Snapshot :=
  if (0 <? List.length h)%nat && snapshot_eqb (last h empty_snapshot) json
  then h
  else
    let h' := h ++ [json] in
    if (50 <? List.length h')%nat then tl h' else h'.

Fixpoint no_adjacent_dup (h : list Snapshot) : Prop :=
  match h with
  | a :: (b :: _) as r => a <> b /\ no_adjacent_dup r
  | _ => True
  end.

(** [f] keeps the property [P] of the history stack. *)
Definition keeps (P : list Snapshot -> Prop) (f : App -> App) : Prop :=
  forall s, P (historyRef s) -> P (historyRef (f s)).

(** The interaction flags of an object, with its type and content. *)
Definition flags (o : FabricObject) : ObjType * string * bool * bool :=
  (otype o, text o, selectable o, evented o).

(** *** Deleting the selection *)

(** The object lists after each removal, in order. *)
Fixpoint removal_scenes (objs : list FabricObject) (ids : list nat)
    : list (list FabricObject) :=
  match ids with
  | [] => []
  | id :: r => remove_oid id objs :: removal_scenes (remove_oid id objs) r
  end.

Definition remove_oids (ids : list nat) (objs : list FabricObject)
    : list FabricObject :=
  fold_left (fun l id => remove_oid id l) ids objs.

Definition scene_snapshot (bg : string) (objs : list FabricObject) : Snapshot :=
  (bg, map toObject objs).

(** The last [n] elements of a list. *)
Definition lastn {A : Type} (n : nat) (l : list A) : list A :=
  skipn (List.length l - n) l.

Fixpoint chain_distinct (a : Snapshot) (l : list Snapshot) : Prop :=
  match l with
  | [] => True
  | b :: r => a <> b /\ chain_distinct b r
  end.

(** *** The outline of an arrow *)




Definition unit_vector (u : Point) : Prop :=
  fst u * fst u + snd u * snd u = 1.

(** *** The arrow-drawing gesture *)

(** A pointer-move: client position and scene-space pointer. *)
Definition Move : Type := (R * R * Point)%type.

Definition move_event (m : Move) : Event :=
  MouseMove (fst (fst m)) (snd (fst m)) (snd m).

(** Object identities are allocated in increasing order. *)
Definition fresh (s : App) : Prop :=
  forall o, In o (objects (canvas s)) -> (oid o < nextOid s)%nat.

(** A preview object is on the canvas. *)
Definition preview_on_canvas (s : App) : bool :=
  match tempArrowRef s with
  | Some id => has_oid id (objects (canvas s))
  | None => false
  end.

(** The identities of the objects on the canvas are distinct and were
    allocated before [nextOid]. *)
Definition oids (s : App) : list nat := map oid (objects (canvas s)).

Definition wf (s : App) : Prop :=
  (forall id, In id (oids s) -> (id < nextOid s)%nat) /\ NoDup (oids s).

(** A canvas method that keeps the identities of the objects. *)
Definition keeps_oids (f : Canvas -> Canvas) : Prop :=
  forall c, map oid (objects (f c)) = map oid (objects c).

(** The state in which a gesture starts: a reachable state in arrow mode,
    with no gesture in progress, in which the top of the history records
    the current scene. *)
Definition gesture_start (s : App) : Prop :=
  reachable s /\
  tool s = arrow /\ isPanning s = false /\ isDrawingRef s = false /\
  tempArrowRef s = None /\
  last (historyRef s) empty_snapshot = toJSON (canvas s).

(** The events of a drag other than its end: pointer-moves and changes of
    the style controls. *)
Definition control_change (e : Event) : Prop :=
  match e with
  | ChangeThickness _ | ChangeColor _ => True
  | _ => False
  end.

Definition drag_event (e : Event) : Prop :=
  match e with
  | MouseMove _ _ _ | ChangeThickness _ | ChangeColor _ => True
  | _ => False
  end.

(** [t] is a state of the gesture started in [s] at the point [p0]. *)
Definition drawing (s t : App) (p0 : Point) : Prop :=
  tool t = arrow /\ isPanning t = false /\ isDrawingRef t = true /\
  arrowStartRef t = Some p0 /\
  historyRef t = historyRef s /\
  backgroundColor (canvas t) = backgroundColor (canvas s) /\
  (nextOid s <= nextOid t)%nat.

(** No preview on the canvas: [tempArrowRef] is null or refers to a preview
    that was removed. *)
Definition stale_or_none (s t : App) : Prop :=
  objects (canvas t) = objects (canvas s) /\
  match tempArrowRef t with
  | None => True
  | Some id => (nextOid s <= id < nextOid t)%nat
  end.

(** The preview [o] is the last object of the canvas. *)
Definition has_preview (s t : App) (o : FabricObject) : Prop :=
  tempArrowRef t = Some (oid o) /\ (nextOid s <= oid o < nextOid t)%nat /\
  objects (canvas t) = objects (canvas s) ++ [o].

Definition preview_kind (s t : App) : Prop :=
  stale_or_none s t \/ exists o, has_preview s t o.

Definition drag_path (p0 : Point) (m : Move) (thickness : R) : PathString :=
  generateArrowPath (fst p0) (snd p0) (fst (snd m)) (snd (snd m)) thickness.

(** ** Vocabulary of the further properties *)

(** *** Geometry of the outline *)

Definition translate (a b : R) (p : Point) : Point := (fst p + a, snd p + b).

Definition translate_cmd (a b : R) (c : PathCmd) : PathCmd :=
  match c with
  | MoveTo p => MoveTo (translate a b p)
  | LineTo p => LineTo (translate a b p)
  | ClosePath => ClosePath
  end.

Definition midpoint (p q : Point) : Point :=
  ((fst p + fst q) / 2, (snd p + snd q) / 2).

(** *** The viewport *)

(** The part of the viewport transform the engine changes. *)
Definition viewport (c : Canvas) : R * R * R := (zoom c, vpt4 c, vpt5 c).

(** The viewport transform [zoom, 0, 0, zoom, vpt4, vpt5] applied to a
    scene point: where the point is drawn on the canvas element. *)
Definition to_screen (c : Canvas) (p : Point) : Point :=
  (fst p * zoom c + vpt4 c, snd p * zoom c + vpt5 c).

(** The client position of the last pointer-move, or of pointer-down when
    the pointer did not move. *)
Definition last_client (x0 y0 : R) (moves : list Move) : R * R :=
  last (map fst moves) (x0, y0).

(** [t] is a state of the pan started in [s] at the client position
    [(x0, y0)]: the viewport has followed the pointer. *)
Definition panning (s t : App) (x0 y0 : R) : Prop :=
  isPanning t = true /\
  vpt4 (canvas t) - lastPosX t = vpt4 (canvas s) - x0 /\
  vpt5 (canvas t) - lastPosY t = vpt5 (canvas s) - y0 /\
  zoom (canvas t) = zoom (canvas s) /\
  objects (canvas t) = objects (canvas s) /\
  selection (canvas t) = false /\
  historyRef t = historyRef s /\
  tool t = tool s /\
  isDrawingRef t = isDrawingRef s /\
  arrowStartRef t = arrowStartRef s /\
  tempArrowRef t = tempArrowRef s.

(** *** Invariants of the reachable states *)

(** The Undo button: [disabled={history.length <= 1}] (line 610). *)
Definition undo_disabled (s : App) : bool := (List.length (history s) <=? 1)%nat.

(** [s'] is [s] up to the scene and the refs of the gestures: same zoom,
    same undo in progress, and a history that is the one of [s] or was
    committed since. *)
Definition quiet (s s' : App) : Prop :=
  zoom (canvas s') = zoom (canvas s) /\
  isProcessing s' = isProcessing s /\
  pendingLoads s' = pendingLoads s /\
  ((history s' = history s /\ historyRef s' = historyRef s) \/
   history s' = historyRef s').

Definition keeps_zoom (f : Canvas -> Canvas) : Prop :=
  forall c, zoom (f c) = zoom c.

Definition control_inv (s : App) : Prop :=
  0.1 <= zoom (canvas s) <= 20 /\
  (isProcessing s = true -> pendingLoads s <> []) /\
  (pendingLoads s = [] -> history s = historyRef s).

Definition is_image_json (j : ObjJSON) : bool :=
  match j_type j with image => true | _ => false end.

Definition count_images (js : list ObjJSON) : nat :=
  List.length (filter is_image_json js).

(** A snapshot with the base background and at most one image. *)
Definition good_snapshot (snap : Snapshot) : Prop :=
  fst snap = "#e5e7eb"%string /\ (count_images (snd snap) <= 1)%nat.

Definition history_inv (s : App) : Prop :=
  Forall good_snapshot (historyRef s) /\ Forall good_snapshot (pendingLoads s).

Definition scene_inv (s : App) : Prop :=
  good_snapshot (toJSON (canvas s)) /\ history_inv s.

Definition not_image (o : FabricObject) : bool := negb (is_image o).

(** *** The history and the scene *)

(** The top of the history records the current scene. *)
Definition synced (s : App) : Prop :=
  last (historyRef s) empty_snapshot = toJSON (canvas s).

(** An event that asks for an undo. *)
Definition undo_request (e : Event) : bool :=
  match e with
  | ClickUndo => true
  | KeyDown k c m => (c || m) && is_z k
  | _ => false
  end.

(** The completion of an upload started in a render in which
    [isProcessing] was set. *)
Definition stale_upload (e : Event) : bool :=
  match e with
  | ImageLoaded b _ _ _ => b
  | _ => false
  end.

(** A step that leaves the drawing flag and the top of the history as
    they are, or ends on a commit. *)
Definition settles (s s' : App) : Prop :=
  isDrawingRef s' = isDrawingRef s /\ (synced s -> synced s').

(** *** The objects the handlers create *)


Definition note_json (s : App) : ObjJSON :=
  mkJSON i_text [] "NOTES" "#1f2937" 1
         (fst (viewport_center (canvas s))) (snd (viewport_center (canvas s))) 1.


(** The image object built by the callback of [handleImageUpload]. *)
Definition uploaded_image (s : App) (data : string) (imgWidth imgHeight : R)
    : FabricObject :=
  mkObject (nextOid s) image [] data EmptyString 0.9
           (width (canvas s) / 2) (height (canvas s) / 2)
           (Rmin (Rmin (width (canvas s) / imgWidth)
                       (height (canvas s) / imgHeight)) 1)
           false false false.


Arguments saveHistory : simpl never.
Arguments generateArrowPath : simpl never.

(** * Properties *)

(** ** The history stack as a list *)

Lemma snapshot_eqb_true (a b : Snapshot) : snapshot_eqb a b = true <-> a = b.
Proof. unfold snapshot_eqb; destruct (Snapshot_eq_dec a b); split; congruence. Qed.

Lemma snapshot_eqb_false (a b : Snapshot) : snapshot_eqb a b = false <-> a <> b.
Proof. unfold snapshot_eqb; destruct (Snapshot_eq_dec a b); split; congruence. Qed.

Lemma snapshot_eqb_refl (a : Snapshot) : snapshot_eqb a a = true.
Proof. now apply snapshot_eqb_true. Qed.

Lemma saveHistory_historyRef (b : bool) (s : App) :
  historyRef (saveHistory b s) =
  if b then historyRef s else commit (historyRef s) (toJSON (canvas s)).
Proof.
  unfold saveHistory, commit. destruct b; [reflexivity|].
  destruct ((0 <? _)%nat && _); reflexivity.
Qed.

Lemma saveHistory_canvas (b : bool) (s : App) :
  canvas (saveHistory b s) = canvas s.
Proof.
  unfold saveHistory. destruct b; [reflexivity|].
  destruct ((0 <? _)%nat && _); reflexivity.
Qed.

Lemma commit_same (h : list Snapshot) (json : Snapshot) :
  h <> [] -> last h empty_snapshot = json -> commit h json = h.
Proof.
  intros Hne Hl. unfold commit.
  destruct h as [|a h]; [congruence|].
  rewrite Hl, snapshot_eqb_refl. reflexivity.
Qed.

Lemma commit_new (h : list Snapshot) (json : Snapshot) :
  (h = [] \/ last h empty_snapshot <> json) ->
  commit h json =
  if (50 <? List.length (h ++ [json]))%nat then tl (h ++ [json]) else h ++ [json].
Proof.
  intros H. unfold commit.
  destruct H as [-> | H]; [reflexivity|].
  apply snapshot_eqb_false in H. rewrite H, andb_false_r. reflexivity.
Qed.

Lemma commit_cases (h : list Snapshot) (json : Snapshot) :
  (h <> [] /\ last h empty_snapshot = json /\ commit h json = h) \/
  ((h = [] \/ last h empty_snapshot <> json) /\
   commit h json =
   if (50 <? List.length (h ++ [json]))%nat then tl (h ++ [json]) else h ++ [json]).
Proof.
  destruct h as [|a h].
  - right. split; [now left|]. now apply commit_new; left.
  - destruct (Snapshot_eq_dec (last (a :: h) empty_snapshot) json) as [E|N].
    + left. repeat split; [discriminate | exact E |].
      apply commit_same; [discriminate | exact E].
    + right. split; [now right|]. apply commit_new. now right.
Qed.

Lemma commit_length (h : list Snapshot) (json : Snapshot) :
  (List.length h <= 50)%nat ->
  (1 <= List.length (commit h json) <= 50)%nat.
Proof.
  intros Hl.
  destruct (commit_cases h json) as [(Hne & _ & ->) | (_ & ->)].
  - destruct h; [congruence|]. simpl in *. lia.
  - destruct (Nat.ltb_spec 50 (List.length (h ++ [json]))) as [Hc|Hc];
      rewrite length_app in Hc; simpl in Hc.
    + destruct h as [|a h]; simpl in *; [lia|].
      rewrite length_app. simpl. lia.
    + rewrite length_app. simpl. lia.
Qed.

Lemma removelast_length {A : Type} (l : list A) :
  List.length (removelast l) = (List.length l - 1)%nat.
Proof.
  induction l as [|a l IH]; [reflexivity|].
  destruct l as [|b l]; [reflexivity|].
  change (removelast (a :: b :: l)) with (a :: removelast (b :: l)).
  change (List.length (a :: removelast (b :: l)))
    with (S (List.length (removelast (b :: l)))).
  rewrite IH. simpl. lia.
Qed.

Lemma no_adjacent_dup_tl (h : list Snapshot) :
  no_adjacent_dup h -> no_adjacent_dup (tl h).
Proof. destruct h as [|a [|b h]]; simpl; tauto. Qed.

Lemma no_adjacent_dup_snoc (h : list Snapshot) (x : Snapshot) :
  no_adjacent_dup h -> (h = [] \/ last h empty_snapshot <> x) ->
  no_adjacent_dup (h ++ [x]).
Proof.
  induction h as [|a h IH]; intros Hn Hl; [exact I|].
  destruct h as [|b h].
  - simpl in *. split; [|exact I]. destruct Hl as [Hl|Hl]; congruence.
  - destruct Hn as [Hab Hn]. split; [exact Hab|].
    apply IH; [exact Hn|]. right. destruct Hl as [Hl|Hl]; [discriminate|exact Hl].
Qed.

Lemma no_adjacent_dup_removelast (h : list Snapshot) :
  no_adjacent_dup h -> no_adjacent_dup (removelast h).
Proof.
  induction h as [|a h IH]; intros Hn; [exact I|].
  destruct h as [|b h]; [exact I|].
  destruct Hn as [Hab Hn].
  change (removelast (a :: b :: h)) with (a :: removelast (b :: h)).
  specialize (IH Hn).
  destruct h as [|c h]; [exact I|].
  change (removelast (b :: c :: h)) with (b :: removelast (c :: h)) in *.
  split; assumption.
Qed.

Lemma commit_no_adjacent_dup (h : list Snapshot) (json : Snapshot) :
  no_adjacent_dup h -> no_adjacent_dup (commit h json).
Proof.
  intros Hn.
  destruct (commit_cases h json) as [(_ & _ & ->) | (Hl & ->)]; [exact Hn|].
  pose proof (no_adjacent_dup_snoc h json Hn Hl) as Hs.
  destruct (50 <? _)%nat; [now apply no_adjacent_dup_tl | exact Hs].
Qed.

(** *** A property of the stack kept by [commit] and by the guarded pop is
    kept by every event. *)
Section HistoryInvariant.

Variable P : list Snapshot -> Prop.
Hypothesis P_commit : forall h json, P h -> P (commit h json).
Hypothesis P_pop :
  forall h, P h -> (2 <= List.length h)%nat -> P (removelast h).

Lemma keeps_id : keeps P (fun s => s).
Proof. intros s H; exact H. Qed.

Lemma keeps_comp (f g : App -> App) :
  keeps P f -> keeps P g -> keeps P (fun s => g (f s)).
Proof. intros Hf Hg s H. apply Hg, Hf, H. Qed.

Lemma keeps_saveHistory (b : bool) : keeps P (saveHistory b).
Proof.
  intros s H. rewrite saveHistory_historyRef.
  destruct b; [exact H | apply P_commit, H].
Qed.

Lemma keeps_on_canvas (f : Canvas -> Canvas) : keeps P (on_canvas f).
Proof. intros s H; exact H. Qed.

Lemma keeps_canvas_add (o : FabricObject) : keeps P (canvas_add o).
Proof.
  intros s H. unfold canvas_add, on_object_added, saveHistory_mount.
  destruct (negb _); [apply keeps_saveHistory|]; exact H.
Qed.

Lemma keeps_canvas_remove (id : nat) : keeps P (canvas_remove id).
Proof.
  intros s H. unfold canvas_remove, on_object_removed, saveHistory_mount.
  destruct (has_oid _ _); [apply keeps_saveHistory|]; exact H.
Qed.

Lemma keeps_canvas_remove_all (ids : list nat) : keeps P (canvas_remove_all ids).
Proof.
  unfold canvas_remove_all.
  induction ids as [|id ids IH]; intros s H; simpl; [exact H|].
  apply IH, keeps_canvas_remove, H.
Qed.

Lemma keeps_canvas_clear : keeps P canvas_clear.
Proof. intros s H. unfold canvas_clear. apply keeps_canvas_remove_all, H. Qed.

Lemma keeps_insert_revived (js : list ObjJSON) : keeps P (insert_revived js).
Proof.
  induction js as [|j js IH]; intros s H; simpl; [exact H|].
  apply IH, keeps_canvas_add, H.
Qed.

Lemma keeps_materialize (snap : Snapshot) : keeps P (materialize snap).
Proof.
  intros s H. unfold materialize.
  apply keeps_insert_revived, keeps_canvas_clear, H.
Qed.

Lemma keeps_handleUndo : keeps P handleUndo.
Proof.
  intros s H. unfold handleUndo.
  destruct (Nat.leb_spec (List.length (historyRef s)) 1) as [Hl|Hl]; [exact H|].
  simpl. apply P_pop; [exact H | lia].
Qed.

Lemma keeps_load_complete : keeps P load_complete.
Proof.
  intros s H. unfold load_complete.
  destruct (pendingLoads s) as [|snap rest]; [exact H|].
  unfold undo_callback. simpl.
  apply keeps_materialize. exact H.
Qed.

Lemma keeps_tool_effect : keeps P tool_effect.
Proof. intros s H. unfold tool_effect. destruct (is_arrow _); exact H. Qed.

Lemma keeps_setTool (t : Tool) : keeps P (setTool t).
Proof.
  intros s H. unfold setTool.
  destruct (Bool.eqb _ _); [exact H | apply keeps_tool_effect; exact H].
Qed.

Lemma keeps_mouse_down a b x y p : keeps P (mouse_down a b x y p).
Proof.
  intros s H. unfold mouse_down.
  destruct (a || _); [exact H|]. destruct (is_arrow _); exact H.
Qed.

Lemma keeps_mouse_move x y p : keeps P (mouse_move x y p).
Proof.
  intros s H. unfold mouse_move.
  destruct (isPanning s); [exact H|].
  destruct (arrowStartRef s) as [start|]; [|exact H].
  destruct (is_arrow (tool s) && isDrawingRef s); [|exact H].
  assert (H1 : P (historyRef (match tempArrowRef s with
                              | Some old => canvas_remove old s
                              | None => s end))).
  { destruct (tempArrowRef s); [apply keeps_canvas_remove|]; exact H. }
  destruct (truthy _); [|exact H1].
  apply keeps_canvas_add. exact H1.
Qed.

Lemma keeps_mouse_up : keeps P mouse_up.
Proof.
  intros s H. unfold mouse_up.
  destruct (isPanning s); [exact H|].
  destruct (is_arrow (tool s) && isDrawingRef s); [|exact H].
  simpl. destruct (tempArrowRef s); [|exact H].
  simpl. apply keeps_saveHistory. exact H.
Qed.

Lemma keeps_handleDeleteSelected : keeps P handleDeleteSelected.
Proof.
  intros s H. unfold handleDeleteSelected.
  destruct (activeObjects (canvas s)); [exact H|].
  apply keeps_canvas_remove_all. exact H.
Qed.

Lemma keeps_handleKeyDown k c m : keeps P (handleKeyDown k c m).
Proof.
  intros s H. unfold handleKeyDown.
  set (s1 := if is_delete k then _ else s).
  assert (H1 : P (historyRef s1)).
  { subst s1. destruct (is_delete k); [|exact H].
    destruct (activeObjects (canvas s)); [exact H|].
    destruct (negb _); [apply keeps_handleDeleteSelected|]; exact H. }
  clearbody s1.
  set (s2 := if (c || m) && is_z k then _ else s1).
  assert (H2 : P (historyRef s2)).
  { subst s2. destruct ((c || m) && is_z k); [apply keeps_handleUndo|]; exact H1. }
  clearbody s2.
  destruct (is_escape k); [|exact H2].
  destruct (isDrawingRef s2); [|apply keeps_setTool; exact H2].
  simpl. destruct (tempArrowRef s2); [apply keeps_canvas_remove|]; exact H2.
Qed.

Lemma keeps_addPiece : keeps P addPiece.
Proof.
  intros s H. unfold addPiece.
  match goal with |- P (historyRef (if _ then setTool _ ?x else _)) =>
    assert (H1 : P (historyRef x)) end.
  { apply keeps_saveHistory. simpl. apply keeps_canvas_add. exact H. }
  destruct (is_arrow _); [apply keeps_setTool|]; exact H1.
Qed.

Lemma keeps_addText : keeps P addText.
Proof.
  intros s H. unfold addText.
  match goal with |- P (historyRef (if _ then setTool _ ?x else _)) =>
    assert (H1 : P (historyRef x)) end.
  { apply keeps_saveHistory. simpl. apply keeps_canvas_add. exact H. }
  destruct (is_arrow _); [apply keeps_setTool|]; exact H1.
Qed.

Lemma keeps_handleClearBoard b : keeps P (handleClearBoard b).
Proof.
  intros s H. unfold handleClearBoard. destruct b; [|exact H].
  apply keeps_saveHistory. simpl. apply keeps_canvas_clear. exact H.
Qed.

Lemma keeps_image_loaded b d w h : keeps P (image_loaded b d w h).
Proof.
  intros s H. unfold image_loaded.
  apply keeps_saveHistory. simpl.
  apply keeps_canvas_add, keeps_canvas_remove_all. exact H.
Qed.

Lemma keeps_user_transform id l t : keeps P (user_transform id l t).
Proof.
  intros s H. unfold user_transform, on_object_modified, saveHistory_mount.
  destruct (has_oid _ _); [apply keeps_saveHistory|]; exact H.
Qed.

Lemma keeps_user_exit_editing id t : keeps P (user_exit_editing id t).
Proof.
  intros s H. unfold user_exit_editing, on_object_modified, saveHistory_mount.
  destruct (has_oid _ _); [apply keeps_saveHistory|]; exact H.
Qed.

Lemma keeps_step (e : Event) : keeps P (step e).
Proof.
  destruct e; simpl; intros s H;
    first
      [ exact H
      | now apply keeps_mouse_down | now apply keeps_mouse_move
      | now apply keeps_mouse_up | now apply keeps_handleKeyDown
      | now apply keeps_setTool | now apply keeps_addPiece
      | now apply keeps_addText | now apply keeps_handleClearBoard
      | now apply keeps_handleUndo | now apply keeps_handleDeleteSelected
      | now apply keeps_image_loaded | now apply keeps_load_complete
      | now apply keeps_user_transform | now apply keeps_user_exit_editing ].
Qed.

Hypothesis P_mount : forall json, P (commit [] json).

Lemma reachable_keeps (s : App) : reachable s -> P (historyRef s).
Proof.
  induction 1 as [w h | s e _ IH].
  - unfold mount, saveHistory_mount. rewrite saveHistory_historyRef.
    apply P_mount.
  - apply keeps_step, IH.
Qed.

End HistoryInvariant.

Lemma reachable_length (s : App) :
  reachable s -> (1 <= List.length (historyRef s) <= 50)%nat.
Proof.
  revert s. apply (reachable_keeps (fun h => (1 <= List.length h <= 50)%nat)).
  - intros h json Hh. apply commit_length. lia.
  - intros h Hh H2. rewrite removelast_length. lia.
  - intros json. apply commit_length. simpl. lia.
Qed.

Lemma reachable_nonempty (s : App) : reachable s -> historyRef s <> [].
Proof.
  intros Hs E. apply reachable_length in Hs. rewrite E in Hs. simpl in Hs. lia.
Qed.

Lemma reachable_run (es : list Event) (s : App) :
  reachable s -> reachable (run es s).
Proof.
  unfold run. revert s.
  induction es as [|e es IH]; intros s Hs; simpl; [exact Hs|].
  apply IH. now constructor.
Qed.

Lemma commit_nonempty (h : list Snapshot) (json : Snapshot) :
  (List.length h <= 50)%nat -> commit h json <> [].
Proof.
  intros Hl E. pose proof (commit_length h json Hl) as Hc.
  rewrite E in Hc. simpl in Hc. lia.
Qed.

Lemma last_tl {A : Type} (l : list A) (d : A) :
  (2 <= List.length l)%nat -> last (tl l) d = last l d.
Proof. destruct l as [|a [|b l]]; simpl; intros; try lia; reflexivity. Qed.

Lemma commit_top (h : list Snapshot) (json : Snapshot) :
  last (commit h json) empty_snapshot = json.
Proof.
  destruct (commit_cases h json) as [(_ & E & ->) | (_ & ->)]; [exact E|].
  destruct (Nat.ltb_spec 50 (List.length (h ++ [json]))) as [Hc|Hc].
  - rewrite last_tl by lia. apply last_last.
  - apply last_last.
Qed.

Lemma commit_full (h : list Snapshot) (json : Snapshot) :
  List.length h = 50%nat -> last h empty_snapshot <> json ->
  commit h json = tl h ++ [json].
Proof.
  intros Hl Hn. rewrite commit_new by now right.
  rewrite length_app, Hl. simpl.
  destruct h; [discriminate | reflexivity].
Qed.

(** C1. In every state reachable after the mount effect, which commits one
    snapshot of the base scene, the history stack holds between 1 and 50
    entries; a commit on a full stack keeps 50 entries, dropping the oldest
    when the snapshot is new, and an undo on a one-entry stack changes
    nothing. *)
Theorem history_length_invariant (s : App) (Hs : reachable s) :
  (1 <= List.length (historyRef s) <= 50)%nat /\
  (List.length (historyRef s) = 50%nat ->
     List.length (historyRef (saveHistory false s)) = 50%nat /\
     (last (historyRef s) empty_snapshot <> toJSON (canvas s) ->
      historyRef (saveHistory false s)
      = tl (historyRef s) ++ [toJSON (canvas s)])) /\
  (List.length (historyRef s) = 1%nat -> handleUndo s = s) /\
  (1 <= List.length (historyRef (handleUndo s)))%nat.
Proof.
  assert (Inv : forall s', reachable s' ->
                  (1 <= List.length (historyRef s') <= 50)%nat).
  { apply (reachable_keeps
             (fun h => (1 <= List.length h <= 50)%nat)).
    - intros h json Hh. apply commit_length. lia.
    - intros h Hh H2. rewrite removelast_length. lia.
    - intros json. apply commit_length. simpl. lia. }
  split; [exact (Inv s Hs)|]. split; [|split].
  - intros H50. rewrite saveHistory_historyRef. split.
    + destruct (commit_cases (historyRef s) (toJSON (canvas s)))
        as [(_ & _ & ->) | (_ & ->)]; [exact H50|].
      rewrite length_app, H50. simpl.
      destruct (historyRef s); [discriminate|].
      simpl in *. rewrite length_app. simpl. lia.
    + intros Hn. now apply commit_full.
  - intros H1. unfold handleUndo. rewrite H1. reflexivity.
  - apply (Inv (step ClickUndo s)). now constructor.
Qed.

Lemma history_length_invariant_witness :
  reachable (mount 800 600) /\
  (1 <= List.length (historyRef (mount 800 600)) <= 50)%nat.
Proof.
  split; [constructor|].
  apply (history_length_invariant (mount 800 600)). constructor.
Defined.

(** C5. A commit of a snapshot identical to the top of the stack changes
    nothing; a second commit of an identical serialised scene adds no
    entry; and no reachable stack holds two consecutive identical
    snapshots. *)
Theorem commit_deduplicates (s : App) (Hs : reachable s) :
  no_adjacent_dup (historyRef s) /\
  (forall b, last (historyRef s) empty_snapshot = toJSON (canvas s) ->
             saveHistory b s = s) /\
  (forall b s', historyRef s' = historyRef (saveHistory false s) ->
                toJSON (canvas s') = toJSON (canvas s) ->
                saveHistory b s' = s').
Proof.
  assert (Hlen : (1 <= List.length (historyRef s) <= 50)%nat).
  { revert s Hs.
    apply (reachable_keeps (fun h => (1 <= List.length h <= 50)%nat)).
    - intros h json Hh. apply commit_length. lia.
    - intros h Hh H2. rewrite removelast_length. lia.
    - intros json. apply commit_length. simpl. lia. }
  assert (Hdedup : forall b t, historyRef t <> [] ->
            last (historyRef t) empty_snapshot = toJSON (canvas t) ->
            saveHistory b t = t).
  { intros b t Hne Htop. unfold saveHistory. destruct b; [reflexivity|].
    rewrite Htop, snapshot_eqb_refl.
    destruct (historyRef t); [congruence | reflexivity]. }
  split; [|split].
  - revert s Hs Hlen. intros s Hs _. revert s Hs.
    apply (reachable_keeps no_adjacent_dup).
    + intros h json. apply commit_no_adjacent_dup.
    + intros h Hh _. now apply no_adjacent_dup_removelast.
    + intros json. apply commit_no_adjacent_dup. exact I.
  - intros b Htop. apply Hdedup; [|exact Htop].
    destruct (historyRef s); [simpl in Hlen; lia | discriminate].
  - intros b s' Hh Hj. apply Hdedup.
    + rewrite Hh, saveHistory_historyRef. apply commit_nonempty. lia.
    + rewrite Hh, saveHistory_historyRef, Hj. apply commit_top.
Qed.

Lemma commit_deduplicates_witness :
  reachable (mount 800 600) /\
  saveHistory false (saveHistory false (mount 800 600))
  = saveHistory false (mount 800 600).
Proof.
  split; [constructor|].
  apply (commit_deduplicates (mount 800 600) (reachable_mount 800 600));
    reflexivity.
Defined.

(** ** Wheel zoom *)

Lemma wheel_zoom_clamp (z d : R) :
  wheel_zoom z d = clamp 0.1 20 (z * Rpower 0.999 d).
Proof.
  unfold wheel_zoom, clamp, Rmax, Rmin.
  set (x := z * Rpower 0.999 d).
  destruct (Rgt_dec x 20) as [Hg|Hg];
    destruct (Rle_dec 20 x) as [Hl|Hl]; try lra;
    repeat match goal with
           | |- context [Rlt_dec ?a ?b] => destruct (Rlt_dec a b)
           | |- context [Rle_dec ?a ?b] => destruct (Rle_dec a b)
           end; lra.
Qed.

(** C9. For every wheel event with raw delta [d] and current zoom [z], the
    zoom handed to the canvas is [z * 0.999 ^ d] clamped into [0.1, 20]: it
    is that product when the product is in range, the nearer bound
    otherwise; the handler is total. *)
Theorem wheel_zoom_clamped (s : App) (deltaY offsetX offsetY : R) :
  let z := zoom (canvas s) in
  let z' := zoom (canvas (step (MouseWheel deltaY offsetX offsetY) s)) in
  z' = wheel_zoom z deltaY /\
  z' = clamp 0.1 20 (z * Rpower 0.999 deltaY) /\
  0.1 <= z' <= 20 /\
  (z * Rpower 0.999 deltaY > 20 /\ z' = 20 \/
   z * Rpower 0.999 deltaY < 0.1 /\ z' = 0.1 \/
   0.1 <= z * Rpower 0.999 deltaY <= 20 /\ z' = z * Rpower 0.999 deltaY).
Proof.
  cbv zeta. simpl step. unfold mouse_wheel, on_canvas, zoomToPoint. simpl zoom.
  split; [reflexivity|]. split; [apply wheel_zoom_clamp|].
  unfold wheel_zoom. set (x := zoom (canvas s) * Rpower 0.999 deltaY).
  destruct (Rgt_dec x 20) as [Hg|Hg].
  - destruct (Rlt_dec 20 0.1); [lra|]. split; [lra|]. left. split; [exact Hg|reflexivity].
  - destruct (Rlt_dec x 0.1) as [Hl|Hl].
    + split; [lra|]. right; left. split; [exact Hl|reflexivity].
    + split; [lra|]. right; right. split; [lra|reflexivity].
Qed.

(** ** What the canvas operations do to the scene *)

Lemma canvas_canvas_add (o : FabricObject) (s : App) :
  canvas (canvas_add o s) = set_objects (objects (canvas s) ++ [o]) (canvas s).
Proof.
  unfold canvas_add, on_object_added, saveHistory_mount.
  destruct (negb _); [rewrite saveHistory_canvas|]; reflexivity.
Qed.

Lemma canvas_canvas_remove_head (o : FabricObject) (l : list FabricObject)
    (s : App) :
  objects (canvas s) = o :: l ->
  objects (canvas (canvas_remove (oid o) s)) = l /\
  backgroundColor (canvas (canvas_remove (oid o) s)) = backgroundColor (canvas s).
Proof.
  intros E. unfold canvas_remove, on_object_removed, saveHistory_mount.
  rewrite E. simpl. rewrite Nat.eqb_refl. simpl.
  rewrite saveHistory_canvas. simpl. rewrite E. simpl.
  rewrite Nat.eqb_refl. split; reflexivity.
Qed.

Lemma canvas_clear_objects (s : App) :
  objects (canvas (canvas_clear s)) = [].
Proof.
  unfold canvas_clear. simpl.
  change (objects (canvas s))
    with (objects (canvas (on_canvas (set_activeObjects []) s))) at 1.
  generalize (on_canvas (set_activeObjects []) s). clear s. intros s.
  remember (objects (canvas s)) as l eqn:E. symmetry in E.
  revert s E. induction l as [|o l IH]; intros s E; simpl; [exact E|].
  unfold canvas_remove_all in *. apply IH.
  now apply canvas_canvas_remove_head.
Qed.

Lemma toObject_fromObject (id : nat) (j : ObjJSON) :
  toObject (fromObject id j) = j.
Proof. destruct j; reflexivity. Qed.

Lemma insert_revived_toJSON (js : list ObjJSON) (s : App) :
  toJSON (canvas (insert_revived js s)) =
  (backgroundColor (canvas s), map toObject (objects (canvas s)) ++ js).
Proof.
  revert s. induction js as [|j js IH]; intros s; simpl.
  - unfold toJSON. now rewrite app_nil_r.
  - rewrite IH, canvas_canvas_add. simpl.
    rewrite map_app. simpl. rewrite toObject_fromObject, <- app_assoc.
    reflexivity.
Qed.

Lemma materialize_toJSON (snap : Snapshot) (s : App) :
  toJSON (canvas (materialize snap s)) = snap.
Proof.
  unfold materialize. rewrite insert_revived_toJSON.
  unfold on_canvas.
  cbn [canvas set_canvas objects backgroundColor set_backgroundColor].
  rewrite canvas_clear_objects. destruct snap; reflexivity.
Qed.



(** ** When [generateArrowPath] returns the empty string *)

Lemma sqrt_lt_iff (d h : R) :
  0 <= d -> 0 <= h -> (sqrt d < h <-> d < h * h).
Proof.
  intros Hd Hh. split; intros H.
  - apply sqrt_lt_0_alt. rewrite sqrt_square by exact Hh. exact H.
  - rewrite <- (sqrt_square h) by exact Hh.
    apply sqrt_lt_1_alt. lra.
Qed.

Lemma generateArrowPath_short (x1 y1 x2 y2 t : R) :
  distance (x1, y1) (x2, y2) < t * 3.5 ->
  generateArrowPath x1 y1 x2 y2 t = [].
Proof.
  unfold generateArrowPath, distance. simpl. intros H.
  destruct (Rlt_dec _ _) as [_|N]; [reflexivity | contradiction].
Qed.

Lemma generateArrowPath_long (x1 y1 x2 y2 t : R) :
  ~ distance (x1, y1) (x2, y2) < t * 3.5 ->
  generateArrowPath x1 y1 x2 y2 t =
  let len := distance (x1, y1) (x2, y2) in
  let ux := (x2 - x1) / len in
  let uy := (y2 - y1) / len in
  let shaftLength := len - t * 3.5 in
  [ MoveTo (x1 + - uy * (t / 2), y1 + ux * (t / 2));
    LineTo (x1 + ux * shaftLength + - uy * (t / 2),
            y1 + uy * shaftLength + ux * (t / 2));
    LineTo (x1 + ux * shaftLength + - uy * (t * 3 / 2),
            y1 + uy * shaftLength + ux * (t * 3 / 2));
    LineTo (x2, y2);
    LineTo (x1 + ux * shaftLength - - uy * (t * 3 / 2),
            y1 + uy * shaftLength - ux * (t * 3 / 2));
    LineTo (x1 + ux * shaftLength - - uy * (t / 2),
            y1 + uy * shaftLength - ux * (t / 2));
    LineTo (x1 - - uy * (t / 2), y1 - ux * (t / 2));
    ClosePath ].
Proof.
  unfold generateArrowPath, distance. simpl. intros H.
  destruct (Rlt_dec _ _) as [Y|_]; [contradiction | reflexivity].
Qed.

Lemma generateArrowPath_truthy (x1 y1 x2 y2 t : R) :
  truthy (generateArrowPath x1 y1 x2 y2 t) = true <->
  ~ distance (x1, y1) (x2, y2) < t * 3.5.
Proof.
  destruct (Rlt_dec (distance (x1, y1) (x2, y2)) (t * 3.5)) as [Y|N].
  - rewrite generateArrowPath_short by exact Y. simpl. split; [discriminate|tauto].
  - rewrite generateArrowPath_long by exact N. simpl. tauto.
Qed.

Lemma sum_sqr_nonneg (a b : R) : 0 <= a * a + b * b.
Proof. nra. Qed.

Lemma not_short (x1 y1 x2 y2 t : R) :
  0 <= t ->
  (t * 3.5) * (t * 3.5) <= (x2 - x1) * (x2 - x1) + (y2 - y1) * (y2 - y1) ->
  truthy (generateArrowPath x1 y1 x2 y2 t) = true.
Proof.
  intros Ht H. apply generateArrowPath_truthy. unfold distance. simpl.
  intros Hlt. apply sqrt_lt_iff in Hlt; [lra | apply sum_sqr_nonneg | lra].
Qed.

Lemma is_short (x1 y1 x2 y2 t : R) :
  0 <= t ->
  (x2 - x1) * (x2 - x1) + (y2 - y1) * (y2 - y1) < (t * 3.5) * (t * 3.5) ->
  truthy (generateArrowPath x1 y1 x2 y2 t) = false.
Proof.
  intros Ht H. rewrite generateArrowPath_short; [reflexivity|].
  unfold distance. simpl. apply sqrt_lt_iff; [apply sum_sqr_nonneg | lra | lra].
Qed.

(** ** Running the engine on a concrete trace

    The comparison of two snapshots does not compute (it compares real
    numbers), so a call of [saveHistory] is resolved by one of the three
    lemmas below, whose side conditions are closed by computation. *)

Lemma saveHistory_suppressed (s : App) : saveHistory true s = s.
Proof. reflexivity. Qed.

Lemma saveHistory_push (s : App) :
  (historyRef s = [] \/ last (historyRef s) empty_snapshot <> toJSON (canvas s)) ->
  (List.length (historyRef s) < 50)%nat ->
  saveHistory false s =
  setHistory (historyRef s ++ [toJSON (canvas s)])
    (set_historyRef (historyRef s ++ [toJSON (canvas s)]) s).
Proof.
  intros Hn Hl. unfold saveHistory.
  replace ((0 <? List.length (historyRef s))%nat
           && snapshot_eqb (last (historyRef s) empty_snapshot) (toJSON (canvas s)))
    with false.
  - replace (50 <? List.length (historyRef s ++ [toJSON (canvas s)]))%nat
      with false; [reflexivity|].
    symmetry. apply Nat.ltb_ge. rewrite length_app. simpl. lia.
  - symmetry. destruct Hn as [-> | Hn]; [reflexivity|].
    apply snapshot_eqb_false in Hn. rewrite Hn. apply andb_false_r.
Qed.

Lemma saveHistory_same (s : App) :
  historyRef s <> [] ->
  last (historyRef s) empty_snapshot = toJSON (canvas s) ->
  saveHistory false s = s.
Proof.
  intros Hne Htop. unfold saveHistory.
  rewrite Htop, snapshot_eqb_refl.
  destruct (historyRef s); [congruence | reflexivity].
Qed.

Ltac head_of t :=
  lazymatch t with
  | ?g _ => head_of g
  | _ => t
  end.

(** Computes everything but the functions on states, the path of an arrow
    and the real numbers. *)
Ltac norm :=
  cbv -[set_canvas set_historyRef setHistory setIsProcessing set_tool
        setPieceName setPieceColor setArrowThickness set_isDrawingRef
        set_arrowStartRef set_tempArrowRef set_panning set_pendingLoads
        set_nextOid on_canvas saveHistory saveHistory_mount saveHistory_render
        on_object_added on_object_modified on_object_removed canvas_add
        canvas_remove canvas_remove_all canvas_clear insert_revived
        materialize undo_callback handleUndo load_complete undo tool_effect
        setTool mouse_down mouse_move mouse_up mouse_wheel
        handleDeleteSelected handleKeyDown addPiece addText handleClearBoard
        image_loaded handleExport user_select user_transform
        user_enter_editing user_exit_editing step
        truthy generateArrowPath wheel_zoom toUpperCase substring
        IZR Rplus Rminus Rmult Ropp Rinv Rdiv Rmin Rmax sqrt Rpower
        Rlt_dec Rgt_dec Rle_dec Req_dec_T].

(** One step of call-by-value evaluation: resolves a test of a path, or a
    [saveHistory] on a state that is a value, or unfolds a function applied
    to a state that is a value. *)
Ltac open_call :=
  match goal with
  | |- context [truthy (generateArrowPath ?a ?b ?c ?d ?e)] =>
      first [ rewrite (not_short a b c d e) by lra
            | rewrite (is_short a b c d e) by lra ]
  | |- context [saveHistory true
                  (mkApp ?a ?b ?c ?d ?e ?f ?g ?h ?i ?j ?k ?l ?m ?n ?o ?p)] =>
      rewrite (saveHistory_suppressed
                 (mkApp a b c d e f g h i j k l m n o p))
  | |- context [saveHistory false
                  (mkApp ?a ?b ?c ?d ?e ?f ?g ?h ?i ?j ?k ?l ?m ?n ?o ?p)] =>
      let s := constr:(mkApp a b c d e f g h i j k l m n o p) in
      first
        [ rewrite (saveHistory_same s)
            by (cbv [historyRef canvas toJSON map toObject last];
                first [discriminate | reflexivity])
        | rewrite (saveHistory_push s)
            by (cbv [historyRef canvas toJSON map toObject last List.length];
                first [ left; reflexivity
                      | right; discriminate
                      | right; congruence
                      | lia ]) ]
  | |- context [?fn (mkApp ?a ?b ?c ?d ?e ?f ?g ?h ?i ?j ?k ?l ?m ?n ?o ?p)] =>
      let s := constr:(mkApp a b c d e f g h i j k l m n o p) in
      let hd := head_of fn in
      let t := eval unfold hd in (fn s) in
      change (fn s) with t
  end.

Ltac exec := norm; repeat (open_call; norm).

Ltac eval_trace := unfold run, mount; cbn [fold_left]; exec.

(** Turns the local definition of a state into an equation. *)
Ltac name_state x :=
  let E := fresh "E" x in
  assert (E : x = x) by reflexivity; unfold x at 2 in E; clearbody x.

(** Evaluates the right-hand side of [E : x = ...] and substitutes the
    value for [x]. *)
Ltac eval_state E :=
  revert E; eval_trace; intros E;
  match type of E with ?x = _ => subst x end.

(** The subscriptions keep committing while [isProcessing] is set. *)
Lemma subscription_ignores_isProcessing (s : App) :
  isProcessing s = true ->
  last (historyRef s) empty_snapshot <> toJSON (canvas s) ->
  (List.length (historyRef s) < 50)%nat ->
  historyRef (on_object_removed s) = historyRef s ++ [toJSON (canvas s)] /\
  (isDrawingRef s = false ->
   historyRef (on_object_added s) = historyRef s ++ [toJSON (canvas s)]).
Proof.
  intros _ Hn Hl. unfold on_object_removed, on_object_added, saveHistory_mount.
  split; [|intros ->; simpl]; rewrite saveHistory_push by (auto; lia);
    reflexivity.
Qed.

(** C2, evaluated.  Three objects are added, then Ctrl+Z is pressed: the
    undo pops the stack from four entries to three and sets
    [isProcessing].  While the popped-to snapshot is loaded, the removal of
    the three live objects and the insertion of the two revived ones each
    append an entry, the two insertions alone appending two: the stack
    ends with eight entries, the last being the state just undone to. *)
Theorem undo_materialization_commits :
  let s := run [ClickAddPiece; ClickAddText; ClickAddPiece] (mount 800 600) in
  let s1 := step (KeyDown KeyZ true false) s in
  let s2 := step LoadComplete s1 in
  List.length (historyRef s) = 4%nat /\
  List.length (historyRef s1) = 3%nat /\
  isProcessing s1 = true /\
  pendingLoads s1 = [last (historyRef s1) empty_snapshot] /\
  toJSON (canvas s2) = last (historyRef s1) empty_snapshot /\
  List.length (historyRef s2) = 8%nat /\
  firstn 3 (historyRef s2) = historyRef s1 /\
  map (fun snap => List.length (snd snap)) (skipn 3 (historyRef s2))
  = [2; 1; 0; 1; 2]%nat /\
  last (historyRef s2) empty_snapshot = last (historyRef s1) empty_snapshot.
Proof.
  intros s s1 s2. name_state s2. name_state s1. name_state s.
  eval_state Es. eval_state Es1. eval_state Es2.
  repeat split; reflexivity.
Qed.

(** C10, evaluated.  An uploaded image is inserted non-selectable and
    non-evented, and a second upload replaces it; switching to the arrow
    tool and back to the select tool makes the background image
    selectable. *)
Theorem background_unlocked_by_tool_switch :
  let s1 := run [ImageLoaded false "map1" 1600 1200] (mount 800 600) in
  let s2 := step (ImageLoaded false "map2" 400 300) s1 in
  let s3 := run [ClickTool arrow; ClickTool select] s2 in
  map flags (objects (canvas s1)) = [(image, "map1"%string, false, false)] /\
  map flags (objects (canvas s2)) = [(image, "map2"%string, false, false)] /\
  map flags (objects (canvas s3)) = [(image, "map2"%string, true, false)].
Proof.
  intros s1 s2 s3. name_state s3. name_state s2. name_state s1.
  eval_state Es1. eval_state Es2. eval_state Es3.
  repeat split; reflexivity.
Qed.

(** Two selected objects deleted by one key press: two entries are
    appended, so the stack is not the result of one commit. *)
Lemma delete_two_commits_twice :
  let s := run [ClickAddPiece; ClickAddText; UserSelect [0; 1]%nat]
               (mount 800 600) in
  let s' := step (KeyDown Delete false false) s in
  activeObjects (canvas s) = [0; 1]%nat /\
  activeObject_isEditing (canvas s) = false /\
  objects (canvas s') = [] /\
  List.length (historyRef s) = 3%nat /\
  List.length (historyRef s') = 5%nat /\
  ~ (exists json, historyRef s' = historyRef s ++ [json]).
Proof.
  intros s s'. name_state s'. name_state s.
  eval_state Es. eval_state Es'.
  repeat split; try reflexivity.
  intros [json E]. discriminate E.
Qed.

(** ** Deleting the selection *)

Lemma has_oid_remove_other (id id' : nat) (l : list FabricObject) :
  id <> id' -> has_oid id (remove_oid id' l) = has_oid id l.
Proof.
  intros Hne. induction l as [|o l IH]; [reflexivity|]. simpl.
  destruct (Nat.eqb_spec (oid o) id') as [E|N].
  - destruct (Nat.eqb_spec (oid o) id) as [E'|N']; [congruence|reflexivity].
  - simpl. now rewrite IH.
Qed.

Lemma has_oid_In (id : nat) (l : list FabricObject) :
  has_oid id l = true <-> In id (map oid l).
Proof.
  unfold has_oid. rewrite existsb_exists, in_map_iff.
  split; intros [o [H1 H2]]; exists o.
  - apply Nat.eqb_eq in H2. tauto.
  - rewrite Nat.eqb_eq. tauto.
Qed.

Lemma remove_oid_absent (id : nat) (l : list FabricObject) :
  has_oid id l = false -> remove_oid id l = l.
Proof.
  induction l as [|o l IH]; [reflexivity|]. simpl.
  destruct (oid o =? id)%nat; [discriminate|]. simpl.
  intros H. now rewrite IH.
Qed.

Lemma has_oid_remove_self (id : nat) (l : list FabricObject) :
  NoDup (map oid l) -> has_oid id (remove_oid id l) = false.
Proof.
  induction l as [|o l IH]; [reflexivity|]. simpl. intros Hn.
  inversion Hn as [|x xs Hx Hn']; subst.
  destruct (Nat.eqb_spec (oid o) id) as [E|N].
  - destruct (has_oid id l) eqn:Hh; [|reflexivity].
    apply has_oid_In in Hh. congruence.
  - simpl. destruct (Nat.eqb_spec (oid o) id); [congruence|]. now apply IH.
Qed.

Lemma remove_oid_incl (id : nat) (l : list FabricObject) :
  incl (map oid (remove_oid id l)) (map oid l).
Proof.
  induction l as [|o l IH]; [apply incl_refl|]. simpl.
  destruct (oid o =? id)%nat; [apply incl_tl, incl_refl|].
  simpl. intros x [Hx|Hx]; [now left | right; now apply IH].
Qed.

Lemma remove_oid_NoDup (id : nat) (l : list FabricObject) :
  NoDup (map oid l) -> NoDup (map oid (remove_oid id l)).
Proof.
  induction l as [|o l IH]; [trivial|]. simpl. intros Hn.
  inversion Hn as [|x xs Hx Hn']; subst.
  destruct (oid o =? id)%nat; [exact Hn'|].
  simpl. constructor; [|now apply IH].
  intros Hin. apply Hx. now apply (remove_oid_incl id l).
Qed.

Lemma remove_oid_length (id : nat) (l : list FabricObject) :
  has_oid id l = true -> S (List.length (remove_oid id l)) = List.length l.
Proof.
  induction l as [|o l IH]; [discriminate|]. simpl.
  destruct (oid o =? id)%nat; [reflexivity|]. simpl.
  intros H. now rewrite IH.
Qed.

Lemma scene_snapshot_length_neq (bg bg' : string) (l l' : list FabricObject) :
  List.length l <> List.length l' -> scene_snapshot bg l <> scene_snapshot bg' l'.
Proof.
  intros Hn E. apply Hn. unfold scene_snapshot in E.
  injection E as _ E. apply (f_equal (@List.length _)) in E.
  now rewrite !length_map in E.
Qed.

Lemma commit_full_tl (h : list Snapshot) (json : Snapshot) :
  List.length h = 50%nat -> last h empty_snapshot <> json ->
  commit h json = tl (h ++ [json]).
Proof.
  intros Hl Hn. rewrite commit_new by now right.
  rewrite length_app, Hl. reflexivity.
Qed.

Lemma commit_room (h : list Snapshot) (json : Snapshot) :
  (List.length h < 50)%nat -> (h = [] \/ last h empty_snapshot <> json) ->
  commit h json = h ++ [json].
Proof.
  intros Hl Hn. rewrite commit_new by exact Hn.
  destruct (Nat.ltb_spec 50 (List.length (h ++ [json]))) as [Hc|Hc];
    [|reflexivity].
  rewrite length_app in Hc. simpl in Hc. lia.
Qed.

Lemma skipn_tl {A : Type} (n : nat) (l : list A) :
  skipn n (tl l) = skipn (S n) l.
Proof. destruct l; [now rewrite !skipn_nil | reflexivity]. Qed.

(** Commits of snapshots that each differ from the previous one are all
    appended, the stack keeping its last 50 entries. *)
Lemma fold_commit_distinct (snaps h : list Snapshot) :
  h <> [] -> (List.length h <= 50)%nat ->
  chain_distinct (last h empty_snapshot) snaps ->
  fold_left commit snaps h = lastn 50 (h ++ snaps).
Proof.
  unfold lastn. revert h.
  induction snaps as [|b r IH]; intros h Hne Hl Hc.
  - simpl. rewrite app_nil_r.
    replace (List.length h - 50)%nat with 0%nat by lia. reflexivity.
  - destruct Hc as [Hab Hc]. simpl fold_left.
    assert (Hl' : (List.length (commit h b) <= 50)%nat)
      by (apply commit_length; exact Hl).
    rewrite IH; [| now apply commit_nonempty | exact Hl'
                 | now rewrite commit_top].
    destruct (Nat.eq_dec (List.length h) 50) as [E50|N50].
    + rewrite (commit_full_tl h b E50 Hab).
      replace (h ++ b :: r) with ((h ++ [b]) ++ r)
        by (rewrite <- app_assoc; reflexivity).
      assert (Ht : tl (h ++ [b]) ++ r = tl ((h ++ [b]) ++ r)).
      { destruct h; [contradiction|reflexivity]. }
      rewrite Ht, skipn_tl. f_equal.
      destruct h as [|a h]; [contradiction|].
      cbn [app tl]. cbn [List.length]. rewrite !length_app.
      cbn [List.length] in *. lia.
    + rewrite (commit_room h b) by (auto; lia).
      now rewrite <- app_assoc.
Qed.

Lemma canvas_remove_present (id : nat) (s : App) :
  has_oid id (objects (canvas s)) = true ->
  activeObjects (canvas s) = [] ->
  objects (canvas (canvas_remove id s)) = remove_oid id (objects (canvas s)) /\
  backgroundColor (canvas (canvas_remove id s)) = backgroundColor (canvas s) /\
  activeObjects (canvas (canvas_remove id s)) = [] /\
  historyRef (canvas_remove id s)
  = commit (historyRef s)
      (scene_snapshot (backgroundColor (canvas s))
                      (remove_oid id (objects (canvas s)))).
Proof.
  intros Hp Ha. unfold canvas_remove, on_object_removed, saveHistory_mount.
  rewrite Hp, saveHistory_canvas, saveHistory_historyRef. simpl.
  rewrite Ha. repeat split.
Qed.

Lemma canvas_remove_all_present (ids : list nat) (s : App) :
  NoDup ids ->
  (forall id, In id ids -> has_oid id (objects (canvas s)) = true) ->
  activeObjects (canvas s) = [] ->
  objects (canvas (canvas_remove_all ids s)) = remove_oids ids (objects (canvas s)) /\
  backgroundColor (canvas (canvas_remove_all ids s)) = backgroundColor (canvas s) /\
  historyRef (canvas_remove_all ids s)
  = fold_left commit
      (map (scene_snapshot (backgroundColor (canvas s)))
           (removal_scenes (objects (canvas s)) ids))
      (historyRef s).
Proof.
  unfold canvas_remove_all, remove_oids. revert s.
  induction ids as [|id ids IH]; intros s Hnd Hin Ha; [now repeat split|].
  inversion Hnd as [|x xs Hx Hnd']; subst.
  destruct (canvas_remove_present id s (Hin id (or_introl eq_refl)) Ha)
    as (Ho & Hb & Ha' & Hh).
  simpl fold_left. simpl removal_scenes. simpl map.
  destruct (IH (canvas_remove id s) Hnd') as (Ho' & Hb' & Hh').
  - intros id' Hid'. rewrite Ho, has_oid_remove_other.
    + apply Hin. now right.
    + intros ->. contradiction.
  - exact Ha'.
  - rewrite Ho', Hb', Hh', Ho, Hb, Hh. now repeat split.
Qed.

Lemma removal_scenes_chain (bg : string) (ids : list nat)
    (objs : list FabricObject) :
  NoDup ids ->
  (forall id, In id ids -> has_oid id objs = true) ->
  chain_distinct (scene_snapshot bg objs)
                 (map (scene_snapshot bg) (removal_scenes objs ids)).
Proof.
  revert objs. induction ids as [|id ids IH]; intros objs Hnd Hin; [exact I|].
  inversion Hnd as [|x xs Hx Hnd']; subst. simpl. split.
  - apply scene_snapshot_length_neq.
    pose proof (remove_oid_length id objs (Hin id (or_introl eq_refl))). lia.
  - apply IH; [exact Hnd'|].
    intros id' Hid'. rewrite has_oid_remove_other.
    + apply Hin. now right.
    + intros ->. contradiction.
Qed.

Lemma removal_scenes_length (ids : list nat) (objs : list FabricObject) :
  List.length (removal_scenes objs ids) = List.length ids.
Proof.
  revert objs. induction ids as [|id ids IH]; intros objs; simpl;
    [reflexivity | now rewrite IH].
Qed.

Lemma remove_oids_absent (ids : list nat) (objs : list FabricObject) (id : nat) :
  NoDup (map oid objs) -> In id ids -> has_oid id (remove_oids ids objs) = false.
Proof.
  unfold remove_oids. revert objs.
  induction ids as [|i ids IH]; intros objs Hnd Hin; [contradiction|].
  simpl. destruct (in_dec Nat.eq_dec id ids) as [Hi|Hi].
  - apply IH; [now apply remove_oid_NoDup | exact Hi].
  - destruct Hin as [->|Hin]; [|contradiction].
    assert (H0 : has_oid id (remove_oid id objs) = false)
      by now apply has_oid_remove_self.
    clear Hi IH Hnd. revert H0. generalize (remove_oid id objs).
    induction ids as [|j ids IH']; intros l H0; [exact H0|].
    simpl. apply IH'.
    destruct (Nat.eq_dec id j) as [->|Hne].
    + now rewrite remove_oid_absent.
    + now rewrite has_oid_remove_other.
Qed.

Lemma fold_commit_last (snaps h : list Snapshot) :
  snaps <> [] ->
  last (fold_left commit snaps h) empty_snapshot = last snaps empty_snapshot.
Proof.
  revert h. induction snaps as [|a r IH]; intros h Hs; [contradiction|].
  simpl fold_left. destruct r as [|b r].
  - simpl. apply commit_top.
  - rewrite IH by discriminate. reflexivity.
Qed.

Lemma removal_scenes_last (bg : string) (ids : list nat)
    (objs : list FabricObject) :
  ids <> [] ->
  last (map (scene_snapshot bg) (removal_scenes objs ids)) empty_snapshot
  = scene_snapshot bg (remove_oids ids objs).
Proof.
  unfold remove_oids. revert objs.
  induction ids as [|i r IH]; intros objs Hne; [contradiction|].
  destruct r as [|j r]; [reflexivity|].
  change (removal_scenes objs (i :: j :: r))
    with (remove_oid i objs :: removal_scenes (remove_oid i objs) (j :: r)).
  rewrite map_cons.
  change (fold_left (fun l id => remove_oid id l) (i :: j :: r) objs)
    with (fold_left (fun l id => remove_oid id l) (j :: r) (remove_oid i objs)).
  rewrite <- IH by discriminate.
  destruct (removal_scenes (remove_oid i objs) (j :: r)) eqn:E;
    [discriminate E | reflexivity].
Qed.

(** ** Object identities in reachable states *)

Lemma wf_fresh (s : App) : wf s -> fresh s.
Proof.
  intros [H _] o Ho. apply H. unfold oids. now apply in_map.
Qed.

Lemma saveHistory_cases (b : bool) (s : App) :
  saveHistory b s = s \/
  exists h, saveHistory b s = setHistory h (set_historyRef h s).
Proof.
  unfold saveHistory. destruct b; [now left|].
  destruct ((0 <? _)%nat && _); [now left | right; eauto].
Qed.

Lemma saveHistory_nextOid (b : bool) (s : App) :
  nextOid (saveHistory b s) = nextOid s.
Proof.
  destruct (saveHistory_cases b s) as [-> | [h ->]]; reflexivity.
Qed.

Lemma wf_transfer (s s' : App) :
  incl (oids s') (oids s) -> NoDup (oids s') ->
  (nextOid s <= nextOid s')%nat -> wf s -> wf s'.
Proof.
  intros Hi Hn Hl [Hb _]. split; [|exact Hn].
  intros id Hid. apply Hi, Hb in Hid. lia.
Qed.

Lemma wf_same (s s' : App) :
  oids s' = oids s -> (nextOid s <= nextOid s')%nat -> wf s -> wf s'.
Proof.
  intros E Hl Hw. apply (wf_transfer s s'); auto.
  - rewrite E. apply incl_refl.
  - rewrite E. apply Hw.
Qed.

Lemma wf_saveHistory (b : bool) (s : App) : wf s -> wf (saveHistory b s).
Proof.
  apply wf_same.
  - unfold oids. now rewrite saveHistory_canvas.
  - now rewrite saveHistory_nextOid.
Qed.

Lemma wf_canvas_add (o : FabricObject) (s : App) :
  (forall id, In id (oids s) -> (id < oid o)%nat) -> NoDup (oids s) ->
  (oid o < nextOid s)%nat -> wf (canvas_add o s).
Proof.
  intros Hb Hn Ho.
  assert (E : oids (canvas_add o s) = oids s ++ [oid o]).
  { unfold oids. rewrite canvas_canvas_add. simpl. now rewrite map_app. }
  assert (En : nextOid (canvas_add o s) = nextOid s).
  { unfold canvas_add, on_object_added, saveHistory_mount.
    destruct (negb _); [rewrite saveHistory_nextOid|]; reflexivity. }
  split; rewrite E.
  - intros id Hid. rewrite En. apply in_app_or in Hid.
    destruct Hid as [Hid | [<- | []]]; [apply Hb in Hid; lia | lia].
  - apply NoDup_app; [exact Hn | repeat constructor; simpl; tauto |].
    intros id Hid [<- | []]. apply Hb in Hid. lia.
Qed.

Lemma wf_canvas_add_next (o : FabricObject) (s s' : App) :
  wf s -> incl (oids s') (oids s) -> NoDup (oids s') ->
  oid o = nextOid s -> nextOid s' = S (nextOid s) -> wf (canvas_add o s').
Proof.
  intros [Hb _] Hi Hn Ho Hs'. apply wf_canvas_add.
  - intros id Hid. rewrite Ho. apply Hb, Hi, Hid.
  - exact Hn.
  - lia.
Qed.

Lemma oids_canvas_remove (id : nat) (s : App) :
  oids (canvas_remove id s) = map oid (remove_oid id (objects (canvas s))) /\
  nextOid (canvas_remove id s) = nextOid s.
Proof.
  unfold canvas_remove, on_object_removed, saveHistory_mount, oids.
  destruct (has_oid id (objects (canvas s))) eqn:E.
  - rewrite saveHistory_canvas, saveHistory_nextOid. now split.
  - now rewrite remove_oid_absent.
Qed.

Lemma wf_canvas_remove (id : nat) (s : App) : wf s -> wf (canvas_remove id s).
Proof.
  intros Hw. destruct (oids_canvas_remove id s) as [E En].
  apply (wf_transfer s); [| |lia|exact Hw]; rewrite E.
  - apply remove_oid_incl.
  - apply remove_oid_NoDup, Hw.
Qed.

Lemma wf_canvas_remove_all (ids : list nat) (s : App) :
  wf s -> wf (canvas_remove_all ids s).
Proof.
  unfold canvas_remove_all. revert s.
  induction ids as [|id ids IH]; intros s Hw; simpl; [exact Hw|].
  apply IH, wf_canvas_remove, Hw.
Qed.

Lemma wf_on_canvas (f : Canvas -> Canvas) (s : App) :
  keeps_oids f -> wf s -> wf (on_canvas f s).
Proof.
  intros Hf. apply wf_same; [apply Hf | apply Nat.le_refl].
Qed.

Lemma map_oid_map (f : FabricObject -> FabricObject) (l : list FabricObject) :
  (forall o, oid (f o) = oid o) -> map oid (map f l) = map oid l.
Proof.
  intros Hf. rewrite map_map. apply map_ext. exact Hf.
Qed.

Lemma keeps_oids_object_set (id : nat) (g : FabricObject -> FabricObject) :
  (forall o, oid (g o) = oid o) -> keeps_oids (object_set id g).
Proof.
  intros Hg c. unfold object_set. simpl. apply map_oid_map.
  intros o. destruct (oid o =? id)%nat; [apply Hg | reflexivity].
Qed.

Lemma keeps_oids_forEachObject (g : FabricObject -> FabricObject) :
  (forall o, oid (g o) = oid o) -> keeps_oids (forEachObject g).
Proof. intros Hg c. unfold forEachObject. simpl. now apply map_oid_map. Qed.

Lemma wf_canvas_clear (s : App) : wf s -> wf (canvas_clear s).
Proof.
  intros Hw. unfold canvas_clear.
  apply wf_on_canvas; [intros c; reflexivity|].
  apply wf_canvas_remove_all.
  apply wf_on_canvas; [intros c; reflexivity | exact Hw].
Qed.

Lemma wf_insert_revived (js : list ObjJSON) (s : App) :
  wf s -> wf (insert_revived js s).
Proof.
  revert s. induction js as [|j js IH]; intros s Hw; simpl; [exact Hw|].
  apply IH. apply (wf_canvas_add_next _ s); try reflexivity; try apply Hw.
  apply incl_refl.
Qed.

Lemma wf_materialize (snap : Snapshot) (s : App) :
  wf s -> wf (materialize snap s).
Proof.
  intros Hw. unfold materialize. apply wf_insert_revived.
  apply wf_on_canvas; [intros c; reflexivity|]. now apply wf_canvas_clear.
Qed.

Lemma wf_setter (s s' : App) :
  canvas s' = canvas s -> nextOid s' = nextOid s -> wf s -> wf s'.
Proof.
  intros Ec En. apply wf_same; [unfold oids; now rewrite Ec | lia].
Qed.

Lemma wf_handleUndo (s : App) : wf s -> wf (handleUndo s).
Proof.
  unfold handleUndo. destruct (_ <=? _)%nat; [trivial|].
  now apply wf_setter.
Qed.

Lemma wf_load_complete (s : App) : wf s -> wf (load_complete s).
Proof.
  intros Hw. unfold load_complete.
  destruct (pendingLoads s) as [|snap rest]; [exact Hw|].
  unfold undo_callback.
  apply (wf_setter (materialize snap (set_pendingLoads rest s)));
    try reflexivity.
  apply wf_materialize. now apply (wf_setter s).
Qed.

Lemma wf_tool_effect (s : App) : wf s -> wf (tool_effect s).
Proof.
  intros Hw. unfold tool_effect.
  destruct (is_arrow _); apply wf_on_canvas; try exact Hw;
    intros c; unfold forEachObject; simpl; now apply map_oid_map.
Qed.

Lemma wf_setTool (t : Tool) (s : App) : wf s -> wf (setTool t s).
Proof.
  intros Hw. unfold setTool. destruct (Bool.eqb _ _); [exact Hw|].
  apply wf_tool_effect. now apply (wf_setter s).
Qed.

Lemma wf_mouse_down a b x y p (s : App) : wf s -> wf (mouse_down a b x y p s).
Proof.
  intros Hw. unfold mouse_down.
  destruct (a || _); [|destruct (is_arrow _); [|exact Hw]];
    (apply wf_on_canvas; [intros c; reflexivity|]);
    now apply (wf_setter s).
Qed.

Lemma wf_mouse_move x y p (s : App) : wf s -> wf (mouse_move x y p s).
Proof.
  intros Hw. unfold mouse_move.
  destruct (isPanning s).
  { apply (wf_setter (on_canvas (fun c =>
       setViewportTransform (zoom c) (vpt4 c + (x - lastPosX s))
                            (vpt5 c + (y - lastPosY s)) c) s));
      try reflexivity.
    apply wf_on_canvas; [intros c; reflexivity | exact Hw]. }
  destruct (arrowStartRef s) as [start|]; [|exact Hw].
  destruct (is_arrow (tool s) && isDrawingRef s); [|exact Hw].
  set (s1 := match tempArrowRef s with
             | Some old => canvas_remove old s
             | None => s
             end).
  assert (H1 : wf s1)
    by (subst s1; destruct (tempArrowRef s); [apply wf_canvas_remove|]; exact Hw).
  clearbody s1. destruct (truthy _); [|exact H1].
  apply (wf_canvas_add_next _ s1); try reflexivity; try apply H1.
  apply incl_refl.
Qed.

Lemma wf_mouse_up (s : App) : wf s -> wf (mouse_up s).
Proof.
  intros Hw. unfold mouse_up.
  destruct (isPanning s).
  { apply wf_on_canvas; [intros c; reflexivity|]. now apply (wf_setter s). }
  destruct (is_arrow (tool s) && isDrawingRef s); [|exact Hw].
  cbv zeta.
  destruct (tempArrowRef (set_isDrawingRef false s)) as [id|];
    [|now apply (wf_setter s)].
  match goal with
  | |- wf (set_arrowStartRef None (set_tempArrowRef None ?x)) =>
      apply (wf_setter x); try reflexivity
  end.
  apply wf_saveHistory.
  apply wf_on_canvas;
    [apply keeps_oids_object_set; reflexivity | now apply (wf_setter s)].
Qed.

Lemma wf_handleDeleteSelected (s : App) : wf s -> wf (handleDeleteSelected s).
Proof.
  intros Hw. unfold handleDeleteSelected.
  destruct (activeObjects (canvas s)); [exact Hw|].
  apply wf_canvas_remove_all.
  apply wf_on_canvas; [intros c; reflexivity | exact Hw].
Qed.

Lemma wf_handleKeyDown k c m (s : App) : wf s -> wf (handleKeyDown k c m s).
Proof.
  intros Hw. unfold handleKeyDown.
  set (s1 := if is_delete k then _ else s).
  assert (H1 : wf s1).
  { subst s1. destruct (is_delete k); [|exact Hw].
    destruct (activeObjects (canvas s)); [exact Hw|].
    destruct (negb _); [apply wf_handleDeleteSelected|]; exact Hw. }
  clearbody s1.
  set (s2 := if (c || m) && is_z k then _ else s1).
  assert (H2 : wf s2)
    by (subst s2; destruct ((c || m) && is_z k); [apply wf_handleUndo|]; exact H1).
  clearbody s2.
  destruct (is_escape k); [|exact H2].
  destruct (isDrawingRef s2); [|now apply wf_setTool].
  set (s3 := match tempArrowRef s2 with
             | Some id => canvas_remove id s2
             | None => s2
             end).
  assert (H3 : wf s3)
    by (subst s3; destruct (tempArrowRef s2); [apply wf_canvas_remove|]; exact H2).
  clearbody s3. now apply (wf_setter s3).
Qed.

Lemma wf_add_object (o : FabricObject) (b : bool) (s : App) :
  wf s -> oid o = nextOid s ->
  wf (saveHistory b
        (on_canvas (set_activeObjects [nextOid s])
           (canvas_add o (set_nextOid (S (nextOid s)) s)))).
Proof.
  intros Hw Ho. apply wf_saveHistory.
  apply wf_on_canvas; [intros c; reflexivity|].
  apply (wf_canvas_add_next _ s); try reflexivity; try apply Hw; auto.
  apply incl_refl.
Qed.

Lemma wf_addPiece (s : App) : wf s -> wf (addPiece s).
Proof.
  intros Hw. unfold addPiece. cbv zeta.
  match goal with
  | |- wf (if _ then setTool _ ?x else _) => assert (H1 : wf x)
  end.
  { now apply wf_add_object. }
  destruct (is_arrow _); [apply wf_setTool|]; exact H1.
Qed.

Lemma wf_addText (s : App) : wf s -> wf (addText s).
Proof.
  intros Hw. unfold addText. cbv zeta.
  match goal with
  | |- wf (if _ then setTool _ ?x else _) => assert (H1 : wf x)
  end.
  { now apply wf_add_object. }
  destruct (is_arrow _); [apply wf_setTool|]; exact H1.
Qed.

Lemma wf_handleClearBoard b (s : App) : wf s -> wf (handleClearBoard b s).
Proof.
  intros Hw. unfold handleClearBoard. destruct b; [|exact Hw].
  apply wf_saveHistory. apply wf_on_canvas; [intros c; reflexivity|].
  now apply wf_canvas_clear.
Qed.

Lemma find_oid_Some (id : nat) (l : list FabricObject) (o : FabricObject) :
  find_oid id l = Some o -> oid o = id /\ In id (map oid l).
Proof.
  unfold find_oid. intros H. apply find_some in H. destruct H as [Hin He].
  apply Nat.eqb_eq in He. split; [exact He|].
  rewrite <- He. now apply in_map.
Qed.

Lemma wf_sendToBack (id : nat) (s : App) :
  wf s -> wf (on_canvas (sendToBack id) s).
Proof.
  intros Hw. unfold on_canvas, sendToBack.
  destruct (find_oid id (objects (canvas s))) as [o|] eqn:E;
    [|now apply (wf_setter s); destruct s].
  apply find_oid_Some in E. destruct E as [Eo Hin].
  apply (wf_transfer s); [| |apply Nat.le_refl|exact Hw]; unfold oids; simpl.
  - intros x [<- | Hx]; [now rewrite Eo|]. now apply (remove_oid_incl id).
  - constructor; [|apply remove_oid_NoDup, Hw].
    rewrite Eo. intros Hc. apply has_oid_In in Hc.
    rewrite has_oid_remove_self in Hc; [discriminate | apply Hw].
Qed.

Lemma wf_image_loaded b d w h (s : App) : wf s -> wf (image_loaded b d w h s).
Proof.
  intros Hw. unfold image_loaded. cbv zeta.
  apply wf_saveHistory, wf_sendToBack.
  set (s0 := on_canvas (setViewportTransform 1 0 0) s).
  assert (H0 : wf s0)
    by (apply wf_on_canvas; [intros c; reflexivity | exact Hw]).
  set (s1 := canvas_remove_all _ (set_nextOid (S (nextOid s0)) s0)).
  assert (H1 : wf s1)
    by (apply wf_canvas_remove_all;
        apply (wf_same s0); [reflexivity | simpl; lia | exact H0]).
  assert (E1 : nextOid s1 = S (nextOid s0)).
  { subst s1. generalize (map oid (filter is_image
                 (objects (canvas (set_nextOid (S (nextOid s0)) s0))))).
    intros ids. unfold canvas_remove_all.
    change (S (nextOid s0)) with (nextOid (set_nextOid (S (nextOid s0)) s0)) at 2.
    generalize (set_nextOid (S (nextOid s0)) s0).
    induction ids as [|i ids IH]; intros t; simpl; [reflexivity|].
    rewrite IH. apply oids_canvas_remove. }
  assert (I1 : incl (oids s1) (oids s0)).
  { subst s1. generalize (map oid (filter is_image
                 (objects (canvas (set_nextOid (S (nextOid s0)) s0))))).
    intros ids. unfold canvas_remove_all.
    change (oids s0) with (oids (set_nextOid (S (nextOid s0)) s0)).
    generalize (set_nextOid (S (nextOid s0)) s0).
    induction ids as [|i ids IH]; intros t; simpl; [apply incl_refl|].
    eapply incl_tran; [apply IH|].
    rewrite (proj1 (oids_canvas_remove i t)). apply remove_oid_incl. }
  apply (wf_canvas_add_next _ s0); auto. apply H1.
Qed.

Lemma wf_user_transform id l t (s : App) : wf s -> wf (user_transform id l t s).
Proof.
  intros Hw. unfold user_transform, on_object_modified, saveHistory_mount.
  destruct (has_oid _ _); [|exact Hw].
  apply wf_saveHistory, wf_on_canvas; [|exact Hw].
  apply keeps_oids_object_set. reflexivity.
Qed.

Lemma wf_user_exit_editing id t (s : App) :
  wf s -> wf (user_exit_editing id t s).
Proof.
  intros Hw. unfold user_exit_editing, on_object_modified, saveHistory_mount.
  destruct (has_oid _ _); [|exact Hw].
  apply wf_saveHistory, wf_on_canvas; [|exact Hw].
  apply keeps_oids_object_set. reflexivity.
Qed.

Lemma wf_user_enter_editing id (s : App) : wf s -> wf (user_enter_editing id s).
Proof.
  intros Hw. unfold user_enter_editing. apply wf_on_canvas; [|exact Hw].
  intros c. simpl. apply map_oid_map.
  intros o. destruct (oid o =? id)%nat; [|reflexivity].
  destruct (otype o); reflexivity.
Qed.

Lemma wf_step (e : Event) (s : App) : wf s -> wf (step e s).
Proof.
  intros Hw. destruct e; simpl;
    first
      [ now apply wf_mouse_down | now apply wf_mouse_move
      | now apply wf_mouse_up | now apply wf_handleKeyDown
      | now apply wf_setTool | now apply wf_addPiece | now apply wf_addText
      | now apply wf_handleClearBoard | now apply wf_handleUndo
      | now apply wf_handleDeleteSelected | now apply wf_image_loaded
      | now apply wf_load_complete | now apply wf_user_transform
      | now apply wf_user_enter_editing | now apply wf_user_exit_editing
      | (apply wf_on_canvas; [intros c; reflexivity | exact Hw])
      | now apply (wf_setter s) ].
Qed.

Lemma reachable_wf (s : App) : reachable s -> wf s.
Proof.
  induction 1 as [w h | s e _ IH]; [|now apply wf_step].
  unfold mount, saveHistory_mount. apply wf_saveHistory.
  split; [intros id [] | constructor].
Qed.

(** C8, as the code has it.  A Delete or Backspace press in a reachable
    state with [N >= 1] distinct objects of the canvas selected, none in
    text editing, the top of the stack recording the current scene: all selected objects are removed, and each
    removal is committed on its own through the [object:removed]
    subscription, so [N] entries are appended (the stack keeping its last
    50); the stack is the result of a single commit when [N = 1]. *)
Theorem delete_commits_per_object (s : App) (key : Key) (ctrlKey metaKey : bool) :
  reachable s ->
  is_delete key = true ->
  activeObjects (canvas s) <> [] ->
  NoDup (activeObjects (canvas s)) ->
  (forall id, In id (activeObjects (canvas s)) ->
              has_oid id (objects (canvas s)) = true) ->
  activeObject_isEditing (canvas s) = false ->
  last (historyRef s) empty_snapshot = toJSON (canvas s) ->
  let ids := activeObjects (canvas s) in
  let s' := step (KeyDown key ctrlKey metaKey) s in
  let snaps := map (scene_snapshot (backgroundColor (canvas s)))
                   (removal_scenes (objects (canvas s)) ids) in
  objects (canvas s') = remove_oids ids (objects (canvas s)) /\
  (forall id, In id ids -> has_oid id (objects (canvas s')) = false) /\
  List.length snaps = List.length ids /\
  chain_distinct (last (historyRef s) empty_snapshot) snaps /\
  historyRef s' = lastn 50 (historyRef s ++ snaps) /\
  last (historyRef s') empty_snapshot = toJSON (canvas s') /\
  (List.length ids = 1%nat ->
   historyRef s' = commit (historyRef s) (toJSON (canvas s'))).
Proof.
  intros Hs Hk Hne Hnd Hin He Htop. cbv zeta.
  assert (Hu : NoDup (map oid (objects (canvas s))))
    by (apply (reachable_wf s Hs)).
  assert (Hh : historyRef s <> []) by now apply reachable_nonempty.
  assert (Hl : (List.length (historyRef s) <= 50)%nat)
    by (apply reachable_length in Hs; lia).
  clear Hs.
  assert (Hz : is_z key = false) by (destruct key; simpl in *; congruence).
  assert (Hesc : is_escape key = false)
    by (destruct key; simpl in *; congruence).
  assert (Es : step (KeyDown key ctrlKey metaKey) s
               = canvas_remove_all (activeObjects (canvas s))
                   (on_canvas (set_activeObjects []) s)).
  { simpl. unfold handleKeyDown, handleDeleteSelected.
    rewrite Hk, Hz, Hesc, andb_false_r, He.
    destruct (activeObjects (canvas s)); [contradiction|reflexivity]. }
  remember (step (KeyDown key ctrlKey metaKey) s) as s' eqn:Es'.
  remember (activeObjects (canvas s)) as ids eqn:Eids.
  set (snaps := map (scene_snapshot (backgroundColor (canvas s)))
                    (removal_scenes (objects (canvas s)) ids)).
  clear Es' Eids Hk Hz Hesc He.
  destruct (canvas_remove_all_present ids
              (on_canvas (set_activeObjects []) s) Hnd Hin eq_refl)
    as (Ho & Hb & Hhist).
  simpl in Ho, Hb, Hhist. fold snaps in Hhist.
  assert (Hchain : chain_distinct (last (historyRef s) empty_snapshot) snaps).
  { rewrite Htop. apply removal_scenes_chain; assumption. }
  assert (Hfold : historyRef s' = lastn 50 (historyRef s ++ snaps)).
  { rewrite Es, Hhist. now apply fold_commit_distinct. }
  rewrite Es. repeat split.
  - exact Ho.
  - intros id Hid. rewrite Ho. now apply remove_oids_absent.
  - subst snaps. now rewrite length_map, removal_scenes_length.
  - exact Hchain.
  - rewrite <- Es. exact Hfold.
  - rewrite Hhist. unfold toJSON. rewrite Ho, Hb.
    rewrite fold_commit_last.
    + subst snaps. now apply removal_scenes_last.
    + subst snaps. destruct ids; [contradiction|discriminate].
  - intros H1. rewrite Hhist. unfold toJSON. rewrite Ho, Hb. subst snaps.
    destruct ids as [|i [|j r]]; simpl in H1; try lia. reflexivity.
Qed.

Lemma delete_commits_per_object_witness :
  let s := run [ClickAddPiece; ClickAddText; UserSelect [0; 1]%nat]
               (mount 800 600) in
  let s' := step (KeyDown Delete false false) s in
  List.length (activeObjects (canvas s)) = 2%nat /\
  historyRef s'
  = lastn 50
      (historyRef s ++
       map (scene_snapshot (backgroundColor (canvas s)))
           (removal_scenes (objects (canvas s)) (activeObjects (canvas s)))).
Proof.
  cbv zeta. split; [eval_trace; reflexivity|].
  apply (delete_commits_per_object
           (run [ClickAddPiece; ClickAddText; UserSelect [0; 1]%nat]
                (mount 800 600)) Delete false false).
  - apply reachable_run. constructor.
  - reflexivity.
  - eval_trace. discriminate.
  - eval_trace. repeat constructor; simpl; intuition discriminate.
  - eval_trace. intros id [<-|[<-|[]]]; reflexivity.
  - eval_trace. reflexivity.
  - eval_trace. reflexivity.
Defined.


(** ** The outline of an arrow *)

Lemma distance_nonneg (p q : Point) : 0 <= distance p q.
Proof. unfold distance. apply sqrt_pos. Qed.

Lemma generateArrowPath_outline (x1 y1 x2 y2 t : R) :
  0 < t -> 3.5 * t <= distance (x1, y1) (x2, y2) ->
  generateArrowPath x1 y1 x2 y2 t =
  let p := (x1, y1) in let q := (x2, y2) in
  [ MoveTo (tail_left p q t); LineTo (shoulder_inner_left p q t);
    LineTo (shoulder_outer_left p q t); LineTo q;
    LineTo (shoulder_outer_right p q t); LineTo (shoulder_inner_right p q t);
    LineTo (tail_right p q t); ClosePath ].
Proof.
  intros Ht Hd. rewrite generateArrowPath_long by lra. cbv zeta.
  unfold tail_left, shoulder_inner_left, shoulder_outer_left,
    shoulder_outer_right, shoulder_inner_right, tail_right, in_frame, direction.
  set (L := distance (x1, y1) (x2, y2)) in *. simpl fst. simpl snd.
  assert (HL : L <> 0) by lra.
  repeat match goal with
         | |- _ :: _ = _ :: _ => f_equal
         | |- MoveTo _ = MoveTo _ => f_equal
         | |- LineTo _ = LineTo _ => f_equal
         | |- (_, _) = (_, _) => f_equal
         end; try reflexivity; field; exact HL.
Qed.







Lemma direction_unit (p q : Point) :
  0 < distance p q -> unit_vector (direction p q).
Proof.
  intros HL. unfold unit_vector, direction. simpl.
  assert (Hsq : distance p q * distance p q
                = (fst q - fst p) * (fst q - fst p)
                  + (snd q - snd p) * (snd q - snd p)).
  { unfold distance. apply sqrt_sqrt.
    assert (H1 := Rle_0_sqr (fst q - fst p)).
    assert (H2 := Rle_0_sqr (snd q - snd p)).
    unfold Rsqr in *. lra. }
  set (L := distance p q) in *.
  transitivity (((fst q - fst p) * (fst q - fst p)
                 + (snd q - snd p) * (snd q - snd p)) / (L * L)).
  - field. lra.
  - rewrite <- Hsq. field. lra.
Qed.





(** ** The arrow-drawing gesture *)

Lemma fresh_has_oid (s : App) (id : nat) :
  fresh s -> (nextOid s <= id)%nat -> has_oid id (objects (canvas s)) = false.
Proof.
  intros Hf Hid. destruct (has_oid id (objects (canvas s))) eqn:E; [|reflexivity].
  apply has_oid_In, in_map_iff in E. destruct E as [o [E Ho]].
  apply Hf in Ho. lia.
Qed.

Lemma remove_oid_last (id : nat) (l : list FabricObject) (o : FabricObject) :
  has_oid id l = false -> oid o = id -> remove_oid id (l ++ [o]) = l.
Proof.
  intros Hl Ho. induction l as [|a l IH]; simpl in *.
  - rewrite Ho, Nat.eqb_refl. reflexivity.
  - destruct (oid a =? id)%nat; [discriminate|]. simpl in Hl. now rewrite IH.
Qed.

Lemma has_oid_app (id : nat) (l l' : list FabricObject) :
  has_oid id (l ++ l') = has_oid id l || has_oid id l'.
Proof. unfold has_oid. apply existsb_app. Qed.

Lemma saveHistory_isDrawingRef (b : bool) (s : App) :
  isDrawingRef (saveHistory b s) = isDrawingRef s.
Proof.
  unfold saveHistory. destruct b; [reflexivity|].
  destruct ((0 <? _)%nat && _); reflexivity.
Qed.

Lemma object_set_other (id : nat) (f : FabricObject -> FabricObject)
    (l : list FabricObject) :
  has_oid id l = false ->
  map (fun o => if (oid o =? id)%nat then f o else o) l = l.
Proof.
  induction l as [|o l IH]; [reflexivity|]. simpl.
  destruct (oid o =? id)%nat; [discriminate|]. simpl.
  intros H. now rewrite IH.
Qed.

Lemma run_app (es es' : list Event) (s : App) :
  run (es ++ es') s = run es' (run es s).
Proof. unfold run. apply fold_left_app. Qed.

Section Gesture.

Variable s : App.
Variable p0 : Point.
Hypothesis s_fresh : fresh s.
Hypothesis s_history : historyRef s <> [].
Hypothesis s_top : last (historyRef s) empty_snapshot = toJSON (canvas s).

(** One pointer-move of a drawing gesture. *)
Lemma mouse_move_drawing (t : App) (m : Move) :
  drawing s t p0 -> preview_kind s t ->
  let t' := step (move_event m) t in
  let ps := drag_path p0 m (thicknessRef t) in
  drawing s t' p0 /\
  thicknessRef t' = thicknessRef t /\ colorRef t' = colorRef t /\
  (if truthy ps
   then has_preview s t' (new_preview (nextOid t) ps (colorRef t))
   else stale_or_none s t').
Proof.
  intros (Htool & Hpan & Hdraw & Hstart & Hh & Hbg & Hn) Hp.
  cbv zeta. unfold drag_path. simpl step. unfold mouse_move.
  rewrite Hpan, Hstart, Htool, Hdraw. simpl andb. cbv iota.
  set (t1 := match tempArrowRef t with
             | Some old => canvas_remove old t
             | None => t
             end).
  assert (H1 : drawing s t1 p0 /\ stale_or_none s t1 /\
               nextOid t1 = nextOid t /\ colorRef t1 = colorRef t /\
               thicknessRef t1 = thicknessRef t).
  { subst t1. destruct Hp as [[Ho Hs] | [o (Ht & Hid & Ho)]].
    - destruct (tempArrowRef t) as [id|] eqn:Et.
      + unfold canvas_remove. rewrite Ho, fresh_has_oid by (auto; lia).
        unfold drawing, stale_or_none. rewrite Et. now repeat split.
      + unfold drawing, stale_or_none. rewrite Et. now repeat split.
    - rewrite Ht. set (id := oid o) in *.
      assert (Hpres : has_oid id (objects (canvas t)) = true).
      { rewrite Ho, has_oid_app. simpl. fold id. rewrite Nat.eqb_refl.
        now rewrite orb_true_r. }
      assert (Hrem : remove_oid id (objects (canvas t)) = objects (canvas s)).
      { rewrite Ho. apply remove_oid_last; [|reflexivity].
        apply fresh_has_oid; [exact s_fresh | lia]. }
      assert (Ecr : canvas_remove id t
                    = on_canvas (fun c =>
                        set_activeObjects
                          (match activeObjects c with
                           | [a] => if (a =? id)%nat then [] else [a]
                           | l => l
                           end)
                          (set_objects (remove_oid id (objects c)) c)) t).
      { unfold canvas_remove, on_object_removed, saveHistory_mount.
        rewrite Hpres. apply saveHistory_same; simpl.
        - now rewrite Hh.
        - rewrite Hh, s_top. unfold toJSON. simpl. now rewrite Hrem, Hbg. }
      rewrite Ecr. unfold drawing, stale_or_none. simpl. rewrite Hrem, Ht.
      repeat split; auto; lia. }
  clearbody t1.
  destruct H1 as ((Htool1 & Hpan1 & Hdraw1 & Hstart1 & Hh1 & Hbg1 & Hn1)
                  & (Ho1 & Hs1) & Hnx & Hc1 & Hth1).
  destruct (truthy _) eqn:Etr.
  - unfold canvas_add, on_object_added. simpl. rewrite Hdraw1. simpl.
    unfold drawing, has_preview. simpl. rewrite Ho1, Hnx, Hc1.
    repeat split; auto; lia.
  - unfold drawing, stale_or_none. repeat split; auto.
Qed.

Lemma mouse_move_kind (t : App) (m : Move) :
  drawing s t p0 -> preview_kind s t ->
  preview_kind s (step (move_event m) t).
Proof.
  intros Hd Hk.
  destruct (mouse_move_drawing t m Hd Hk) as (_ & _ & _ & H).
  cbv zeta in H. destruct (truthy _); [right; eauto | now left].
Qed.

(** Any number of pointer-moves. *)
Lemma drag_invariant (moves : list Move) (t : App) :
  drawing s t p0 -> preview_kind s t ->
  let t' := run (map move_event moves) t in
  drawing s t' p0 /\ preview_kind s t' /\
  thicknessRef t' = thicknessRef t /\ colorRef t' = colorRef t.
Proof.
  cbv zeta. revert t.
  induction moves as [|m moves IH]; intros t Hd Hk.
  { split; [exact Hd | split; [exact Hk | split; reflexivity]]. }
  change (run (map move_event (m :: moves)) t)
    with (run (map move_event moves) (step (move_event m) t)).
  destruct (mouse_move_drawing t m Hd Hk) as (Hd' & Hth & Hc & _).
  destruct (IH _ Hd' (mouse_move_kind t m Hd Hk)) as (A & B & C & D).
  split; [exact A | split; [exact B | split; congruence]].
Qed.


Lemma preview_on_canvas_stale (t : App) :
  stale_or_none s t -> preview_on_canvas t = false.
Proof.
  intros [Ho Hs]. unfold preview_on_canvas.
  destruct (tempArrowRef t) as [id|]; [|reflexivity].
  rewrite Ho. apply fresh_has_oid; [exact s_fresh | lia].
Qed.



(** Pointer-up with a preview on the canvas. *)
Lemma mouse_up_preview (t : App) (o : FabricObject) :
  drawing s t p0 -> has_preview s t o ->
  let t' := step MouseUp t in
  objects (canvas t') = objects (canvas s) ++ [finalize_arrow o] /\
  toJSON (canvas t') <> last (historyRef s) empty_snapshot /\
  historyRef t' = commit (historyRef s) (toJSON (canvas t')) /\
  isDrawingRef t' = false /\ tempArrowRef t' = None.
Proof.
  intros (Htool & Hpan & Hdraw & Hstart & Hh & Hbg & Hn) (Ht & Hid & Ho).
  cbv zeta. simpl step. unfold mouse_up. rewrite Hpan, Htool, Hdraw. simpl.
  rewrite Ht.
  assert (Hobj : objects (object_set (oid o) finalize_arrow (canvas t))
                 = objects (canvas s) ++ [finalize_arrow o]).
  { unfold object_set. simpl. rewrite Ho, map_app. simpl.
    rewrite Nat.eqb_refl. f_equal. apply object_set_other.
    apply fresh_has_oid; [exact s_fresh | lia]. }
  unfold saveHistory_mount, set_arrowStartRef, set_tempArrowRef.
  cbn [canvas historyRef isDrawingRef tempArrowRef].
  rewrite !saveHistory_canvas, saveHistory_historyRef, saveHistory_isDrawingRef.
  cbn [canvas historyRef isDrawingRef on_canvas set_canvas set_isDrawingRef].
  split; [exact Hobj|]. split; [|split].
  - rewrite s_top. unfold toJSON. rewrite Hobj. intros E.
    injection E as _ E. apply (f_equal (@List.length _)) in E.
    rewrite !length_map, length_app in E. simpl in E. lia.
  - now rewrite Hh.
  - split; reflexivity.
Qed.

End Gesture.

Lemma mouse_down_drawing (s : App) (button : nat) (x y : R) (p0 : Point) :
  gesture_start s -> button <> 1%nat ->
  let t := step (MouseDown false button x y p0) s in
  drawing s t p0 /\ stale_or_none s t /\
  thicknessRef t = thicknessRef s /\ colorRef t = colorRef s.
Proof.
  intros (_ & Htool & Hpan & Hdraw & Htemp & _) Hb. cbv zeta. simpl step.
  unfold mouse_down. apply Nat.eqb_neq in Hb. rewrite Hb, Htool. simpl.
  unfold drawing, stale_or_none. simpl. rewrite Htemp.
  repeat split; auto.
Qed.



Lemma drawing_control_change (s t : App) (p0 : Point) (e : Event) :
  control_change e -> drawing s t p0 -> drawing s (step e t) p0.
Proof. destruct e; simpl; intros []; trivial. Qed.

Lemma preview_kind_control_change (s t : App) (e : Event) :
  control_change e -> preview_kind s t -> preview_kind s (step e t).
Proof. destruct e; simpl; intros []; trivial. Qed.

Lemma has_preview_control_change (s t : App) (o : FabricObject) (e : Event) :
  control_change e -> has_preview s t o -> has_preview s (step e t) o.
Proof. destruct e; simpl; intros []; trivial. Qed.

Lemma control_changes_keep_preview (s : App) (p0 : Point) (o : FabricObject)
    (es : list Event) (t : App) :
  Forall control_change es -> drawing s t p0 -> has_preview s t o ->
  drawing s (run es t) p0 /\ has_preview s (run es t) o.
Proof.
  intros Hes. revert t.
  induction Hes as [|e es He _ IH]; intros t Hd Hp; [now split|].
  change (run (e :: es) t) with (run es (step e t)).
  apply IH.
  - now apply drawing_control_change.
  - now apply has_preview_control_change.
Qed.

Lemma drag_events_invariant (s : App) (p0 : Point) (es : list Event) (t : App) :
  fresh s -> historyRef s <> [] ->
  last (historyRef s) empty_snapshot = toJSON (canvas s) ->
  Forall drag_event es -> drawing s t p0 -> preview_kind s t ->
  drawing s (run es t) p0 /\ preview_kind s (run es t).
Proof.
  intros Hf Hne Htop Hes. revert t.
  induction Hes as [|e es He _ IH]; intros t Hd Hk; [now split|].
  change (run (e :: es) t) with (run es (step e t)).
  destruct e; simpl in He; try contradiction.
  - apply IH.
    + exact (proj1 (mouse_move_drawing s p0 Hf Hne Htop t
                      (clientX, clientY, pointer) Hd Hk)).
    + exact (mouse_move_kind s p0 Hf Hne Htop t
               (clientX, clientY, pointer) Hd Hk).
  - apply IH; [now apply drawing_control_change
              | now apply preview_kind_control_change].
  - apply IH; [now apply drawing_control_change
              | now apply preview_kind_control_change].
Qed.

Lemma thickness_after_change (es : list Event) (th : R) (t : App) :
  thicknessRef (run (es ++ [ChangeThickness th]) t) = th.
Proof. rewrite run_app. reflexivity. Qed.

Lemma color_after_change (es : list Event) (c : string) (t : App) :
  colorRef (run (es ++ [ChangeColor c]) t) = c.
Proof. rewrite run_app. reflexivity. Qed.

(** C7, as the code has it.  In an arrow-drawing gesture, after pointer-down
    and any sequence of pointer-moves and changes of the thickness and
    colour controls, a pointer-move that yields a non-empty path puts on
    the canvas a preview built with the thickness and colour current at
    that move (the values last set, if the controls were changed during
    the drag); the finalized arrow has the path and fill of that last
    preview, whatever the controls are changed to between the last move
    and pointer-up. *)
Theorem preview_style_read_at_each_move (s : App) (button : nat) (x0 y0 : R)
    (p0 : Point) (before : list Event) (m : Move) (after : list Event) :
  gesture_start s -> button <> 1%nat ->
  Forall drag_event before -> Forall control_change after ->
  let t := run before (step (MouseDown false button x0 y0 p0) s) in
  let ps := generateArrowPath (fst p0) (snd p0) (fst (snd m)) (snd (snd m))
                              (thicknessRef t) in
  truthy ps = true ->
  let preview := new_preview (nextOid t) ps (colorRef t) in
  let t2 := step (move_event m) t in
  let s' := step MouseUp (run after t2) in
  (forall es th, before = es ++ [ChangeThickness th] -> thicknessRef t = th) /\
  (forall es c, before = es ++ [ChangeColor c] -> colorRef t = c) /\
  objects (canvas t2) = objects (canvas s) ++ [preview] /\
  pathData preview = ps /\ fill preview = colorRef t /\
  objects (canvas s') = objects (canvas s) ++ [finalize_arrow preview] /\
  pathData (finalize_arrow preview) = ps /\
  fill (finalize_arrow preview) = colorRef t.
Proof.
  intros Hg Hb Hbefore Hafter. cbv zeta. intros Htr.
  destruct (mouse_down_drawing s button x0 y0 p0 Hg Hb) as (Hd0 & Hs0 & _).
  destruct Hg as (Hs & Htool & Hpan & Hdraw & Htemp & Htop).
  assert (Hf : fresh s) by (apply wf_fresh, reachable_wf, Hs).
  assert (Hne : historyRef s <> []) by now apply reachable_nonempty.
  set (down := step (MouseDown false button x0 y0 p0) s) in *.
  destruct (drag_events_invariant s p0 before down Hf Hne Htop Hbefore Hd0
              (or_introl Hs0)) as [Hd Hk].
  set (t := run before down) in *.
  destruct (mouse_move_drawing s p0 Hf Hne Htop t m Hd Hk)
    as (Hd2 & _ & _ & Hp2).
  cbv zeta in Hp2. unfold drag_path in Hp2. rewrite Htr in Hp2.
  destruct (control_changes_keep_preview s p0 _ after _ Hafter Hd2 Hp2)
    as [Hd3 Hp3].
  destruct (mouse_up_preview s p0 Hf Htop _ _ Hd3 Hp3) as (Ho & _).
  split; [|split].
  - intros es th ->. apply thickness_after_change.
  - intros es c ->. apply color_after_change.
  - split; [exact (proj2 (proj2 Hp2))|]. repeat split. exact Ho.
Qed.


Lemma distance_0_100 : distance (0, 0) (100, 0) = 100.
Proof.
  unfold distance. simpl.
  replace ((100 - 0) * (100 - 0) + (0 - 0) * (0 - 0)) with (100 * 100) by lra.
  apply sqrt_square. lra.
Qed.

(** The thickness and colour of pointer-down are not kept: set to other
    values during the drag, they change the path and the fill of the
    arrow that the same pointer positions produce. *)
Lemma style_not_frozen :
  let s := run [ClickTool arrow; MouseDown false 0 0 0 (0, 0)] (mount 800 600) in
  let a := run [MouseMove 100 0 (100, 0); MouseUp] s in
  let b := run [MouseMove 50 0 (50, 0); ChangeThickness 16;
                ChangeColor "#3b82f6"; MouseMove 100 0 (100, 0); MouseUp] s in
  thicknessRef s = 6 /\ colorRef s = "#ef4444"%string /\
  map pathData (objects (canvas a)) = [generateArrowPath 0 0 100 0 6] /\
  map fill (objects (canvas a)) = ["#ef4444"%string] /\
  map pathData (objects (canvas b)) = [generateArrowPath 0 0 100 0 16] /\
  map fill (objects (canvas b)) = ["#3b82f6"%string] /\
  generateArrowPath 0 0 100 0 16 <> generateArrowPath 0 0 100 0 6.
Proof.
  intros s a b. name_state b. name_state a. name_state s.
  eval_state Es. eval_state Ea. eval_state Eb.
  repeat split.
  rewrite !generateArrowPath_long by (rewrite distance_0_100; lra).
  cbv zeta. rewrite distance_0_100. intros E.
  injection E as _ E _. lra.
Qed.



Lemma preview_style_read_at_each_move_witness :
  let s := run [ClickTool arrow] (mount 800 600) in
  let before := [MouseMove 50 0 (50, 0); ChangeThickness 16;
                 ChangeColor "#3b82f6"] in
  let t := run before (step (MouseDown false 0 0 0 (0, 0)) s) in
  let t2 := step (MouseMove 100 0 (100, 0)) t in
  gesture_start s /\
  objects (canvas t2)
  = objects (canvas s)
    ++ [new_preview (nextOid t)
          (generateArrowPath 0 0 100 0 (thicknessRef t)) (colorRef t)].
Proof.
  cbv zeta.
  assert (G : gesture_start (run [ClickTool arrow] (mount 800 600))).
  { split; [apply reachable_run; constructor|].
    eval_trace. repeat split. }
  split; [exact G|].
  apply (preview_style_read_at_each_move
           (run [ClickTool arrow] (mount 800 600)) 0 0 0 (0, 0)
           [MouseMove 50 0 (50, 0); ChangeThickness 16; ChangeColor "#3b82f6"]
           (100, 0, (100, 0)) [ChangeThickness 4] G).
  - discriminate.
  - repeat constructor.
  - repeat constructor.
  - eval_trace. reflexivity.
Defined.

(** * Further properties of the engine *)

(** ** The outline of an arrow, continued *)

(** X1. The outline depends on the two points only through their relative
    position: moving both points by the same vector moves every vertex of
    the path by that vector, and leaves an empty result empty. *)
Theorem generateArrowPath_translate (x1 y1 x2 y2 t a b : R) :
  generateArrowPath (x1 + a) (y1 + b) (x2 + a) (y2 + b) t
  = map (translate_cmd a b) (generateArrowPath x1 y1 x2 y2 t).
Proof.
  unfold generateArrowPath.
  replace (x2 + a - (x1 + a)) with (x2 - x1) by lra.
  replace (y2 + b - (y1 + b)) with (y2 - y1) by lra.
  cbv zeta.
  destruct (Rlt_dec _ _); [reflexivity|].
  simpl map. unfold translate. simpl fst. simpl snd.
  repeat match goal with
         | |- _ :: _ = _ :: _ => f_equal
         | |- MoveTo _ = MoveTo _ => f_equal
         | |- LineTo _ = LineTo _ => f_equal
         | |- (_, _) = (_, _) => f_equal
         end; try reflexivity; lra.
Qed.

Lemma distance_in_frame (o u : Point) (a b a' b' : R) :
  unit_vector u ->
  distance (in_frame o u a b) (in_frame o u a' b')
  = sqrt ((a' - a) * (a' - a) + (b' - b) * (b' - b)).
Proof.
  intros Hu. unfold distance, in_frame, unit_vector in *. simpl.
  f_equal.
  transitivity (((a' - a) * (a' - a) + (b' - b) * (b' - b))
                * (fst u * fst u + snd u * snd u)); [ring|].
  rewrite Hu. ring.
Qed.

Lemma tip_in_frame (p q : Point) :
  0 < distance p q -> q = in_frame p (direction p q) (distance p q) 0.
Proof.
  intros HL. unfold in_frame, direction. destruct p as [x1 y1], q as [x2 y2].
  simpl. set (L := distance _ _) in *. f_equal; field; lra.
Qed.

Lemma sqrt_0_sq (x : R) : 0 <= x -> sqrt (0 * 0 + x * x) = x.
Proof.
  intros Hx. replace (0 * 0 + x * x) with (x * x) by ring.
  now apply sqrt_square.
Qed.

Lemma sqrt_sq_0 (x : R) : 0 <= x -> sqrt (x * x + 0 * 0) = x.
Proof.
  intros Hx. replace (x * x + 0 * 0) with (x * x) by ring.
  now apply sqrt_square.
Qed.

Ltac sqrt_is x :=
  match goal with
  | |- sqrt ?A = _ => replace A with (x * x) by field; apply sqrt_square; lra
  end.

(** X2. The dimensions of a drawn arrow of thickness [t > 0] between points
    at least one head length apart: the shaft is [t] wide at the tail and
    at the shoulders and as long as the distance minus [3.5 t], the head is
    [3 t] wide and [3.5 t] long, and the middle of the tail is the first
    point. *)
Theorem arrow_dimensions (x1 y1 x2 y2 t : R) :
  0 < t -> 3.5 * t <= distance (x1, y1) (x2, y2) ->
  let vs := vertices (generateArrowPath x1 y1 x2 y2 t) in
  distance (vertex vs 0) (vertex vs 6) = t /\
  distance (vertex vs 1) (vertex vs 5) = t /\
  distance (vertex vs 2) (vertex vs 4) = 3 * t /\
  distance (vertex vs 0) (vertex vs 1) = distance (x1, y1) (x2, y2) - 3.5 * t /\
  distance (vertex vs 6) (vertex vs 5) = distance (x1, y1) (x2, y2) - 3.5 * t /\
  midpoint (vertex vs 0) (vertex vs 6) = (x1, y1) /\
  distance (midpoint (vertex vs 2) (vertex vs 4)) (x2, y2) = 3.5 * t.
Proof.
  intros Ht Hd. cbv zeta.
  rewrite (generateArrowPath_outline x1 y1 x2 y2 t Ht Hd). cbv zeta.
  unfold vertex. simpl nth.
  assert (HL : 0 < distance (x1, y1) (x2, y2)) by lra.
  pose proof (direction_unit (x1, y1) (x2, y2) HL) as Hu.
  unfold tail_left, tail_right, shoulder_inner_left, shoulder_inner_right,
    shoulder_outer_left, shoulder_outer_right.
  set (L := distance (x1, y1) (x2, y2)) in *.
  set (u := direction (x1, y1) (x2, y2)) in *.
  repeat split.
  - rewrite distance_in_frame by exact Hu. sqrt_is t.
  - rewrite distance_in_frame by exact Hu. sqrt_is t.
  - rewrite distance_in_frame by exact Hu. sqrt_is (3 * t).
  - rewrite distance_in_frame by exact Hu. sqrt_is (L - 3.5 * t).
  - rewrite distance_in_frame by exact Hu. sqrt_is (L - 3.5 * t).
  - clearbody u. unfold midpoint, in_frame. simpl. f_equal; field.
  - replace (midpoint (in_frame (x1, y1) u (L - 3.5 * t) (3 * t / 2))
                      (in_frame (x1, y1) u (L - 3.5 * t) (- (3 * t / 2))))
      with (in_frame (x1, y1) u (L - 3.5 * t) 0)
      by (clearbody u; unfold midpoint, in_frame; simpl; f_equal; field).
    rewrite (tip_in_frame (x1, y1) (x2, y2) HL) at 1.
    fold L. fold u.
    rewrite distance_in_frame by exact Hu.
    sqrt_is (3.5 * t).
Qed.

Lemma arrow_dimensions_witness :
  0 < 6 /\
  distance (vertex (vertices (generateArrowPath 0 0 100 0 6)) 0)
           (vertex (vertices (generateArrowPath 0 0 100 0 6)) 6) = 6.
Proof.
  split; [lra|].
  apply (arrow_dimensions 0 0 100 0 6); [lra|].
  rewrite distance_0_100. lra.
Defined.

(** ** Panning *)

Lemma mouse_down_panning (s : App) (altKey : bool) (button : nat)
    (x0 y0 : R) (p0 : Point) :
  altKey || (button =? 1)%nat = true ->
  panning s (step (MouseDown altKey button x0 y0 p0) s) x0 y0 /\
  lastPosX (step (MouseDown altKey button x0 y0 p0) s) = x0 /\
  lastPosY (step (MouseDown altKey button x0 y0 p0) s) = y0.
Proof.
  intros H. simpl. unfold mouse_down. rewrite H.
  unfold panning. simpl. repeat split; lra.
Qed.

Lemma mouse_move_panning (s t : App) (x0 y0 : R) (m : Move) :
  panning s t x0 y0 ->
  panning s (step (move_event m) t) x0 y0 /\
  lastPosX (step (move_event m) t) = fst (fst m) /\
  lastPosY (step (move_event m) t) = snd (fst m).
Proof.
  intros (Hp & Hx & Hy & Hz & Ho & Hsel & Hh & Ht & Hd & Ha & Htmp).
  unfold move_event. simpl. unfold mouse_move. rewrite Hp.
  unfold panning. simpl. repeat split; try assumption; lra.
Qed.

Lemma pan_moves (s : App) (x0 y0 : R) (moves : list Move) (t : App) :
  panning s t x0 y0 -> lastPosX t = x0 -> lastPosY t = y0 ->
  panning s (run (map move_event moves) t) x0 y0 /\
  lastPosX (run (map move_event moves) t) = fst (last_client x0 y0 moves) /\
  lastPosY (run (map move_event moves) t) = snd (last_client x0 y0 moves).
Proof.
  unfold last_client.
  revert t. induction moves as [|m moves IH] using rev_ind; intros t Hp Hx Hy.
  - simpl. auto.
  - rewrite !map_app, run_app. simpl map.
    rewrite last_last.
    destruct (IH t Hp Hx Hy) as (Hp' & _).
    change (run [move_event m] ?u) with (step (move_event m) u).
    apply mouse_move_panning. exact Hp'.
Qed.

(** X3. A pan: pointer-down with Alt or the middle button, any number of
    pointer-moves, pointer-up.  The viewport is translated by the
    displacement of the pointer from pointer-down to the last move, the
    zoom is kept, no object or history entry is touched, and no arrow is
    started even in arrow mode.  Afterwards the default cursor is the one
    of the tool, and the canvas selection stays switched off. *)
Theorem pan_gesture_follows_pointer (s : App) (altKey : bool) (button : nat)
    (x0 y0 : R) (p0 : Point) (moves : list Move) :
  altKey || (button =? 1)%nat = true ->
  let down := step (MouseDown altKey button x0 y0 p0) s in
  let t := run (map move_event moves) down in
  let s' := step MouseUp t in
  vpt4 (canvas s') = vpt4 (canvas s) + (fst (last_client x0 y0 moves) - x0) /\
  vpt5 (canvas s') = vpt5 (canvas s) + (snd (last_client x0 y0 moves) - y0) /\
  zoom (canvas s') = zoom (canvas s) /\
  objects (canvas s') = objects (canvas s) /\
  historyRef s' = historyRef s /\
  isDrawingRef s' = isDrawingRef s /\
  arrowStartRef s' = arrowStartRef s /\
  tempArrowRef s' = tempArrowRef s /\
  isPanning s' = false /\
  selection (canvas s') = false /\
  defaultCursor (canvas s')
  = (if is_arrow (tool s) then "crosshair" else "default")%string.
Proof.
  intros H. cbv zeta.
  destruct (mouse_down_panning s altKey button x0 y0 p0 H) as (Hp & Hx & Hy).
  destruct (pan_moves s x0 y0 moves _ Hp Hx Hy) as (Hq & Hx' & Hy').
  set (t := run (map move_event moves) _) in *.
  destruct Hq as (Hp' & Hx4 & Hy5 & Hz & Ho & Hsel & Hh & Ht & Hd & Ha & Htmp).
  simpl. unfold mouse_up. rewrite Hp'. simpl. rewrite Ht.
  repeat split; try assumption; lra.
Qed.

Lemma pan_gesture_follows_pointer_witness :
  let s := mount 800 600 in
  let moves := [(110, 205, (110, 205)); (130, 190, (130, 190))] in
  let s' := step MouseUp (run (map move_event moves)
                            (step (MouseDown true 0 100 200 (100, 200)) s)) in
  vpt4 (canvas s') = vpt4 (canvas s) + (fst (last_client 100 200 moves) - 100).
Proof.
  cbv zeta.
  apply (pan_gesture_follows_pointer (mount 800 600) true 0 100 200 (100, 200)
           [(110, 205, (110, 205)); (130, 190, (130, 190))]).
  reflexivity.
Defined.

(** ** Zoom, and the state of an undo in progress *)


Lemma quiet_refl (s : App) : quiet s s.
Proof. unfold quiet. tauto. Qed.

Lemma quiet_trans (s1 s2 s3 : App) : quiet s1 s2 -> quiet s2 s3 -> quiet s1 s3.
Proof.
  intros (Hz & Hp & Hl & Hh) (Hz' & Hp' & Hl' & Hh').
  unfold quiet. repeat split; try congruence.
  destruct Hh' as [[E1 E2]|E]; [|now right].
  destruct Hh as [[E3 E4]|E]; [left; split; congruence | right; congruence].
Qed.

Lemma quiet_control_inv (s s' : App) : quiet s s' -> control_inv s -> control_inv s'.
Proof.
  intros (Hz & Hp & Hl & Hh) (Iz & Ip & Il). unfold control_inv.
  rewrite Hz, Hp, Hl. repeat split; try tauto.
  intros E. destruct Hh as [[E1 E2]|E']; [|exact E'].
  rewrite E1, E2. now apply Il.
Qed.

Lemma quiet_fields (s0 s s' : App) :
  zoom (canvas s') = zoom (canvas s) -> isProcessing s' = isProcessing s ->
  pendingLoads s' = pendingLoads s -> history s' = history s ->
  historyRef s' = historyRef s -> quiet s0 s -> quiet s0 s'.
Proof.
  intros Hz Hp Hl Hh Hr Hq. apply (quiet_trans s0 s s'); [exact Hq|].
  unfold quiet. tauto.
Qed.

Lemma quiet_saveHistory (b : bool) (s0 s : App) :
  quiet s0 s -> quiet s0 (saveHistory b s).
Proof.
  intros Hq. apply (quiet_trans s0 s); [exact Hq|].
  destruct (saveHistory_cases b s) as [-> | [h ->]]; [apply quiet_refl|].
  unfold quiet. simpl. tauto.
Qed.

Lemma quiet_on_canvas (f : Canvas -> Canvas) (s0 s : App) :
  keeps_zoom f -> quiet s0 s -> quiet s0 (on_canvas f s).
Proof.
  intros Hf. apply quiet_fields; try reflexivity. apply Hf.
Qed.

Lemma quiet_canvas_add (o : FabricObject) (s0 s : App) :
  quiet s0 s -> quiet s0 (canvas_add o s).
Proof.
  intros Hq. unfold canvas_add, on_object_added, saveHistory_mount.
  destruct (negb _); [apply quiet_saveHistory|];
    (apply quiet_on_canvas; [intros c; reflexivity | exact Hq]).
Qed.

Lemma quiet_canvas_remove (id : nat) (s0 s : App) :
  quiet s0 s -> quiet s0 (canvas_remove id s).
Proof.
  intros Hq. unfold canvas_remove, on_object_removed, saveHistory_mount.
  destruct (has_oid _ _); [|exact Hq].
  apply quiet_saveHistory, quiet_on_canvas; [intros c; reflexivity | exact Hq].
Qed.

Lemma quiet_canvas_remove_all (ids : list nat) (s0 s : App) :
  quiet s0 s -> quiet s0 (canvas_remove_all ids s).
Proof.
  unfold canvas_remove_all. revert s.
  induction ids as [|id ids IH]; intros s Hq; simpl; [exact Hq|].
  apply IH, quiet_canvas_remove, Hq.
Qed.

Lemma quiet_canvas_clear (s0 s : App) : quiet s0 s -> quiet s0 (canvas_clear s).
Proof.
  intros Hq. unfold canvas_clear.
  apply quiet_on_canvas; [intros c; reflexivity|].
  apply quiet_canvas_remove_all.
  apply quiet_on_canvas; [intros c; reflexivity | exact Hq].
Qed.

Lemma quiet_insert_revived (js : list ObjJSON) (s0 s : App) :
  quiet s0 s -> quiet s0 (insert_revived js s).
Proof.
  revert s. induction js as [|j js IH]; intros s Hq; simpl; [exact Hq|].
  apply IH, quiet_canvas_add. now apply (quiet_fields s0 s).
Qed.

Lemma quiet_materialize (snap : Snapshot) (s0 s : App) :
  quiet s0 s -> quiet s0 (materialize snap s).
Proof.
  intros Hq. unfold materialize. apply quiet_insert_revived.
  apply quiet_on_canvas; [intros c; reflexivity|].
  now apply quiet_canvas_clear.
Qed.

Lemma quiet_tool_effect (s0 s : App) : quiet s0 s -> quiet s0 (tool_effect s).
Proof.
  intros Hq. unfold tool_effect.
  destruct (is_arrow _); (apply quiet_on_canvas; [intros c; reflexivity | exact Hq]).
Qed.

Lemma quiet_setTool (t : Tool) (s0 s : App) : quiet s0 s -> quiet s0 (setTool t s).
Proof.
  intros Hq. unfold setTool. destruct (Bool.eqb _ _); [exact Hq|].
  apply quiet_tool_effect. now apply (quiet_fields s0 s).
Qed.

Lemma quiet_mouse_down a b x y p (s : App) : quiet s (mouse_down a b x y p s).
Proof.
  unfold mouse_down.
  destruct (a || _); [|destruct (is_arrow _); [|apply quiet_refl]];
    (apply quiet_on_canvas; [intros c; reflexivity|]);
    apply (quiet_fields s s); try reflexivity; apply quiet_refl.
Qed.

Lemma quiet_mouse_move x y p (s : App) : quiet s (mouse_move x y p s).
Proof.
  unfold mouse_move.
  destruct (isPanning s).
  { apply (quiet_fields s (on_canvas (fun c =>
       setViewportTransform (zoom c) (vpt4 c + (x - lastPosX s))
                            (vpt5 c + (y - lastPosY s)) c) s));
      try reflexivity.
    apply quiet_on_canvas; [intros c; reflexivity | apply quiet_refl]. }
  destruct (arrowStartRef s) as [start|]; [|apply quiet_refl].
  destruct (is_arrow (tool s) && isDrawingRef s); [|apply quiet_refl].
  cbv zeta.
  set (s1 := match tempArrowRef s with
             | Some old => canvas_remove old s
             | None => s end).
  assert (H1 : quiet s s1).
  { subst s1. destruct (tempArrowRef s);
      [apply quiet_canvas_remove|]; apply quiet_refl. }
  clearbody s1.
  destruct (truthy _); [|exact H1].
  apply quiet_canvas_add. now apply (quiet_fields s s1).
Qed.

Lemma quiet_mouse_up (s : App) : quiet s (mouse_up s).
Proof.
  unfold mouse_up.
  destruct (isPanning s).
  { apply quiet_on_canvas; [intros c; reflexivity|].
    apply (quiet_fields s s); try reflexivity. apply quiet_refl. }
  destruct (is_arrow (tool s) && isDrawingRef s); [|apply quiet_refl].
  cbv zeta.
  change (tempArrowRef (set_isDrawingRef false s)) with (tempArrowRef s).
  destruct (tempArrowRef s) as [id|].
  - apply (quiet_fields s
             (saveHistory_mount
                (on_canvas (object_set id finalize_arrow)
                   (set_isDrawingRef false s)))); try reflexivity.
    apply quiet_saveHistory.
    apply quiet_on_canvas; [intros c; reflexivity|].
    apply (quiet_fields s s); try reflexivity. apply quiet_refl.
  - apply (quiet_fields s s); try reflexivity. apply quiet_refl.
Qed.

Lemma quiet_handleDeleteSelected (s0 s : App) :
  quiet s0 s -> quiet s0 (handleDeleteSelected s).
Proof.
  intros Hq. unfold handleDeleteSelected.
  destruct (activeObjects (canvas s)); [exact Hq|].
  apply quiet_canvas_remove_all.
  apply quiet_on_canvas; [intros c; reflexivity | exact Hq].
Qed.

Lemma quiet_addPiece (s : App) : quiet s (addPiece s).
Proof.
  unfold addPiece. cbv zeta.
  match goal with |- quiet s (if _ then setTool _ ?x else _) =>
    assert (H1 : quiet s x) end.
  { apply quiet_saveHistory.
    apply quiet_on_canvas; [intros c; reflexivity|].
    apply quiet_canvas_add.
    apply (quiet_fields s s); try reflexivity. apply quiet_refl. }
  destruct (is_arrow _); [apply quiet_setTool|]; exact H1.
Qed.

Lemma quiet_addText (s : App) : quiet s (addText s).
Proof.
  unfold addText. cbv zeta.
  match goal with |- quiet s (if _ then setTool _ ?x else _) =>
    assert (H1 : quiet s x) end.
  { apply quiet_saveHistory.
    apply quiet_on_canvas; [intros c; reflexivity|].
    apply quiet_canvas_add.
    apply (quiet_fields s s); try reflexivity. apply quiet_refl. }
  destruct (is_arrow _); [apply quiet_setTool|]; exact H1.
Qed.

Lemma quiet_handleClearBoard b (s : App) : quiet s (handleClearBoard b s).
Proof.
  unfold handleClearBoard. destruct b; [|apply quiet_refl]. cbv zeta.
  apply quiet_saveHistory.
  apply quiet_on_canvas; [intros c; reflexivity|].
  apply quiet_canvas_clear, quiet_refl.
Qed.

Lemma keeps_zoom_sendToBack (id : nat) : keeps_zoom (sendToBack id).
Proof.
  intros c. unfold sendToBack. destruct (find_oid _ _); reflexivity.
Qed.

Lemma quiet_user_transform id l t (s : App) : quiet s (user_transform id l t s).
Proof.
  unfold user_transform, on_object_modified, saveHistory_mount.
  destruct (has_oid _ _); [|apply quiet_refl].
  apply quiet_saveHistory.
  apply quiet_on_canvas; [intros c; reflexivity | apply quiet_refl].
Qed.

Lemma quiet_user_exit_editing id t (s : App) : quiet s (user_exit_editing id t s).
Proof.
  unfold user_exit_editing, on_object_modified, saveHistory_mount.
  destruct (has_oid _ _); [|apply quiet_refl].
  apply quiet_saveHistory.
  apply quiet_on_canvas; [intros c; reflexivity | apply quiet_refl].
Qed.

(** The two handlers of the history and the two handlers of the viewport. *)

Lemma control_inv_handleUndo (s : App) : control_inv s -> control_inv (handleUndo s).
Proof.
  intros (Iz & Ip & Il). unfold handleUndo.
  destruct (_ <=? _)%nat; [now repeat split|].
  unfold control_inv. simpl. repeat split; try tauto.
  - intros _ E. now apply app_eq_nil in E as [_ E].
  - intros E. now apply app_eq_nil in E as [_ E].
Qed.

Lemma control_inv_load_complete (s : App) :
  control_inv s -> control_inv (load_complete s).
Proof.
  intros I. unfold load_complete.
  destruct (pendingLoads s) as [|snap rest] eqn:E; [exact I|].
  pose proof (quiet_materialize snap _ _
                (quiet_refl (set_pendingLoads rest s))) as (Hz & _ & _ & _).
  destruct I as (Iz & _ & _).
  unfold control_inv, undo_callback. simpl. rewrite Hz. simpl.
  repeat split; try tauto. discriminate.
Qed.

Lemma control_inv_mouse_wheel d x y (s : App) :
  control_inv s -> control_inv (mouse_wheel d x y s).
Proof.
  intros (_ & Ip & Il). unfold control_inv, mouse_wheel. simpl.
  repeat split; try assumption;
    rewrite wheel_zoom_clamp; unfold clamp, Rmax, Rmin;
    repeat match goal with
           | |- context [Rle_dec ?a ?b] => destruct (Rle_dec a b)
           end; lra.
Qed.

Lemma control_inv_image_loaded b d w h (s : App) :
  control_inv s -> control_inv (image_loaded b d w h s).
Proof.
  intros (_ & Ip & Il). unfold image_loaded. cbv zeta.
  match goal with
  | |- control_inv (saveHistory _ (on_canvas _ (canvas_add _
                      (canvas_remove_all _ ?s1)))) =>
      apply (quiet_control_inv s1)
  end.
  - apply quiet_saveHistory.
    apply quiet_on_canvas; [apply keeps_zoom_sendToBack|].
    apply quiet_canvas_add, quiet_canvas_remove_all, quiet_refl.
  - unfold control_inv. simpl. repeat split; try assumption; lra.
Qed.

Lemma control_inv_handleKeyDown k c m (s : App) :
  control_inv s -> control_inv (handleKeyDown k c m s).
Proof.
  intros I. unfold handleKeyDown.
  set (s1 := if is_delete k then _ else s).
  assert (I1 : control_inv s1).
  { subst s1. destruct (is_delete k); [|exact I].
    destruct (activeObjects (canvas s)); [exact I|].
    destruct (negb _); [|exact I].
    apply (quiet_control_inv s); [|exact I].
    apply quiet_handleDeleteSelected, quiet_refl. }
  clearbody s1.
  set (s2 := if (c || m) && is_z k then _ else s1).
  assert (I2 : control_inv s2).
  { subst s2. destruct ((c || m) && is_z k);
      [apply control_inv_handleUndo|]; exact I1. }
  clearbody s2.
  destruct (is_escape k); [|exact I2].
  apply (quiet_control_inv s2); [|exact I2].
  destruct (isDrawingRef s2); [|apply quiet_setTool, quiet_refl].
  cbv zeta.
  set (s3 := match tempArrowRef s2 with
             | Some id => canvas_remove id s2
             | None => s2 end).
  assert (H3 : quiet s2 s3).
  { subst s3. destruct (tempArrowRef s2);
      [apply quiet_canvas_remove|]; apply quiet_refl. }
  clearbody s3. now apply (quiet_fields s2 s3).
Qed.

Lemma control_inv_step (e : Event) (s : App) :
  control_inv s -> control_inv (step e s).
Proof.
  intros I.
  assert (Q : forall s', quiet s s' -> control_inv s')
    by (intros s' H; now apply (quiet_control_inv s)).
  assert (C : forall f, keeps_zoom f -> control_inv (on_canvas f s))
    by (intros f Hf; apply Q, quiet_on_canvas; [exact Hf | apply quiet_refl]).
  assert (F : forall s', zoom (canvas s') = zoom (canvas s) ->
                isProcessing s' = isProcessing s ->
                pendingLoads s' = pendingLoads s -> history s' = history s ->
                historyRef s' = historyRef s -> control_inv s')
    by (intros s' H1 H2 H3 H4 H5; apply Q;
        now apply (quiet_fields s s); [..|apply quiet_refl]).
  destruct e; cbn [step];
    [ apply Q, quiet_mouse_down
    | apply Q, quiet_mouse_move
    | apply Q, quiet_mouse_up
    | now apply control_inv_mouse_wheel
    | now apply control_inv_handleKeyDown
    | apply C; intros c; reflexivity
    | apply Q, quiet_setTool, quiet_refl
    | apply F; reflexivity
    | apply F; reflexivity
    | apply F; reflexivity
    | apply Q, quiet_addPiece
    | apply Q, quiet_addText
    | apply Q, quiet_handleClearBoard
    | now apply control_inv_handleUndo
    | apply Q, quiet_handleDeleteSelected, quiet_refl
    | apply C; intros c; reflexivity
    | now apply control_inv_image_loaded
    | now apply control_inv_load_complete
    | apply C; intros c; reflexivity
    | apply Q, quiet_user_transform
    | apply C; intros c; reflexivity
    | apply Q, quiet_user_exit_editing ].
Qed.

Lemma reachable_control_inv (s : App) : reachable s -> control_inv s.
Proof.
  induction 1 as [w h | s e _ IH]; [|now apply control_inv_step].
  unfold control_inv. simpl. repeat split; try lra; discriminate.
Qed.

(** X4. In every reachable state the zoom lies in [0.1, 20]: only the
    wheel handler, which clamps, and an image upload, which resets the
    viewport, change it. *)
Theorem zoom_stays_in_range (s : App) :
  reachable s -> 0.1 <= zoom (canvas s) <= 20.
Proof. intros Hr. apply (reachable_control_inv s Hr). Qed.

Lemma zoom_stays_in_range_witness :
  reachable (mount 800 600) /\ 0.1 <= zoom (canvas (mount 800 600)) <= 20.
Proof.
  split; [constructor|]. apply (zoom_stays_in_range (mount 800 600)).
  constructor.
Defined.





(** X7. When no undo is being loaded, the React state [history] equals the
    stack [historyRef] and [isProcessing] is unset; so the Undo button is
    disabled exactly when the stack has one entry, which is exactly when
    [handleUndo] does nothing. *)
Theorem undo_button_mirrors_stack (s : App) :
  reachable s -> pendingLoads s = [] ->
  history s = historyRef s /\
  isProcessing s = false /\
  (undo_disabled s = true <-> List.length (historyRef s) = 1%nat) /\
  (undo_disabled s = true <-> handleUndo s = s).
Proof.
  intros Hr Hp. destruct (reachable_control_inv s Hr) as (_ & Ip & Il).
  pose proof (reachable_length s Hr) as Hlen.
  specialize (Il Hp). split; [exact Il|]. split.
  { destruct (isProcessing s); [now specialize (Ip eq_refl) | reflexivity]. }
  unfold undo_disabled. rewrite Il. split.
  - rewrite Nat.leb_le. lia.
  - unfold handleUndo.
    destruct (Nat.leb_spec (List.length (historyRef s)) 1) as [H1|H1].
    + tauto.
    + split; [discriminate|]. intros E.
      apply (f_equal pendingLoads) in E. simpl in E. rewrite Hp in E.
      discriminate.
Qed.

Lemma undo_button_mirrors_stack_witness :
  reachable (mount 800 600) /\ pendingLoads (mount 800 600) = [] /\
  history (mount 800 600) = historyRef (mount 800 600).
Proof.
  split; [constructor|]. split; [reflexivity|].
  apply (undo_button_mirrors_stack (mount 800 600)); [constructor|reflexivity].
Defined.

(** ** Background and images *)

Lemma count_images_app (a b : list ObjJSON) :
  count_images (a ++ b) = (count_images a + count_images b)%nat.
Proof. unfold count_images. now rewrite filter_app, length_app. Qed.

Lemma is_image_toObject (o : FabricObject) :
  is_image_json (toObject o) = is_image o.
Proof. reflexivity. Qed.

Lemma count_images_filter (l : list FabricObject) :
  count_images (map toObject l) = List.length (filter is_image l).
Proof.
  unfold count_images. induction l as [|o l IH]; [reflexivity|]. simpl.
  rewrite is_image_toObject. destruct (is_image o); simpl; now rewrite IH.
Qed.

Lemma count_images_remove (id : nat) (l : list FabricObject) :
  (count_images (map toObject (remove_oid id l))
   <= count_images (map toObject l))%nat.
Proof.
  rewrite !count_images_filter.
  induction l as [|o l IH]; [apply Nat.le_refl|]. simpl.
  destruct (oid o =? id)%nat.
  - destruct (is_image o); simpl; lia.
  - simpl. destruct (is_image o); simpl; lia.
Qed.

Lemma Forall_tl {A : Type} (P : A -> Prop) (l : list A) :
  Forall P l -> Forall P (tl l).
Proof. intros H. destruct H; [constructor | assumption]. Qed.

Lemma good_commit (h : list Snapshot) (json : Snapshot) :
  Forall good_snapshot h -> good_snapshot json ->
  Forall good_snapshot (commit h json).
Proof.
  intros Hh Hj.
  destruct (commit_cases h json) as [(_ & _ & ->) | (_ & ->)]; [exact Hh|].
  assert (H : Forall good_snapshot (h ++ [json]))
    by (apply Forall_app; split; [exact Hh | now constructor]).
  destruct (_ <? _)%nat; [now apply Forall_tl | exact H].
Qed.

Lemma scene_inv_saveHistory (b : bool) (s : App) :
  scene_inv s -> scene_inv (saveHistory b s).
Proof.
  intros (Hg & Hh & Hp). unfold scene_inv, history_inv.
  rewrite saveHistory_canvas, saveHistory_historyRef.
  split; [exact Hg|]. split.
  - destruct b; [exact Hh | now apply good_commit].
  - destruct (saveHistory_cases b s) as [-> | [h ->]]; exact Hp.
Qed.

Lemma history_inv_saveHistory (b : bool) (s : App) :
  history_inv s -> good_snapshot (toJSON (canvas s)) ->
  history_inv (saveHistory b s).
Proof. intros Hh Hg. now apply (scene_inv_saveHistory b s). Qed.

Lemma scene_inv_fields (s s' : App) :
  canvas s' = canvas s -> historyRef s' = historyRef s ->
  pendingLoads s' = pendingLoads s -> scene_inv s -> scene_inv s'.
Proof.
  intros Ec Eh Ep. unfold scene_inv, history_inv. now rewrite Ec, Eh, Ep.
Qed.

Lemma scene_inv_on_canvas (f : Canvas -> Canvas) (s : App) :
  (good_snapshot (toJSON (canvas s)) -> good_snapshot (toJSON (f (canvas s)))) ->
  scene_inv s -> scene_inv (on_canvas f s).
Proof. intros Hf (Hg & Hh). split; [now apply Hf | exact Hh]. Qed.

Lemma scene_inv_on_canvas_same (f : Canvas -> Canvas) (s : App) :
  (forall c, toJSON (f c) = toJSON c) -> scene_inv s -> scene_inv (on_canvas f s).
Proof. intros Hf. apply scene_inv_on_canvas. now rewrite Hf. Qed.

Lemma scene_inv_canvas_add (o : FabricObject) (s : App) :
  scene_inv s ->
  (count_images (map toObject (objects (canvas s) ++ [o])) <= 1)%nat ->
  scene_inv (canvas_add o s).
Proof.
  intros I Hc. unfold canvas_add, on_object_added, saveHistory_mount.
  assert (I' : scene_inv (on_canvas (fun c => set_objects (objects c ++ [o]) c) s)).
  { apply scene_inv_on_canvas; [|exact I].
    intros [Hb _]. split; [exact Hb | exact Hc]. }
  destruct (negb _); [now apply scene_inv_saveHistory | exact I'].
Qed.

Lemma scene_inv_canvas_add_other (o : FabricObject) (s : App) :
  is_image o = false -> scene_inv s -> scene_inv (canvas_add o s).
Proof.
  intros Ho I. apply scene_inv_canvas_add; [exact I|].
  rewrite map_app, count_images_app. simpl.
  unfold count_images at 2. simpl. rewrite is_image_toObject, Ho. simpl.
  destruct I as [[_ Hc] _]. simpl in Hc. lia.
Qed.

Lemma scene_inv_canvas_remove (id : nat) (s : App) :
  scene_inv s -> scene_inv (canvas_remove id s).
Proof.
  intros I. unfold canvas_remove, on_object_removed, saveHistory_mount.
  destruct (has_oid _ _); [|exact I].
  apply scene_inv_saveHistory, scene_inv_on_canvas; [|exact I].
  intros [Hb Hc]. split; [exact Hb|]. simpl in *.
  eapply Nat.le_trans; [apply count_images_remove | exact Hc].
Qed.

Lemma scene_inv_canvas_remove_all (ids : list nat) (s : App) :
  scene_inv s -> scene_inv (canvas_remove_all ids s).
Proof.
  unfold canvas_remove_all. revert s.
  induction ids as [|id ids IH]; intros s I; simpl; [exact I|].
  apply IH, scene_inv_canvas_remove, I.
Qed.

(** [canvas.clear()] leaves no object and an unset background; the
    commits of its removals were made with the background in place. *)
Lemma history_inv_canvas_clear (s : App) :
  scene_inv s -> history_inv (canvas_clear s).
Proof.
  intros I. unfold canvas_clear.
  apply (scene_inv_canvas_remove_all (map oid (objects (canvas s)))
           (on_canvas (set_activeObjects []) s)).
  apply scene_inv_on_canvas_same; [reflexivity | exact I].
Qed.

Lemma scene_inv_insert_revived (js : list ObjJSON) (s : App) :
  scene_inv s ->
  (count_images (map toObject (objects (canvas s)) ++ js) <= 1)%nat ->
  scene_inv (insert_revived js s).
Proof.
  revert s. induction js as [|j js IH]; intros s I Hc; simpl; [exact I|].
  assert (Hj : (count_images (map toObject (objects (canvas s)) ++ [j])
                + count_images js <= 1)%nat).
  { rewrite <- count_images_app, <- app_assoc. exact Hc. }
  apply IH.
  - apply scene_inv_canvas_add.
    + now apply (scene_inv_fields s).
    + simpl. rewrite map_app. simpl. rewrite toObject_fromObject. lia.
  - rewrite canvas_canvas_add. simpl. rewrite map_app. simpl.
    rewrite toObject_fromObject, <- app_assoc. exact Hc.
Qed.

Lemma objects_after_clear (bg : string) (s : App) :
  objects (canvas (on_canvas (set_backgroundColor bg) (canvas_clear s))) = [].
Proof.
  unfold on_canvas. cbn [canvas set_canvas objects set_backgroundColor].
  apply canvas_clear_objects.
Qed.

Lemma toJSON_after_clear (bg : string) (s : App) :
  toJSON (canvas (on_canvas (set_backgroundColor bg) (canvas_clear s)))
  = (bg, []).
Proof.
  unfold toJSON, on_canvas.
  cbn [canvas set_canvas objects backgroundColor set_backgroundColor].
  now rewrite canvas_clear_objects.
Qed.

Lemma scene_inv_after_clear (bg : string) (s : App) :
  scene_inv s -> bg = "#e5e7eb"%string ->
  scene_inv (on_canvas (set_backgroundColor bg) (canvas_clear s)).
Proof.
  intros I Hb. split; [|apply (history_inv_canvas_clear s I)].
  rewrite toJSON_after_clear. split; [exact Hb | apply Nat.le_0_l].
Qed.

Lemma scene_inv_materialize (snap : Snapshot) (s : App) :
  scene_inv s -> good_snapshot snap -> scene_inv (materialize snap s).
Proof.
  intros I [Hb Hc]. unfold materialize.
  apply scene_inv_insert_revived.
  - now apply scene_inv_after_clear.
  - rewrite objects_after_clear. exact Hc.
Qed.

Lemma Forall_removelast {A : Type} (P : A -> Prop) (l : list A) :
  Forall P l -> Forall P (removelast l).
Proof.
  induction 1 as [|a l Ha Hl IH]; [constructor|].
  destruct l; [constructor|]. now constructor.
Qed.

Lemma Forall_last {A : Type} (P : A -> Prop) (l : list A) (d : A) :
  l <> [] -> Forall P l -> P (last l d).
Proof.
  intros Hne H. rewrite Forall_forall in H. apply H.
  destruct l as [|a l]; [congruence|].
  rewrite (app_removelast_last d (l := a :: l)) at 2 by discriminate.
  apply in_or_app. right. now left.
Qed.

Lemma scene_inv_handleUndo (s : App) : scene_inv s -> scene_inv (handleUndo s).
Proof.
  intros (Hg & Hh & Hp). unfold handleUndo.
  destruct (Nat.leb_spec (List.length (historyRef s)) 1) as [Hl|Hl];
    [exact (conj Hg (conj Hh Hp))|].
  unfold scene_inv, history_inv. simpl.
  split; [exact Hg|]. split; [now apply Forall_removelast|].
  apply Forall_app. split; [exact Hp|]. constructor; [|constructor].
  apply Forall_last; [|now apply Forall_removelast].
  intros E. apply (f_equal (@List.length _)) in E.
  rewrite removelast_length in E. simpl in E. lia.
Qed.

Lemma scene_inv_load_complete (s : App) :
  scene_inv s -> scene_inv (load_complete s).
Proof.
  intros I. unfold load_complete.
  destruct (pendingLoads s) as [|snap rest] eqn:E; [exact I|].
  unfold undo_callback.
  apply (scene_inv_fields (materialize snap (set_pendingLoads rest s)));
    try reflexivity.
  destruct I as (Hg & Hh & Hp). rewrite E in Hp. inversion Hp; subst.
  apply scene_inv_materialize; [|assumption].
  split; [exact Hg|]. split; assumption.
Qed.

Lemma scene_inv_tool_effect (s : App) : scene_inv s -> scene_inv (tool_effect s).
Proof.
  intros I. unfold tool_effect.
  destruct (is_arrow _); (apply scene_inv_on_canvas_same; [|exact I]);
    intros c; unfold toJSON, forEachObject; simpl; f_equal;
    rewrite map_map; apply map_ext; intros o; reflexivity.
Qed.

Lemma scene_inv_setTool (t : Tool) (s : App) : scene_inv s -> scene_inv (setTool t s).
Proof.
  intros I. unfold setTool. destruct (Bool.eqb _ _); [exact I|].
  apply scene_inv_tool_effect. now apply (scene_inv_fields s).
Qed.

Lemma scene_inv_mouse_down a b x y p (s : App) :
  scene_inv s -> scene_inv (mouse_down a b x y p s).
Proof.
  intros I. unfold mouse_down.
  destruct (a || _); [|destruct (is_arrow _); [|exact I]];
    (apply scene_inv_on_canvas_same; [reflexivity|]);
    now apply (scene_inv_fields s).
Qed.

Lemma scene_inv_mouse_move x y p (s : App) :
  scene_inv s -> scene_inv (mouse_move x y p s).
Proof.
  intros I. unfold mouse_move.
  destruct (isPanning s).
  { apply (scene_inv_fields (on_canvas (fun c =>
       setViewportTransform (zoom c) (vpt4 c + (x - lastPosX s))
                            (vpt5 c + (y - lastPosY s)) c) s));
      try reflexivity.
    apply scene_inv_on_canvas_same; [reflexivity | exact I]. }
  destruct (arrowStartRef s) as [start|]; [|exact I].
  destruct (is_arrow (tool s) && isDrawingRef s); [|exact I].
  cbv zeta.
  set (s1 := match tempArrowRef s with
             | Some old => canvas_remove old s
             | None => s end).
  assert (I1 : scene_inv s1).
  { subst s1. destruct (tempArrowRef s);
      [apply scene_inv_canvas_remove|]; exact I. }
  clearbody s1.
  destruct (truthy _); [|exact I1].
  apply scene_inv_canvas_add_other; [reflexivity|].
  now apply (scene_inv_fields s1).
Qed.

Lemma filter_is_image_map (f : FabricObject -> FabricObject)
    (l : list FabricObject) :
  (forall o, is_image (f o) = is_image o) ->
  filter is_image (map f l) = map f (filter is_image l).
Proof.
  intros Hf. induction l as [|o l IH]; [reflexivity|]. simpl.
  rewrite Hf. destruct (is_image o); simpl; now rewrite IH.
Qed.

Lemma toJSON_object_set_type (id : nat) (g : FabricObject -> FabricObject)
    (c : Canvas) :
  (forall o, otype (g o) = otype o) ->
  good_snapshot (toJSON c) -> good_snapshot (toJSON (object_set id g c)).
Proof.
  intros Hg [Hb Hc]. split; [exact Hb|]. simpl in *.
  rewrite count_images_filter in *.
  rewrite filter_is_image_map; [now rewrite length_map|].
  intros o. destruct (oid o =? id)%nat; [|reflexivity].
  unfold is_image. now rewrite Hg.
Qed.

Lemma scene_inv_mouse_up (s : App) : scene_inv s -> scene_inv (mouse_up s).
Proof.
  intros I. unfold mouse_up.
  destruct (isPanning s).
  { apply scene_inv_on_canvas_same; [reflexivity|].
    now apply (scene_inv_fields s). }
  destruct (is_arrow (tool s) && isDrawingRef s); [|exact I].
  cbv zeta.
  change (tempArrowRef (set_isDrawingRef false s)) with (tempArrowRef s).
  destruct (tempArrowRef s) as [id|].
  - apply (scene_inv_fields
             (saveHistory_mount
                (on_canvas (object_set id finalize_arrow)
                   (set_isDrawingRef false s)))); try reflexivity.
    apply scene_inv_saveHistory.
    apply scene_inv_on_canvas;
      [apply toJSON_object_set_type; reflexivity|].
    now apply (scene_inv_fields s).
  - now apply (scene_inv_fields s).
Qed.

Lemma scene_inv_handleDeleteSelected (s : App) :
  scene_inv s -> scene_inv (handleDeleteSelected s).
Proof.
  intros I. unfold handleDeleteSelected.
  destruct (activeObjects (canvas s)); [exact I|].
  apply scene_inv_canvas_remove_all.
  apply scene_inv_on_canvas_same; [reflexivity | exact I].
Qed.

Lemma scene_inv_handleKeyDown k c m (s : App) :
  scene_inv s -> scene_inv (handleKeyDown k c m s).
Proof.
  intros I. unfold handleKeyDown.
  set (s1 := if is_delete k then _ else s).
  assert (I1 : scene_inv s1).
  { subst s1. destruct (is_delete k); [|exact I].
    destruct (activeObjects (canvas s)); [exact I|].
    destruct (negb _); [apply scene_inv_handleDeleteSelected|]; exact I. }
  clearbody s1.
  set (s2 := if (c || m) && is_z k then _ else s1).
  assert (I2 : scene_inv s2).
  { subst s2. destruct ((c || m) && is_z k);
      [apply scene_inv_handleUndo|]; exact I1. }
  clearbody s2.
  destruct (is_escape k); [|exact I2].
  destruct (isDrawingRef s2); [|now apply scene_inv_setTool].
  cbv zeta.
  set (s3 := match tempArrowRef s2 with
             | Some id => canvas_remove id s2
             | None => s2 end).
  assert (I3 : scene_inv s3).
  { subst s3. destruct (tempArrowRef s2);
      [apply scene_inv_canvas_remove|]; exact I2. }
  clearbody s3. now apply (scene_inv_fields s3).
Qed.

Lemma scene_inv_addPiece (s : App) : scene_inv s -> scene_inv (addPiece s).
Proof.
  intros I. unfold addPiece. cbv zeta.
  match goal with |- scene_inv (if _ then setTool _ ?x else _) =>
    assert (H1 : scene_inv x) end.
  { apply scene_inv_saveHistory.
    apply scene_inv_on_canvas_same; [reflexivity|].
    apply scene_inv_canvas_add_other; [reflexivity|].
    now apply (scene_inv_fields s). }
  destruct (is_arrow _); [apply scene_inv_setTool|]; exact H1.
Qed.

Lemma scene_inv_addText (s : App) : scene_inv s -> scene_inv (addText s).
Proof.
  intros I. unfold addText. cbv zeta.
  match goal with |- scene_inv (if _ then setTool _ ?x else _) =>
    assert (H1 : scene_inv x) end.
  { apply scene_inv_saveHistory.
    apply scene_inv_on_canvas_same; [reflexivity|].
    apply scene_inv_canvas_add_other; [reflexivity|].
    now apply (scene_inv_fields s). }
  destruct (is_arrow _); [apply scene_inv_setTool|]; exact H1.
Qed.

Lemma scene_inv_handleClearBoard b (s : App) :
  scene_inv s -> scene_inv (handleClearBoard b s).
Proof.
  intros I. unfold handleClearBoard. destruct b; [|exact I]. cbv zeta.
  apply scene_inv_saveHistory. now apply scene_inv_after_clear.
Qed.

(** Removing the images of a canvas whose objects are distinct. *)

Lemma objects_canvas_remove (id : nat) (s : App) :
  objects (canvas (canvas_remove id s)) = remove_oid id (objects (canvas s)).
Proof.
  unfold canvas_remove, on_object_removed, saveHistory_mount.
  destruct (has_oid id (objects (canvas s))) eqn:E.
  - now rewrite saveHistory_canvas.
  - now rewrite remove_oid_absent.
Qed.

Lemma objects_canvas_remove_all (ids : list nat) (s : App) :
  objects (canvas (canvas_remove_all ids s))
  = remove_oids ids (objects (canvas s)).
Proof.
  unfold canvas_remove_all, remove_oids. revert s.
  induction ids as [|id ids IH]; intros s; simpl; [reflexivity|].
  now rewrite IH, objects_canvas_remove.
Qed.

Lemma remove_oids_cons_other (ids : list nat) (o : FabricObject)
    (l : list FabricObject) :
  ~ In (oid o) ids -> remove_oids ids (o :: l) = o :: remove_oids ids l.
Proof.
  unfold remove_oids. revert l.
  induction ids as [|id ids IH]; intros l Hn; simpl; [reflexivity|].
  destruct (Nat.eqb_spec (oid o) id) as [E|N].
  - exfalso. apply Hn. now left.
  - apply IH. intros Hin. apply Hn. now right.
Qed.

Lemma remove_oids_images (l : list FabricObject) :
  NoDup (map oid l) ->
  remove_oids (map oid (filter is_image l)) l = filter not_image l.
Proof.
  induction l as [|o l IH]; intros Hnd; [reflexivity|].
  inversion Hnd as [|x xs Hx Hnd']; subst.
  simpl. unfold not_image at 1. destruct (is_image o) eqn:E; simpl.
  - unfold remove_oids. simpl. rewrite Nat.eqb_refl. now apply IH.
  - rewrite remove_oids_cons_other; [now rewrite IH|].
    intros Hin. apply Hx. apply in_map_iff in Hin.
    destruct Hin as (o' & Eo & Hin). apply filter_In in Hin.
    apply in_map_iff. exists o'. tauto.
Qed.

Lemma filter_not_image_count (l : list FabricObject) :
  count_images (map toObject (filter not_image l)) = 0%nat.
Proof.
  rewrite count_images_filter.
  induction l as [|o l IH]; [reflexivity|]. simpl. unfold not_image at 1.
  destruct (is_image o) eqn:E; simpl; [exact IH|]. now rewrite E.
Qed.

Lemma find_oid_split (id : nat) (l : list FabricObject) (o : FabricObject) :
  find_oid id l = Some o ->
  exists l1 l2, l = l1 ++ o :: l2 /\ remove_oid id l = l1 ++ l2.
Proof.
  unfold find_oid. induction l as [|a l IH]; [discriminate|]. simpl.
  destruct (oid a =? id)%nat.
  - intros E. injection E as ->. now exists [], l.
  - intros E. destruct (IH E) as (l1 & l2 & -> & ->).
    now exists (a :: l1), l2.
Qed.

Lemma good_sendToBack (id : nat) (c : Canvas) :
  good_snapshot (toJSON c) -> good_snapshot (toJSON (sendToBack id c)).
Proof.
  intros [Hb Hc]. unfold sendToBack.
  destruct (find_oid id (objects c)) as [o|] eqn:E; [|now split].
  split; [exact Hb|]. simpl in *.
  destruct (find_oid_split _ _ _ E) as (l1 & l2 & E1 & E2).
  rewrite E2. rewrite E1 in Hc.
  change (toObject o :: map toObject (l1 ++ l2))
    with (map toObject ([o] ++ (l1 ++ l2))).
  rewrite !map_app, !count_images_app in *. simpl map in Hc.
  change (toObject o :: map toObject l2)
    with ([toObject o] ++ map toObject l2) in Hc.
  rewrite count_images_app in Hc. simpl map. lia.
Qed.

Lemma scene_inv_image_loaded b d w h (s : App) :
  wf s -> scene_inv s -> scene_inv (image_loaded b d w h s).
Proof.
  intros Hw I. unfold image_loaded. cbv zeta.
  apply scene_inv_saveHistory.
  apply scene_inv_on_canvas; [apply good_sendToBack|].
  set (s0 := set_nextOid _ (on_canvas (setViewportTransform 1 0 0) s)).
  assert (I0 : scene_inv s0).
  { subst s0. apply (scene_inv_fields (on_canvas (setViewportTransform 1 0 0) s));
      try reflexivity.
    apply scene_inv_on_canvas_same; [reflexivity | exact I]. }
  apply scene_inv_canvas_add; [now apply scene_inv_canvas_remove_all|].
  rewrite objects_canvas_remove_all.
  change (objects (canvas s0)) with (objects (canvas s)).
  rewrite remove_oids_images by apply Hw.
  rewrite map_app, count_images_app, filter_not_image_count. reflexivity.
Qed.

Lemma scene_inv_user_transform id l t (s : App) :
  scene_inv s -> scene_inv (user_transform id l t s).
Proof.
  intros I. unfold user_transform, on_object_modified, saveHistory_mount.
  destruct (has_oid _ _); [|exact I].
  apply scene_inv_saveHistory.
  apply scene_inv_on_canvas; [apply toJSON_object_set_type; reflexivity | exact I].
Qed.

Lemma scene_inv_user_exit_editing id t (s : App) :
  scene_inv s -> scene_inv (user_exit_editing id t s).
Proof.
  intros I. unfold user_exit_editing, on_object_modified, saveHistory_mount.
  destruct (has_oid _ _); [|exact I].
  apply scene_inv_saveHistory.
  apply scene_inv_on_canvas; [apply toJSON_object_set_type; reflexivity | exact I].
Qed.

Lemma scene_inv_user_enter_editing id (s : App) :
  scene_inv s -> scene_inv (user_enter_editing id s).
Proof.
  intros I. unfold user_enter_editing.
  apply scene_inv_on_canvas; [|exact I]. intros Hg.
  refine (toJSON_object_set_type id
            (fun o => match otype o with
                      | i_text => set_editing true o
                      | _ => o
                      end) (canvas s) _ Hg).
  intros o. destruct (otype o) eqn:E; simpl; congruence.
Qed.

Lemma scene_inv_step (e : Event) (s : App) :
  wf s -> scene_inv s -> scene_inv (step e s).
Proof.
  intros Hw I.
  destruct e; cbn [step];
    [ now apply scene_inv_mouse_down
    | now apply scene_inv_mouse_move
    | now apply scene_inv_mouse_up
    | apply scene_inv_on_canvas_same; [reflexivity | exact I]
    | now apply scene_inv_handleKeyDown
    | apply scene_inv_on_canvas_same; [reflexivity | exact I]
    | now apply scene_inv_setTool
    | now apply (scene_inv_fields s)
    | now apply (scene_inv_fields s)
    | now apply (scene_inv_fields s)
    | now apply scene_inv_addPiece
    | now apply scene_inv_addText
    | now apply scene_inv_handleClearBoard
    | now apply scene_inv_handleUndo
    | now apply scene_inv_handleDeleteSelected
    | apply scene_inv_on_canvas_same; [reflexivity | exact I]
    | now apply scene_inv_image_loaded
    | now apply scene_inv_load_complete
    | apply scene_inv_on_canvas_same; [reflexivity | exact I]
    | now apply scene_inv_user_transform
    | now apply scene_inv_user_enter_editing
    | now apply scene_inv_user_exit_editing ].
Qed.

Lemma reachable_scene_inv (s : App) : reachable s -> scene_inv s.
Proof.
  induction 1 as [w h | s e Hs IH].
  - unfold mount. apply scene_inv_saveHistory.
    split; [split; [reflexivity | simpl; apply Nat.le_0_l]|].
    split; constructor.
  - apply scene_inv_step; [now apply reachable_wf | exact IH].
Qed.

(** X8. The background colour of the canvas is [#e5e7eb] in every
    reachable state, and in every snapshot of the history and every
    snapshot being loaded: [canvas.clear()] unsets it, and the handlers set
    it again before anything is committed. *)
Theorem background_color_is_constant (s : App) :
  reachable s ->
  backgroundColor (canvas s) = "#e5e7eb"%string /\
  (forall snap, In snap (historyRef s) -> fst snap = "#e5e7eb"%string) /\
  (forall snap, In snap (pendingLoads s) -> fst snap = "#e5e7eb"%string).
Proof.
  intros Hr. destruct (reachable_scene_inv s Hr) as ([Hb _] & Hh & Hp).
  split; [exact Hb|]. rewrite Forall_forall in Hh, Hp.
  split; intros snap Hin; [apply (Hh snap Hin) | apply (Hp snap Hin)].
Qed.

Lemma background_color_is_constant_witness :
  reachable (mount 800 600) /\
  backgroundColor (canvas (mount 800 600)) = "#e5e7eb"%string.
Proof.
  split; [constructor|].
  apply (background_color_is_constant (mount 800 600)). constructor.
Defined.

(** X9. There is at most one image on the canvas in every reachable state,
    and at most one in every snapshot of the history, also across undo. *)
Theorem at_most_one_background_image (s : App) :
  reachable s ->
  (List.length (filter is_image (objects (canvas s))) <= 1)%nat /\
  (forall snap, In snap (historyRef s) -> (count_images (snd snap) <= 1)%nat).
Proof.
  intros Hr. destruct (reachable_scene_inv s Hr) as ([_ Hc] & Hh & _).
  split.
  - simpl in Hc. now rewrite count_images_filter in Hc.
  - rewrite Forall_forall in Hh. intros snap Hin. apply (Hh snap Hin).
Qed.

Lemma at_most_one_background_image_witness :
  reachable (mount 800 600) /\
  (List.length (filter is_image (objects (canvas (mount 800 600)))) <= 1)%nat.
Proof.
  split; [constructor|].
  apply (at_most_one_background_image (mount 800 600)). constructor.
Defined.

(** ** The top of the history and the scene *)

Lemma synced_commit (s : App) : synced (saveHistory false s).
Proof.
  unfold synced. rewrite saveHistory_historyRef, saveHistory_canvas.
  apply commit_top.
Qed.

Lemma settles_refl (s : App) : settles s s.
Proof. split; auto. Qed.

Lemma settles_trans (s1 s2 s3 : App) :
  settles s1 s2 -> settles s2 s3 -> settles s1 s3.
Proof. intros [E1 H1] [E2 H2]. split; [congruence | auto]. Qed.

Lemma settles_saveHistory (b : bool) (s0 s : App) :
  settles s0 s -> settles s0 (saveHistory b s).
Proof.
  intros [E H]. split; [now rewrite saveHistory_isDrawingRef|].
  intros Hs. destruct b; [now apply H | apply synced_commit].
Qed.

Lemma settles_fields (s0 s s' : App) :
  isDrawingRef s' = isDrawingRef s -> historyRef s' = historyRef s ->
  toJSON (canvas s') = toJSON (canvas s) ->
  settles s0 s -> settles s0 s'.
Proof.
  intros Ed Eh Ec [E H]. split; [congruence|].
  intros Hs. unfold synced. rewrite Eh, Ec. now apply H.
Qed.

Lemma settles_on_canvas (f : Canvas -> Canvas) (s0 s : App) :
  (forall c, toJSON (f c) = toJSON c) ->
  settles s0 s -> settles s0 (on_canvas f s).
Proof. intros Hf. apply settles_fields; try reflexivity. apply Hf. Qed.

Lemma settles_canvas_remove (id : nat) (s0 s : App) :
  settles s0 s -> settles s0 (canvas_remove id s).
Proof.
  intros [E H]. unfold canvas_remove, on_object_removed, saveHistory_mount.
  destruct (has_oid _ _); [|now split].
  split; [now rewrite saveHistory_isDrawingRef|].
  intros _. apply synced_commit.
Qed.

Lemma settles_canvas_remove_all (ids : list nat) (s0 s : App) :
  settles s0 s -> settles s0 (canvas_remove_all ids s).
Proof.
  unfold canvas_remove_all. revert s.
  induction ids as [|id ids IH]; intros s Hq; simpl; [exact Hq|].
  apply IH, settles_canvas_remove, Hq.
Qed.

(** Outside a drawing gesture [object:added] commits. *)
Lemma synced_canvas_add (o : FabricObject) (s : App) :
  isDrawingRef s = false ->
  synced (canvas_add o s) /\ isDrawingRef (canvas_add o s) = false.
Proof.
  intros Hd. unfold canvas_add, on_object_added, saveHistory_mount.
  cbn [isDrawingRef on_canvas set_canvas]. rewrite Hd. simpl negb. cbv iota.
  split; [apply synced_commit|]. now rewrite saveHistory_isDrawingRef.
Qed.

Lemma synced_insert_revived (js : list ObjJSON) (s : App) :
  isDrawingRef s = false -> synced s ->
  synced (insert_revived js s) /\ isDrawingRef (insert_revived js s) = false.
Proof.
  revert s. induction js as [|j js IH]; intros s Hd Hs; simpl; [now split|].
  destruct (synced_canvas_add (fromObject (nextOid s) j)
              (set_nextOid (S (nextOid s)) s) Hd) as [Hs' Hd'].
  now apply IH.
Qed.

Lemma backgroundColor_canvas_remove (id : nat) (s : App) :
  backgroundColor (canvas (canvas_remove id s)) = backgroundColor (canvas s).
Proof.
  unfold canvas_remove, on_object_removed, saveHistory_mount.
  destruct (has_oid _ _); [|reflexivity]. now rewrite saveHistory_canvas.
Qed.

Lemma backgroundColor_canvas_remove_all (ids : list nat) (s : App) :
  backgroundColor (canvas (canvas_remove_all ids s))
  = backgroundColor (canvas s).
Proof.
  unfold canvas_remove_all. revert s.
  induction ids as [|id ids IH]; intros s; simpl; [reflexivity|].
  now rewrite IH, backgroundColor_canvas_remove.
Qed.

(** After [canvas.clear()] and the background set again, the top of the
    history is the empty scene. *)
Lemma settles_clear (s : App) :
  settles s (on_canvas (set_backgroundColor (backgroundColor (canvas s)))
               (canvas_clear s)).
Proof.
  pose proof (settles_canvas_remove_all (map oid (objects (canvas s))) s
                (on_canvas (set_activeObjects []) s)) as [Ed Hs].
  { apply settles_on_canvas; [reflexivity | apply settles_refl]. }
  split; [exact Ed|]. intros H. specialize (Hs H).
  unfold synced in *. rewrite toJSON_after_clear.
  unfold canvas_clear.
  change (historyRef (on_canvas ?f (on_canvas ?g ?t))) with (historyRef t).
  rewrite Hs. unfold toJSON.
  rewrite backgroundColor_canvas_remove_all.
  pose proof (canvas_clear_objects s) as Eo. unfold canvas_clear in Eo.
  change (objects (canvas (on_canvas ?f ?t))) with (objects (canvas t)) in Eo.
  now rewrite Eo.
Qed.

Lemma settles_materialize (snap : Snapshot) (s : App) :
  isDrawingRef s = false -> fst snap = backgroundColor (canvas s) ->
  settles s (materialize snap s).
Proof.
  intros Hd Hb. unfold materialize. rewrite Hb.
  destruct (settles_clear s) as [Ed Hs].
  rewrite Hd in Ed.
  split.
  - rewrite Hd.
    destruct (snd snap) as [|j js]; [exact Ed|].
    simpl insert_revived.
    match goal with |- isDrawingRef (insert_revived js (canvas_add ?o ?t)) = _ =>
      destruct (synced_canvas_add o t Ed) as [Hs' Hd'];
      apply (synced_insert_revived js _ Hd' Hs')
    end.
  - intros H. now apply synced_insert_revived; [|apply Hs].
Qed.

Lemma settles_tool_effect (s0 s : App) : settles s0 s -> settles s0 (tool_effect s).
Proof.
  intros Hq. unfold tool_effect.
  destruct (is_arrow _); (apply settles_on_canvas; [|exact Hq]);
    intros c; unfold toJSON, forEachObject; simpl; f_equal;
    rewrite map_map; apply map_ext; intros o; reflexivity.
Qed.

Lemma settles_setTool (t : Tool) (s0 s : App) : settles s0 s -> settles s0 (setTool t s).
Proof.
  intros Hq. unfold setTool. destruct (Bool.eqb _ _); [exact Hq|].
  apply settles_tool_effect. now apply (settles_fields s0 s).
Qed.

Lemma toJSON_object_set_same (id : nat) (g : FabricObject -> FabricObject)
    (c : Canvas) :
  (forall o, toObject (g o) = toObject o) ->
  toJSON (object_set id g c) = toJSON c.
Proof.
  intros Hg. unfold toJSON, object_set. simpl. f_equal.
  rewrite map_map. apply map_ext. intros o.
  destruct (oid o =? id)%nat; [apply Hg | reflexivity].
Qed.

Lemma settles_handleDeleteSelected (s0 s : App) :
  settles s0 s -> settles s0 (handleDeleteSelected s).
Proof.
  intros Hq. unfold handleDeleteSelected.
  destruct (activeObjects (canvas s)); [exact Hq|].
  apply settles_canvas_remove_all.
  apply settles_on_canvas; [reflexivity | exact Hq].
Qed.

Lemma synced_add_object (o : FabricObject) (act : list nat) (b was : bool)
    (s : App) :
  isDrawingRef s = false ->
  synced (let s1 := canvas_add o (set_nextOid (S (nextOid s)) s) in
          let s2 := on_canvas (set_activeObjects act) s1 in
          let s3 := saveHistory b s2 in
          if was then setTool select s3 else s3).
Proof.
  intros Hd. cbv zeta.
  destruct (synced_canvas_add o (set_nextOid (S (nextOid s)) s) Hd) as [Hs _].
  set (s1 := canvas_add o _) in *.
  assert (H : settles s1 (saveHistory b (on_canvas (set_activeObjects act) s1))).
  { apply settles_saveHistory, settles_on_canvas;
      [reflexivity | apply settles_refl]. }
  destruct was; [apply (settles_setTool select s1) in H|]; now apply H.
Qed.

Lemma synced_handleKeyDown k c m (s : App) :
  isDrawingRef s = false -> (c || m) && is_z k = false ->
  synced s -> synced (handleKeyDown k c m s).
Proof.
  intros Hd Hz Hs. unfold handleKeyDown. rewrite Hz.
  set (s1 := if is_delete k then _ else s).
  assert (H1 : settles s s1).
  { subst s1. destruct (is_delete k); [|apply settles_refl].
    destruct (activeObjects (canvas s)); [apply settles_refl|].
    destruct (negb _); [|apply settles_refl].
    apply settles_handleDeleteSelected, settles_refl. }
  clearbody s1. destruct H1 as [E1 H1]. rewrite Hd in E1.
  destruct (is_escape k); [|now apply H1].
  rewrite E1.
  now apply (settles_setTool select s1 s1 (settles_refl s1)), H1.
Qed.

(** X10. Outside a drawing gesture, every event other than a request for
    undo (and the completion of an upload whose [saveHistory] is
    suppressed) leaves the top of the history equal to the serialised
    scene, if it was so before: what the event changes in the scene, it
    commits.  This includes the completion of the load of an undo. *)
Theorem history_top_tracks_scene (s : App) (e : Event) :
  reachable s -> isDrawingRef s = false -> synced s ->
  undo_request e = false -> stale_upload e = false ->
  synced (step e s).
Proof.
  intros Hr Hd Hs Hu Hi.
  destruct e; simpl in *.
  - (* MouseDown *)
    unfold mouse_down.
    destruct (altKey || _); [|destruct (is_arrow _); [|exact Hs]]; exact Hs.
  - (* MouseMove *)
    unfold mouse_move. destruct (isPanning s); [exact Hs|].
    destruct (arrowStartRef s); [|exact Hs].
    rewrite Hd, andb_false_r. exact Hs.
  - (* MouseUp *)
    unfold mouse_up. destruct (isPanning s); [exact Hs|].
    rewrite Hd, andb_false_r. exact Hs.
  - exact Hs.
  - now apply synced_handleKeyDown.
  - exact Hs.
  - now apply (settles_setTool t s s (settles_refl s)).
  - exact Hs.
  - exact Hs.
  - exact Hs.
  - unfold addPiece. cbv zeta. now apply (synced_add_object _ _ _ _ s).
  - unfold addText. cbv zeta. now apply (synced_add_object _ _ _ _ s).
  - (* ClickClear *)
    unfold handleClearBoard. destruct confirmed; [|exact Hs]. cbv zeta.
    destruct (reachable_scene_inv s Hr) as [[Hb _] _]. simpl in Hb.
    rewrite <- Hb.
    now apply (settles_saveHistory _ s _ (settles_clear s)).
  - discriminate.
  - now apply (settles_handleDeleteSelected s s (settles_refl s)).
  - exact Hs.
  - (* ImageLoaded *)
    subst render_isProcessing. unfold image_loaded. cbv zeta.
    apply synced_commit.
  - (* LoadComplete *)
    unfold load_complete.
    destruct (pendingLoads s) as [|snap rest] eqn:E; [exact Hs|].
    unfold undo_callback.
    destruct (reachable_scene_inv s Hr) as ([Hb _] & _ & Hp).
    rewrite E in Hp. inversion Hp as [|x l [Hx _] Hl]; subst.
    simpl in Hb.
    assert (H : settles (set_pendingLoads rest s)
                  (materialize snap (set_pendingLoads rest s))).
    { apply settles_materialize; [exact Hd|]. simpl. congruence. }
    destruct H as [_ H]. apply (H Hs).
  - exact Hs.
  - unfold user_transform, on_object_modified, saveHistory_mount.
    destruct (has_oid _ _); [apply synced_commit | exact Hs].
  - unfold user_enter_editing. unfold synced in *. simpl.
    rewrite Hs. unfold toJSON. simpl. f_equal.
    rewrite map_map. apply map_ext. intros o.
    destruct (oid o =? id)%nat; [|reflexivity].
    destruct (otype o); reflexivity.
  - unfold user_exit_editing, on_object_modified, saveHistory_mount.
    destruct (has_oid _ _); [apply synced_commit | exact Hs].
Qed.

Lemma history_top_tracks_scene_witness :
  reachable (mount 800 600) /\ synced (mount 800 600) /\
  synced (step ClickAddPiece (mount 800 600)).
Proof.
  split; [constructor|]. split; [reflexivity|].
  apply (history_top_tracks_scene (mount 800 600) ClickAddPiece);
    [constructor | reflexivity | reflexivity | reflexivity | reflexivity].
Defined.

(** ** Adding a marker or a note, and undoing *)

Lemma lastn_snoc (h : list Snapshot) (x : Snapshot) :
  h <> [] -> (List.length h <= 50)%nat -> last h empty_snapshot <> x ->
  commit h x = lastn 50 (h ++ [x]).
Proof.
  intros Hne Hl Hx.
  apply (fold_commit_distinct [x] h Hne Hl). now split.
Qed.

Lemma lastn_snoc_pop (h : list Snapshot) (x : Snapshot) :
  h <> [] -> (List.length h <= 50)%nat ->
  (2 <= List.length (lastn 50 (h ++ [x])))%nat /\
  last (removelast (lastn 50 (h ++ [x]))) empty_snapshot
  = last h empty_snapshot.
Proof.
  intros Hne Hl. unfold lastn. rewrite length_app. simpl List.length.
  destruct (Nat.eq_dec (List.length h) 50) as [E|N].
  - replace (List.length h + 1 - 50)%nat with 1%nat by lia.
    destruct h as [|a h]; [contradiction|]. simpl skipn.
    destruct h as [|b h]; [simpl in E; lia|].
    rewrite removelast_last. split.
    + rewrite length_app. simpl. lia.
    + reflexivity.
  - replace (List.length h + 1 - 50)%nat with 0%nat by lia. simpl skipn.
    rewrite removelast_last. split; [|reflexivity].
    rewrite length_app. simpl. destruct h; [contradiction | simpl; lia].
Qed.

(** An undo, once its load has completed, shows the snapshot under the
    top of the stack. *)
Lemma undo_shows_previous (s : App) :
  (2 <= List.length (historyRef s))%nat -> pendingLoads s = [] ->
  toJSON (canvas (undo s)) = last (removelast (historyRef s)) empty_snapshot.
Proof.
  intros H2 Hp. unfold undo, handleUndo.
  destruct (Nat.leb_spec (List.length (historyRef s)) 1) as [Hl|Hl]; [lia|].
  unfold load_complete. simpl. rewrite Hp. simpl.
  unfold undo_callback. simpl. apply materialize_toJSON.
Qed.

Lemma undo_restores (s s' : App) (x : Snapshot) :
  historyRef s <> [] -> (List.length (historyRef s) <= 50)%nat -> synced s ->
  pendingLoads s' = [] -> historyRef s' = lastn 50 (historyRef s ++ [x]) ->
  toJSON (canvas (undo s')) = toJSON (canvas s).
Proof.
  intros Hne Hl Hs Hp Hh.
  destruct (lastn_snoc_pop (historyRef s) x Hne Hl) as [H2 Hlast].
  rewrite undo_shows_previous by (rewrite ?Hh; assumption).
  rewrite Hh, Hlast. exact Hs.
Qed.

Lemma setTool_select_frame (s : App) :
  canvas (setTool select s)
  = (if is_arrow (tool s)
     then forEachObject (set_selectable true)
            (set_selection true (set_cursors "default" "move" (canvas s)))
     else canvas s) /\
  historyRef (setTool select s) = historyRef s /\
  pendingLoads (setTool select s) = pendingLoads s /\
  tool (setTool select s) = select.
Proof.
  unfold setTool. destruct (tool s) eqn:E; simpl; rewrite ?E; repeat split.
Qed.

Lemma toJSON_forEach_selectable (b : bool) (c : Canvas) :
  toJSON (forEachObject (set_selectable b) c) = toJSON c.
Proof.
  unfold toJSON, forEachObject. simpl. f_equal.
  rewrite map_map. apply map_ext. intros o. reflexivity.
Qed.

(** The common part of [addPiece] and [addText]. *)
Lemma add_object_once (o : FabricObject) (act : list nat) (b was : bool)
    (s : App) :
  historyRef s <> [] -> (List.length (historyRef s) <= 50)%nat ->
  isDrawingRef s = false -> synced s ->
  let s1 := canvas_add o (set_nextOid (S (nextOid s)) s) in
  let s2 := on_canvas (set_activeObjects act) s1 in
  let s3 := saveHistory b s2 in
  let s' := if was then setTool select s3 else s3 in
  toJSON (canvas s')
  = (backgroundColor (canvas s),
     map toObject (objects (canvas s)) ++ [toObject o]) /\
  activeObjects (canvas s') = act /\
  historyRef s' = lastn 50 (historyRef s ++ [toJSON (canvas s')]) /\
  pendingLoads s' = pendingLoads s /\
  (was = true \/ tool s = select -> tool s' = select).
Proof.
  intros Hne Hl Hd Hs. cbv zeta.
  set (json := ((backgroundColor (canvas s),
                 map toObject (objects (canvas s)) ++ [toObject o])
                : Snapshot)).
  set (s1 := canvas_add o (set_nextOid (S (nextOid s)) s)).
  assert (Hc1 : canvas s1 = set_objects (objects (canvas s) ++ [o]) (canvas s))
    by (unfold s1; rewrite canvas_canvas_add; reflexivity).
  assert (Hj1 : toJSON (canvas s1) = json).
  { rewrite Hc1. unfold toJSON, json. simpl. now rewrite map_app. }
  assert (Hx : last (historyRef s) empty_snapshot <> json).
  { rewrite Hs. unfold toJSON, json. intros E. injection E as E.
    apply (f_equal (@List.length _)) in E.
    rewrite length_app in E. simpl in E. lia. }
  assert (Hh1 : historyRef s1 = lastn 50 (historyRef s ++ [json])).
  { subst s1. unfold canvas_add, on_object_added, saveHistory_mount.
    cbn [isDrawingRef on_canvas set_canvas set_nextOid]. rewrite Hd.
    simpl negb. cbv iota. rewrite saveHistory_historyRef.
    cbn [historyRef canvas set_canvas set_nextOid].
    match goal with |- commit _ ?x = _ => replace x with json end.
    - now apply lastn_snoc.
    - unfold toJSON, json. simpl. now rewrite map_app. }
  assert (Hp1 : pendingLoads s1 = pendingLoads s /\ tool s1 = tool s).
  { subst s1. unfold canvas_add, on_object_added, saveHistory_mount.
    destruct (negb _); [|now split].
    match goal with |- context [saveHistory false ?t] =>
      destruct (saveHistory_cases false t) as [-> | [h ->]] end; now split. }
  set (s2 := on_canvas (set_activeObjects act) s1).
  assert (Hs2 : saveHistory b s2 = s2).
  { destruct b; [reflexivity|]. apply saveHistory_same.
    - subst s2. cbn [historyRef on_canvas set_canvas]. rewrite Hh1.
      destruct (lastn_snoc_pop (historyRef s) json Hne Hl) as [H2 _].
      intros E. rewrite E in H2. simpl in H2. lia.
    - subst s2. cbn [historyRef on_canvas set_canvas canvas].
      destruct (synced_canvas_add o (set_nextOid (S (nextOid s)) s) Hd)
        as [Hs1 _].
      fold s1 in Hs1. unfold synced in Hs1. rewrite Hs1. reflexivity. }
  rewrite Hs2.
  assert (F : toJSON (canvas s2) = json /\ activeObjects (canvas s2) = act /\
              historyRef s2 = lastn 50 (historyRef s ++ [json]) /\
              pendingLoads s2 = pendingLoads s /\ tool s2 = tool s).
  { subst s2. unfold on_canvas.
    cbn [historyRef set_canvas canvas pendingLoads tool activeObjects
         set_activeObjects].
    rewrite Hh1. repeat split; tauto. }
  clearbody s2. clear Hs2.
  destruct F as (Fj & Fa & Fh & Fp & Ft).
  destruct was.
  - destruct (setTool_select_frame s2) as (Ec & Eh & Ep & Et).
    assert (Ej : toJSON (canvas (setTool select s2)) = json).
    { rewrite Ec. destruct (is_arrow _); [|exact Fj].
      rewrite toJSON_forEach_selectable. exact Fj. }
    rewrite Ej, Eh, Ep. split; [reflexivity|].
    split; [rewrite Ec; destruct (is_arrow _); exact Fa|].
    split; [exact Fh|]. split; [exact Fp|]. intros _. exact Et.
  - rewrite Fj. split; [reflexivity|]. split; [exact Fa|].
    split; [exact Fh|]. split; [exact Fp|].
    intros [E|E]; [discriminate | congruence].
Qed.

Lemma viewport_center_on_screen (c : Canvas) :
  zoom c <> 0 -> to_screen c (viewport_center c) = (width c / 2, height c / 2).
Proof.
  intros Hz. unfold to_screen, viewport_center. simpl. f_equal; field; exact Hz.
Qed.

Lemma is_arrow_cases (t : Tool) : is_arrow t = true \/ t = select.
Proof. destruct t; auto. Qed.



(** X12. [addText], under the same conditions: one [NOTES] text is put in
    front at the scene point shown at the centre of the canvas, becomes
    the active object, the tool becomes [select], and exactly one history
    entry is appended. *)
Theorem addText_adds_one_note (s : App) :
  reachable s -> isDrawingRef s = false -> synced s ->
  let s' := step ClickAddText s in
  toJSON (canvas s')
  = (backgroundColor (canvas s),
     map toObject (objects (canvas s)) ++ [note_json s]) /\
  to_screen (canvas s) (j_left (note_json s), j_top (note_json s))
  = (width (canvas s) / 2, height (canvas s) / 2) /\
  activeObjects (canvas s') = [nextOid s] /\
  tool s' = select /\
  historyRef s' = lastn 50 (historyRef s ++ [toJSON (canvas s')]).
Proof.
  intros Hr Hd Hs. cbv zeta. simpl step. unfold addText. cbv zeta.
  match goal with
  | |- context [canvas_add ?o _] =>
      destruct (add_object_once o [nextOid s] (isProcessing s)
                  (is_arrow (tool s)) s
                  (reachable_nonempty s Hr)
                  (proj2 (reachable_length s Hr)) Hd Hs)
        as (Hj & Ha & Hh & _ & Ht)
  end.
  cbv zeta in Hj, Ha, Hh, Ht.
  split; [exact Hj|]. split; [|split; [exact Ha|split; [|exact Hh]]].
  - apply viewport_center_on_screen.
    destruct (reachable_control_inv s Hr) as [Hz _]. lra.
  - apply Ht. apply is_arrow_cases.
Qed.

Lemma addText_adds_one_note_witness :
  reachable (mount 800 600) /\ synced (mount 800 600) /\
  tool (step ClickAddText (mount 800 600)) = select.
Proof.
  split; [constructor|]. split; [reflexivity|].
  apply (addText_adds_one_note (mount 800 600));
    [constructor | reflexivity | reflexivity].
Defined.

Lemma run_undo (s : App) : run [ClickUndo; LoadComplete] s = undo s.
Proof. reflexivity. Qed.

Lemma run_then_undo (e : Event) (s : App) :
  run [e; ClickUndo; LoadComplete] s = undo (step e s).
Proof. reflexivity. Qed.

(** X13. Adding a marker or a note and then undoing (the load having
    completed) gives back the serialised scene there was before. *)
Theorem add_then_undo_restores_scene (s : App) :
  reachable s -> isDrawingRef s = false -> synced s -> pendingLoads s = [] ->
  toJSON (canvas (run [ClickAddPiece; ClickUndo; LoadComplete] s))
  = toJSON (canvas s) /\
  toJSON (canvas (run [ClickAddText; ClickUndo; LoadComplete] s))
  = toJSON (canvas s).
Proof.
  intros Hr Hd Hs Hp.
  pose proof (reachable_nonempty s Hr) as Hne.
  pose proof (proj2 (reachable_length s Hr)) as Hl.
  split.
  - rewrite run_then_undo. simpl step. unfold addPiece. cbv zeta.
    match goal with
    | |- context [canvas_add ?o _] =>
        destruct (add_object_once o [nextOid s] (isProcessing s)
                    (is_arrow (tool s)) s Hne Hl Hd Hs)
          as (_ & _ & Hh & Hp' & _)
    end.
    cbv zeta in Hh, Hp'.
    eapply undo_restores; eauto. congruence.
  - rewrite run_then_undo. simpl step. unfold addText. cbv zeta.
    match goal with
    | |- context [canvas_add ?o _] =>
        destruct (add_object_once o [nextOid s] (isProcessing s)
                    (is_arrow (tool s)) s Hne Hl Hd Hs)
          as (_ & _ & Hh & Hp' & _)
    end.
    cbv zeta in Hh, Hp'.
    eapply undo_restores; eauto. congruence.
Qed.

Lemma add_then_undo_restores_scene_witness :
  reachable (mount 800 600) /\ pendingLoads (mount 800 600) = [] /\
  toJSON (canvas (run [ClickAddPiece; ClickUndo; LoadComplete] (mount 800 600)))
  = toJSON (canvas (mount 800 600)).
Proof.
  split; [constructor|]. split; [reflexivity|].
  apply (add_then_undo_restores_scene (mount 800 600));
    [constructor | reflexivity | reflexivity | reflexivity].
Defined.

(** ** What a completed load leaves on the canvas *)






(** ** Cancelling or undoing an arrow *)

Lemma quiet_run_moves (moves : list Move) (s : App) :
  quiet s (run (map move_event moves) s).
Proof.
  revert s. induction moves as [|m moves IH]; intros s; [apply quiet_refl|].
  change (run (map move_event (m :: moves)) s)
    with (run (map move_event moves) (step (move_event m) s)).
  eapply quiet_trans; [|apply IH]. apply quiet_mouse_move.
Qed.

Lemma lastn_pop (l : list Snapshot) (x : Snapshot) :
  l <> [] ->
  (2 <= List.length (lastn 50 (l ++ [x])))%nat /\
  last (removelast (lastn 50 (l ++ [x]))) empty_snapshot
  = last l empty_snapshot.
Proof.
  intros Hne. unfold lastn. rewrite length_app. simpl List.length.
  set (k := (List.length l + 1 - 50)%nat).
  assert (Hk : (k < List.length l)%nat).
  { subst k. destruct l; [contradiction | simpl; lia]. }
  rewrite skipn_app.
  replace (k - List.length l)%nat with 0%nat by lia. simpl skipn.
  rewrite removelast_last.
  assert (Hl : List.length (skipn k l) = (List.length l - k)%nat)
    by apply length_skipn.
  split; [rewrite length_app; simpl; lia|].
  clearbody k. clear -Hk. revert k Hk. induction l as [|a l IH]; intros k Hk;
    [simpl in Hk; lia|].
  destruct k as [|k]; [reflexivity|].
  simpl skipn. simpl in Hk.
  rewrite IH by lia. destruct l; [simpl in Hk; lia | reflexivity].
Qed.

Lemma undo_after_commits (s : App) (l : list Snapshot) (x : Snapshot) :
  l <> [] -> pendingLoads s = [] -> historyRef s = lastn 50 (l ++ [x]) ->
  toJSON (canvas (undo s)) = last l empty_snapshot.
Proof.
  intros Hne Hp Hh. destruct (lastn_pop l x Hne) as [H2 Hlast].
  rewrite undo_shows_previous by (rewrite ?Hh; assumption).
  now rewrite Hh.
Qed.

(** ** Escape during a drawing gesture *)

Section Cancel.

Variable s : App.
Variable p0 : Point.
Hypothesis s_fresh : fresh s.
Hypothesis s_history : historyRef s <> [].
Hypothesis s_top : last (historyRef s) empty_snapshot = toJSON (canvas s).

Lemma escape_drawing (t : App) (c m : bool) :
  drawing s t p0 -> preview_kind s t ->
  let t' := step (KeyDown Escape c m) t in
  objects (canvas t') = objects (canvas s) /\
  historyRef t' = historyRef s /\
  isDrawingRef t' = false /\ tempArrowRef t' = None /\
  tool t' = arrow /\ isPanning t' = false.
Proof.
  intros (Htool & Hpan & Hdraw & Hstart & Hh & Hbg & Hn) Hp.
  cbv zeta. simpl step. unfold handleKeyDown. simpl is_delete. cbv iota.
  simpl is_z. rewrite andb_false_r. simpl is_escape. cbv iota.
  rewrite Hdraw.
  destruct Hp as [[Ho Hs] | [o (Ht & Hid & Ho)]].
  - destruct (tempArrowRef t) as [id|] eqn:Et.
    + unfold canvas_remove. rewrite Ho, fresh_has_oid by (auto; lia).
      simpl. now repeat split.
    + simpl. now repeat split.
  - rewrite Ht. set (id := oid o) in *.
    assert (Hpres : has_oid id (objects (canvas t)) = true).
    { rewrite Ho, has_oid_app. simpl. fold id. rewrite Nat.eqb_refl.
      now rewrite orb_true_r. }
    assert (Hrem : remove_oid id (objects (canvas t)) = objects (canvas s)).
    { rewrite Ho. apply remove_oid_last; [|reflexivity].
      apply fresh_has_oid; [exact s_fresh | lia]. }
    assert (Ecr : canvas_remove id t
                  = on_canvas (fun c =>
                      set_activeObjects
                        (match activeObjects c with
                         | [a] => if (a =? id)%nat then [] else [a]
                         | l => l
                         end)
                        (set_objects (remove_oid id (objects c)) c)) t).
    { unfold canvas_remove, on_object_removed, saveHistory_mount.
      rewrite Hpres. apply saveHistory_same; simpl.
      - now rewrite Hh.
      - rewrite Hh, s_top. unfold toJSON. simpl. now rewrite Hrem, Hbg. }
    rewrite Ecr. simpl. rewrite Hrem. now repeat split.
Qed.

End Cancel.

Lemma idle_pointer_inert (t : App) (later : list Move) :
  isPanning t = false -> isDrawingRef t = false ->
  run (map move_event later ++ [MouseUp]) t = t.
Proof.
  intros Hpan Hdraw. rewrite run_app.
  assert (E : run (map move_event later) t = t).
  { induction later as [|m later IH]; [reflexivity|].
    change (run (map move_event (m :: later)) t)
      with (run (map move_event later) (step (move_event m) t)).
    replace (step (move_event m) t) with t; [exact IH|].
    unfold move_event. simpl. unfold mouse_move. rewrite Hpan, Hdraw.
    destruct (arrowStartRef t); [now rewrite andb_false_r | reflexivity]. }
  rewrite E. change (run [MouseUp] t) with (mouse_up t).
  unfold mouse_up. now rewrite Hpan, Hdraw, andb_false_r.
Qed.

(** X15. Escape during an arrow-drawing gesture cancels it: the preview is
    removed, objects and history are those of the start of the gesture,
    the tool stays [arrow], and the pointer-moves and the pointer-up that
    follow change nothing. *)
Theorem escape_cancels_arrow (s : App) (button : nat) (x0 y0 : R)
    (p0 : Point) (moves later : list Move) (c m : bool) :
  gesture_start s -> button <> 1%nat ->
  let t := run (map move_event moves)
               (step (MouseDown false button x0 y0 p0) s) in
  let s' := step (KeyDown Escape c m) t in
  objects (canvas s') = objects (canvas s) /\
  historyRef s' = historyRef s /\
  isDrawingRef s' = false /\ tempArrowRef s' = None /\
  tool s' = arrow /\
  run (map move_event later ++ [MouseUp]) s' = s'.
Proof.
  intros Hg Hb. cbv zeta.
  destruct (mouse_down_drawing s button x0 y0 p0 Hg Hb) as (Hd0 & Hs0 & _).
  destruct Hg as (Hs & Htool & Hpan & Hdraw & Htemp & Htop).
  assert (Hf : fresh s) by (apply wf_fresh, reachable_wf, Hs).
  assert (Hne : historyRef s <> []) by now apply reachable_nonempty.
  destruct (drag_invariant s p0 Hf Hne Htop moves _ Hd0 (or_introl Hs0))
    as (Hd & Hk & _).
  destruct (escape_drawing s p0 Hf Hne Htop _ c m Hd Hk)
    as (Ho & Hh & Hdr & Htmp & Ht & Hp).
  repeat split; try assumption.
  now apply idle_pointer_inert.
Qed.

Lemma escape_cancels_arrow_witness :
  let s := run [ClickTool arrow] (mount 800 600) in
  let moves := [(50, 0, (50, 0)); (100, 0, (100, 0))] in
  let t := run (map move_event moves) (step (MouseDown false 0 0 0 (0, 0)) s) in
  gesture_start s /\
  objects (canvas (step (KeyDown Escape false false) t)) = objects (canvas s).
Proof.
  cbv zeta.
  assert (G : gesture_start (run [ClickTool arrow] (mount 800 600))).
  { split; [apply reachable_run; constructor|].
    eval_trace. repeat split. }
  split; [exact G|].
  apply (escape_cancels_arrow
           (run [ClickTool arrow] (mount 800 600)) 0 0 0 (0, 0)
           [(50, 0, (50, 0)); (100, 0, (100, 0))] [] false false G).
  discriminate.
Defined.

(** ** An arrow, then an undo *)

(** X16. A gesture that leaves an arrow adds one object, and an undo after
    it (the load having completed) gives back the serialised scene of the
    start of the gesture. *)
Theorem draw_then_undo_restores_scene (s : App) (button : nat) (x0 y0 : R)
    (p0 : Point) (moves : list Move) :
  gesture_start s -> pendingLoads s = [] -> button <> 1%nat ->
  let before_up := run (map move_event moves)
                       (step (MouseDown false button x0 y0 p0) s) in
  let s' := step MouseUp before_up in
  preview_on_canvas before_up = true ->
  List.length (objects (canvas s')) = S (List.length (objects (canvas s))) /\
  toJSON (canvas (run [ClickUndo; LoadComplete] s')) = toJSON (canvas s).
Proof.
  intros Hg Hp Hb. cbv zeta. intros Hprev.
  destruct (mouse_down_drawing s button x0 y0 p0 Hg Hb) as (Hd0 & Hs0 & _).
  destruct Hg as (Hs & Htool & Hpan & Hdraw & Htemp & Htop).
  assert (Hf : fresh s) by (apply wf_fresh, reachable_wf, Hs).
  assert (Hne : historyRef s <> []) by now apply reachable_nonempty.
  assert (Hl : (List.length (historyRef s) <= 50)%nat)
    by (apply reachable_length in Hs; lia).
  set (down := step (MouseDown false button x0 y0 p0) s) in *.
  destruct (drag_invariant s p0 Hf Hne Htop moves _ Hd0 (or_introl Hs0))
    as (Hd & Hk & _).
  set (t := run (map move_event moves) down) in *.
  destruct Hk as [Hst | [o Ho]].
  { rewrite (preview_on_canvas_stale s Hf t Hst) in Hprev. discriminate. }
  destruct (mouse_up_preview s p0 Hf Htop t o Hd Ho) as (Hobj & Hneq & Hh & _).
  split; [rewrite Hobj, length_app; simpl; lia|].
  rewrite run_undo.
  rewrite <- Htop.
  apply (undo_after_commits _ (historyRef s) (toJSON (canvas (step MouseUp t))));
    [exact Hne | |].
  - assert (Q : quiet s (step MouseUp t)).
    { eapply quiet_trans; [apply (quiet_mouse_down false button x0 y0 p0)|].
      eapply quiet_trans; [apply (quiet_run_moves moves)|].
      apply quiet_mouse_up. }
    destruct Q as (_ & _ & Q & _). now rewrite Q.
  - rewrite Hh. apply lastn_snoc; auto.
Qed.

Lemma draw_then_undo_restores_scene_witness :
  let s := run [ClickTool arrow] (mount 800 600) in
  let moves := [(50, 0, (50, 0)); (100, 0, (100, 0))] in
  let s' := step MouseUp
              (run (map move_event moves)
                 (step (MouseDown false 0 0 0 (0, 0)) s)) in
  gesture_start s /\
  toJSON (canvas (run [ClickUndo; LoadComplete] s')) = toJSON (canvas s).
Proof.
  cbv zeta.
  assert (G : gesture_start (run [ClickTool arrow] (mount 800 600))).
  { split; [apply reachable_run; constructor|].
    eval_trace. repeat split. }
  split; [exact G|].
  apply (draw_then_undo_restores_scene
           (run [ClickTool arrow] (mount 800 600)) 0 0 0 (0, 0)
           [(50, 0, (50, 0)); (100, 0, (100, 0))] G).
  - eval_trace. reflexivity.
  - discriminate.
  - eval_trace. reflexivity.
Defined.

(** ** Deleting, and undoing the deletion *)

(** X17. While the active object is a text in editing state, Delete and
    Backspace change nothing; the Delete button of the toolbar has no such
    guard and removes the object. *)
Theorem delete_key_spares_edited_text (s : App) (key : Key) (c m : bool)
    (id : nat) (o : FabricObject) :
  is_delete key = true ->
  activeObjects (canvas s) = [id] ->
  find_oid id (objects (canvas s)) = Some o -> isEditing o = true ->
  step (KeyDown key c m) s = s /\
  objects (canvas (step ClickDelete s)) = remove_oid id (objects (canvas s)).
Proof.
  intros Hk Ha Hf He. split.
  - simpl. unfold handleKeyDown. rewrite Hk.
    assert (Hz : is_z key = false) by (destruct key; simpl in *; congruence).
    assert (Hesc : is_escape key = false)
      by (destruct key; simpl in *; congruence).
    unfold activeObject_isEditing. rewrite Ha, Hf, He. simpl.
    now rewrite Hz, andb_false_r, Hesc.
  - simpl. unfold handleDeleteSelected. rewrite Ha.
    unfold canvas_remove_all. simpl. rewrite objects_canvas_remove. reflexivity.
Qed.

Lemma delete_key_spares_edited_text_witness :
  let o := mkObject 0 i_text [] "NOTES" "#1f2937" 1 400 300 1 true true true in
  let s := on_canvas (fun c => set_activeObjects [0%nat] (set_objects [o] c))
             (mount 800 600) in
  isEditing o = true /\ step (KeyDown Backspace false false) s = s.
Proof.
  cbv zeta. split; [reflexivity|].
  apply (delete_key_spares_edited_text _ Backspace false false 0
           (mkObject 0 i_text [] "NOTES" "#1f2937" 1 400 300 1 true true true));
    reflexivity.
Defined.

Lemma last_app_cons {A : Type} (l l' : list A) (x d : A) :
  last (l ++ x :: l') d = last (x :: l') d.
Proof.
  induction l as [|a l IH]; [reflexivity|].
  simpl app. rewrite <- IH. destruct (l ++ x :: l') eqn:E; [|reflexivity].
  destruct l; discriminate.
Qed.

Lemma removal_scenes_snoc (objs : list FabricObject) (ids : list nat) (i : nat) :
  removal_scenes objs (ids ++ [i])
  = removal_scenes objs ids ++ [remove_oids (ids ++ [i]) objs].
Proof.
  unfold remove_oids. revert objs.
  induction ids as [|j ids IH]; intros objs; [reflexivity|].
  simpl. now rewrite IH.
Qed.

Lemma last_removal_scene (bg : string) (objs : list FabricObject)
    (ids : list nat) :
  last (scene_snapshot bg objs
          :: map (scene_snapshot bg) (removal_scenes objs ids)) empty_snapshot
  = scene_snapshot bg (remove_oids ids objs).
Proof.
  destruct ids as [|i ids]; [reflexivity|].
  rewrite <- (removal_scenes_last bg (i :: ids) objs) by discriminate.
  simpl. reflexivity.
Qed.

(** X18. After a Delete or Backspace that removed the selected objects, one
    undo (the load having completed) brings back only the object removed
    last: the scene is the one with all selected objects but the last
    removed.  With a single object selected it is the scene before the
    deletion. *)
Theorem delete_then_undo_restores_last (s : App) (key : Key) (c m : bool) :
  reachable s ->
  is_delete key = true ->
  activeObjects (canvas s) <> [] ->
  NoDup (activeObjects (canvas s)) ->
  (forall id, In id (activeObjects (canvas s)) ->
              has_oid id (objects (canvas s)) = true) ->
  activeObject_isEditing (canvas s) = false ->
  synced s -> pendingLoads s = [] ->
  let ids := activeObjects (canvas s) in
  let s' := run [KeyDown key c m; ClickUndo; LoadComplete] s in
  toJSON (canvas s')
  = scene_snapshot (backgroundColor (canvas s))
      (remove_oids (removelast ids) (objects (canvas s))) /\
  (List.length ids = 1%nat -> toJSON (canvas s') = toJSON (canvas s)).
Proof.
  intros Hs Hk Hne Hnd Hin He Htop Hp. cbv zeta.
  assert (Hh : historyRef s <> []) by now apply reachable_nonempty.
  assert (Hl : (List.length (historyRef s) <= 50)%nat)
    by (apply reachable_length in Hs; lia).
  assert (Hz : is_z key = false) by (destruct key; simpl in *; congruence).
  assert (Hesc : is_escape key = false)
    by (destruct key; simpl in *; congruence).
  assert (Es : step (KeyDown key c m) s
               = canvas_remove_all (activeObjects (canvas s))
                   (on_canvas (set_activeObjects []) s)).
  { simpl. unfold handleKeyDown, handleDeleteSelected.
    rewrite Hk, Hz, Hesc, andb_false_r, He.
    destruct (activeObjects (canvas s)); [contradiction|reflexivity]. }
  rewrite run_then_undo.
  rewrite Es. clear Es.
  set (ids := activeObjects (canvas s)) in *.
  set (bg := backgroundColor (canvas s)).
  set (objs := objects (canvas s)) in *.
  destruct (canvas_remove_all_present ids
              (on_canvas (set_activeObjects []) s) Hnd Hin eq_refl)
    as (_ & _ & Hhist).
  simpl in Hhist. fold bg objs in Hhist.
  assert (Hchain : chain_distinct (last (historyRef s) empty_snapshot)
                     (map (scene_snapshot bg) (removal_scenes objs ids))).
  { rewrite Htop. apply removal_scenes_chain; assumption. }
  rewrite (fold_commit_distinct _ _ Hh Hl Hchain) in Hhist.
  assert (Hpend : pendingLoads (canvas_remove_all ids
                     (on_canvas (set_activeObjects []) s)) = []).
  { pose proof (quiet_canvas_remove_all ids _ _
                  (quiet_refl (on_canvas (set_activeObjects []) s)))
      as (_ & _ & Q & _).
    rewrite Q. exact Hp. }
  clearbody ids.
  destruct (@exists_last _ ids Hne) as (ids' & i & ->).
  assert (Hshow : toJSON (canvas (undo (canvas_remove_all (ids' ++ [i])
                     (on_canvas (set_activeObjects []) s))))
                  = scene_snapshot bg (remove_oids ids' objs)).
  { rewrite removal_scenes_snoc, map_app in Hhist.
    simpl map in Hhist. rewrite app_assoc in Hhist.
    assert (Hne' : historyRef s
                   ++ map (scene_snapshot bg) (removal_scenes objs ids') <> [])
      by (intros E; apply app_eq_nil in E; tauto).
    rewrite (undo_after_commits _ _ _ Hne' Hpend Hhist).
    rewrite <- last_removal_scene.
    destruct (removal_scenes objs ids') as [|x l] eqn:E.
    - simpl. rewrite app_nil_r. exact Htop.
    - simpl map. rewrite last_app_cons. reflexivity. }
  rewrite Hshow, removelast_last. split; [reflexivity|].
  intros H1. rewrite length_app in H1. simpl in H1.
  destruct ids'; [reflexivity | simpl in H1; lia].
Qed.

Lemma delete_then_undo_restores_last_witness :
  let s := run [ClickAddPiece] (mount 800 600) in
  activeObjects (canvas s) = [0%nat] /\
  toJSON (canvas (run [KeyDown Delete false false; ClickUndo; LoadComplete] s))
  = toJSON (canvas s).
Proof.
  cbv zeta. split; [eval_trace; reflexivity|].
  apply (delete_then_undo_restores_last
           (run [ClickAddPiece] (mount 800 600)) Delete false false).
  - apply reachable_run. constructor.
  - reflexivity.
  - eval_trace. discriminate.
  - eval_trace. repeat constructor; simpl; intuition discriminate.
  - eval_trace. intros id [<-|[]]; reflexivity.
  - eval_trace. reflexivity.
  - eval_trace. reflexivity.
  - eval_trace. reflexivity.
  - eval_trace. reflexivity.
Defined.

(** ** Uploading a background image *)

Lemma find_oid_last (l : list FabricObject) (o : FabricObject) :
  has_oid (oid o) l = false -> find_oid (oid o) (l ++ [o]) = Some o.
Proof.
  unfold find_oid, has_oid. induction l as [|a l IH]; simpl.
  - now rewrite Nat.eqb_refl.
  - destruct (oid a =? oid o)%nat; [discriminate|]. exact IH.
Qed.

Lemma has_oid_filter (id : nat) (f : FabricObject -> bool)
    (l : list FabricObject) :
  has_oid id l = false -> has_oid id (filter f l) = false.
Proof.
  unfold has_oid. induction l as [|a l IH]; [reflexivity|]. simpl.
  destruct (oid a =? id)%nat eqn:E; [discriminate|]. simpl. intros H.
  destruct (f a); simpl; [rewrite E; simpl|]; now apply IH.
Qed.

Lemma viewport_canvas_add (o : FabricObject) (s : App) :
  viewport (canvas (canvas_add o s)) = viewport (canvas s).
Proof. now rewrite canvas_canvas_add. Qed.

Lemma viewport_canvas_remove_all (ids : list nat) (s : App) :
  viewport (canvas (canvas_remove_all ids s)) = viewport (canvas s).
Proof.
  unfold canvas_remove_all. revert s.
  induction ids as [|i ids IH]; intros s; simpl; [reflexivity|].
  rewrite IH. unfold canvas_remove, on_object_removed, saveHistory_mount.
  destruct (has_oid _ _); [|reflexivity]. now rewrite saveHistory_canvas.
Qed.

Lemma viewport_sendToBack (id : nat) (c : Canvas) :
  viewport (sendToBack id c) = viewport c.
Proof. unfold sendToBack. destruct (find_oid _ _); reflexivity. Qed.

Lemma image_loaded_objects (s : App) (b : bool) (data : string)
    (imgWidth imgHeight : R) :
  wf s ->
  objects (canvas (image_loaded b data imgWidth imgHeight s))
  = uploaded_image s data imgWidth imgHeight
    :: filter not_image (objects (canvas s)).
Proof.
  intros Hw. unfold image_loaded. cbv zeta.
  rewrite saveHistory_canvas.
  unfold on_canvas at 1. cbn [canvas set_canvas].
  rewrite canvas_canvas_add, objects_canvas_remove_all.
  cbn [objects canvas set_canvas set_nextOid on_canvas setViewportTransform
       set_objects nextOid].
  rewrite remove_oids_images by apply Hw.
  change (mkObject (nextOid s) image [] data EmptyString 0.9 _ _ _
                   false false false)
    with (uploaded_image s data imgWidth imgHeight).
  set (img := uploaded_image s data imgWidth imgHeight).
  set (l := filter not_image (objects (canvas s))).
  assert (Hfree : has_oid (oid img) l = false).
  { apply has_oid_filter. apply fresh_has_oid; [now apply wf_fresh|].
    apply Nat.le_refl. }
  unfold sendToBack. cbn [objects].
  change (nextOid s) with (oid img).
  repeat change (objects (set_objects ?x ?c)) with x.
  rewrite (find_oid_last l img Hfree).
  change (objects (set_objects ?x ?c)) with x.
  now rewrite (remove_oid_last (oid img) l img Hfree eq_refl).
Qed.

Lemma image_loaded_viewport (s : App) (b : bool) (data : string)
    (imgWidth imgHeight : R) :
  viewport (canvas (image_loaded b data imgWidth imgHeight s)) = (1, 0, 0).
Proof.
  unfold image_loaded. cbv zeta. rewrite saveHistory_canvas.
  unfold on_canvas at 1. cbn [canvas set_canvas].
  now rewrite viewport_sendToBack, viewport_canvas_add,
    viewport_canvas_remove_all.
Qed.

(** X19. The completion of an image upload in a reachable state: the new
    image is the backmost object, every image there was is gone and the
    other objects keep their order; the image is neither selectable nor
    evented; the viewport is reset to the identity and the image is
    centred on the canvas; it is never scaled up, and scaled down so that
    it fits the canvas in both dimensions. *)
Theorem image_upload_replaces_background (s : App) (b : bool) (data : string)
    (imgWidth imgHeight : R) :
  reachable s ->
  let s' := step (ImageLoaded b data imgWidth imgHeight) s in
  let img := uploaded_image s data imgWidth imgHeight in
  objects (canvas s') = img :: filter not_image (objects (canvas s)) /\
  selectable img = false /\ evented img = false /\
  viewport (canvas s') = (1, 0, 0) /\
  to_screen (canvas s') (oleft img, otop img)
  = (width (canvas s) / 2, height (canvas s) / 2) /\
  oscale img <= 1 /\
  (0 < imgWidth -> oscale img * imgWidth <= width (canvas s)) /\
  (0 < imgHeight -> oscale img * imgHeight <= height (canvas s)).
Proof.
  intros Hr. cbv zeta.
  change (step (ImageLoaded b data imgWidth imgHeight) s)
    with (image_loaded b data imgWidth imgHeight s).
  pose proof (image_loaded_viewport s b data imgWidth imgHeight) as Hv.
  split; [apply image_loaded_objects, reachable_wf, Hr|].
  split; [reflexivity|]. split; [reflexivity|]. split; [exact Hv|].
  split.
  { unfold viewport in Hv. injection Hv as Hz H4 H5.
    unfold to_screen. rewrite Hz, H4, H5. simpl. f_equal; lra. }
  unfold uploaded_image. simpl oscale.
  set (W := width (canvas s)). set (H := height (canvas s)).
  split; [apply Rmin_r|]. split.
  - intros Hpos.
    apply Rle_trans with (W / imgWidth * imgWidth);
      [|right; field; lra].
    apply Rmult_le_compat_r; [lra|].
    eapply Rle_trans; [apply Rmin_l | apply Rmin_l].
  - intros Hpos.
    apply Rle_trans with (H / imgHeight * imgHeight);
      [|right; field; lra].
    apply Rmult_le_compat_r; [lra|].
    eapply Rle_trans; [apply Rmin_l | apply Rmin_r].
Qed.

Lemma image_upload_replaces_background_witness :
  reachable (mount 800 600) /\
  viewport (canvas (step (ImageLoaded false "map" 1600 1200) (mount 800 600)))
  = (1, 0, 0).
Proof.
  split; [constructor|].
  apply (image_upload_replaces_background (mount 800 600) false "map" 1600 1200).
  constructor.
Defined.

Lemma filter_nil_forall (l : list FabricObject) :
  filter is_image l = [] -> forall o, In o l -> is_image o = false.
Proof.
  intros E o Ho. destruct (is_image o) eqn:Ei; [|reflexivity].
  assert (H : In o (filter is_image l)) by (apply filter_In; tauto).
  rewrite E in H. contradiction.
Qed.

(** X20. An upload onto a canvas with objects and no image, outside a
    drawing gesture: two history entries are appended, the first taken
    when the image is added, in front of every object, the second after it
    is sent to the back.  One undo therefore shows the image in front of
    the objects. *)
Theorem image_upload_commits_twice (s : App) (data : string)
    (imgWidth imgHeight : R) :
  reachable s -> isDrawingRef s = false -> synced s ->
  filter is_image (objects (canvas s)) = [] -> objects (canvas s) <> [] ->
  let s' := step (ImageLoaded false data imgWidth imgHeight) s in
  let img := toObject (uploaded_image s data imgWidth imgHeight) in
  let objs := map toObject (objects (canvas s)) in
  let bg := backgroundColor (canvas s) in
  historyRef s' = lastn 50 (historyRef s ++ [(bg, objs ++ [img]); (bg, img :: objs)]) /\
  (pendingLoads s = [] ->
   toJSON (canvas (run [ClickUndo; LoadComplete] s')) = (bg, objs ++ [img])).
Proof.
  intros Hr Hd Hs Hnoimg Hne. cbv zeta.
  assert (Hh : historyRef s <> []) by now apply reachable_nonempty.
  assert (Hl : (List.length (historyRef s) <= 50)%nat)
    by (apply reachable_length in Hr; lia).
  set (img := uploaded_image s data imgWidth imgHeight).
  set (objs := map toObject (objects (canvas s))).
  set (bg := backgroundColor (canvas s)).
  set (x1 := ((bg, objs ++ [toObject img]) : Snapshot)).
  set (x2 := ((bg, toObject img :: objs) : Snapshot)).
  pose proof (image_loaded_objects s false data imgWidth imgHeight
                (reachable_wf s Hr)) as Hobj.
  change (image_loaded false data imgWidth imgHeight s)
    with (step (ImageLoaded false data imgWidth imgHeight) s) in Hobj.
  fold img in Hobj.
  assert (Hfilter : filter not_image (objects (canvas s)) = objects (canvas s)).
  { pose proof (filter_nil_forall _ Hnoimg) as Hall.
    clear -Hall. induction (objects (canvas s)) as [|o l IH]; [reflexivity|].
    simpl. unfold not_image at 1. rewrite (Hall o (or_introl eq_refl)). simpl.
    f_equal. apply IH. intros o' Ho'. apply Hall. now right. }
  rewrite Hfilter in Hobj.
  set (s0 := set_nextOid (S (nextOid s))
               (on_canvas (setViewportTransform 1 0 0) s)).
  set (s2 := canvas_add img s0).
  set (s3 := on_canvas (sendToBack (nextOid s)) s2).
  assert (Es : step (ImageLoaded false data imgWidth imgHeight) s
               = saveHistory false s3).
  { simpl step. unfold image_loaded. cbv zeta.
    change (filter is_image
              (objects (canvas (set_nextOid ?n (on_canvas ?f s)))))
      with (filter is_image (objects (canvas s))).
    rewrite Hnoimg. reflexivity. }
  assert (Hh2 : historyRef s2 = commit (historyRef s) x1).
  { subst s2. unfold canvas_add, on_object_added, saveHistory_mount.
    unfold s0 at 1.
    cbn [isDrawingRef on_canvas set_canvas set_nextOid]. rewrite Hd.
    simpl negb. cbv iota. rewrite saveHistory_historyRef.
    cbn [historyRef set_canvas canvas on_canvas]. f_equal.
    unfold toJSON, x1. simpl. now rewrite map_app. }
  assert (Hj3 : toJSON (canvas s3) = x2).
  { rewrite Es, saveHistory_canvas in Hobj.
    unfold toJSON. rewrite Hobj. unfold x2. f_equal.
    subst s3. unfold on_canvas. cbn [canvas set_canvas].
    assert (B : forall id c, backgroundColor (sendToBack id c) = backgroundColor c)
      by (intros id c; unfold sendToBack; destruct (find_oid _ _); reflexivity).
    rewrite B. subst s2. rewrite canvas_canvas_add. reflexivity. }
  assert (Hhist : historyRef (step (ImageLoaded false data imgWidth imgHeight) s)
                  = fold_left commit [x1; x2] (historyRef s)).
  { rewrite Es, saveHistory_historyRef, Hj3. simpl fold_left.
    now rewrite <- Hh2. }
  assert (Hchain : chain_distinct (last (historyRef s) empty_snapshot) [x1; x2]).
  { rewrite Hs. simpl. repeat split.
    - unfold toJSON, x1. intros E. injection E as E.
      apply (f_equal (@List.length _)) in E. fold objs in E.
      rewrite length_app in E. simpl in E. lia.
    - unfold x1, x2. intros E. injection E as E. subst objs.
      destruct (objects (canvas s)) as [|o l] eqn:Eo; [contradiction|].
      simpl in E. injection E as E _.
      assert (Hi : is_image o = false)
        by (apply (filter_nil_forall _ Hnoimg); now left).
      unfold is_image in Hi. rewrite E in Hi. discriminate. }
  rewrite (fold_commit_distinct _ _ Hh Hl Hchain) in Hhist.
  split; [exact Hhist|].
  intros Hp.
  rewrite run_undo.
  change [x1; x2] with ([x1] ++ [x2]) in Hhist. rewrite app_assoc in Hhist.
  rewrite (undo_after_commits _ (historyRef s ++ [x1]) x2).
  - apply last_last.
  - intros E. apply app_eq_nil in E. destruct E. discriminate.
  - rewrite Es.
    assert (Q : quiet s0 (saveHistory false s3)).
    { apply quiet_saveHistory.
      apply quiet_on_canvas; [apply keeps_zoom_sendToBack|].
      apply quiet_canvas_add, quiet_refl. }
    destruct Q as (_ & _ & Q & _). rewrite Q. exact Hp.
  - exact Hhist.
Qed.

Lemma image_upload_commits_twice_witness :
  let s := run [ClickAddPiece] (mount 800 600) in
  let s' := step (ImageLoaded false "map" 1600 1200) s in
  objects (canvas s) <> [] /\
  historyRef s'
  = lastn 50
      (historyRef s
       ++ [(backgroundColor (canvas s),
            map toObject (objects (canvas s))
            ++ [toObject (uploaded_image s "map" 1600 1200)]);
           (backgroundColor (canvas s),
            toObject (uploaded_image s "map" 1600 1200)
            :: map toObject (objects (canvas s)))]).
Proof.
  cbv zeta. split; [eval_trace; discriminate|].
  apply (image_upload_commits_twice
           (run [ClickAddPiece] (mount 800 600)) "map" 1600 1200).
  - apply reachable_run. constructor.
  - eval_trace. reflexivity.
  - eval_trace. reflexivity.
  - eval_trace. reflexivity.
  - eval_trace. discriminate.
Defined.

(** ** Clearing the board *)




